(** * Katamari: population, collision, growth and camera framing

    A shallow embedding of the game's JavaScript sources
    (helpers.js, objectManager.js, physics.js, gameController.js,
    cameraController.js, inputHandler.js) and the properties of its
    specification.

    Numbers.  JavaScript numbers are IEEE doubles.  Here a finite double is
    a real number (no rounding, no overflow, no signed zero), and [NaN] is
    kept as a value of its own where the program computes with it
    ([Math.pow] of a negative base, the [isNaN] guards).  Positions, sizes
    and configuration values are finite, hence of type [R]. *)

From Stdlib Require Import Reals Lra Lia Psatz List Bool String ZArith.
Import ListNotations.
Open Scope R_scope.

(** ** JavaScript numbers and [Math] *)

Module JS.

Inductive number : Type :=
| NaN : number
| Num : R -> number.

Definition isNaN (a : number) : bool :=
  match a with NaN => true | Num _ => false end.

Definition Rltb (a b : R) : bool := if Rlt_dec a b then true else false.
Definition Rleb (a b : R) : bool := if Rle_dec a b then true else false.
Definition Reqb (a b : R) : bool := if Req_dec_T a b then true else false.

(** Comparisons with [NaN] are false. *)
Definition le (a b : number) : bool :=
  match a, b with Num r, Num s => Rleb r s | _, _ => false end.

Definition lift2 (f : R -> R -> R) (a b : number) : number :=
  match a, b with Num r, Num s => Num (f r s) | _, _ => NaN end.

Definition add := lift2 Rplus.
Definition mul := lift2 Rmult.
(** Every divisor in the program is a non-zero constant. *)
Definition div := lift2 Rdiv.

Definition is_integer (y : R) : bool := Reqb (IZR (Int_part y)) y.

(** [Math.pow(x, y)] for a finite exponent [y].  A zero base with a negative
    exponent gives [Infinity] in JavaScript, a value this model does not
    have; the program only raises to the exponents 2, 3 and 1/3. *)
Definition Math_pow (a : number) (y : R) : number :=
  if Reqb y 0 then Num 1
  else match a with
       | NaN => NaN
       | Num r =>
           if Rltb 0 r then Num (Rpower r y)
           else if Reqb r 0 then (if Rltb 0 y then Num 0 else NaN)
           else if is_integer y then Num (powerRZ r (Int_part y))
           else NaN
       end.

(** [a || d] on numbers: [0] and [NaN] are falsy. *)
Definition or_default (a : R) (d : R) : R := if Reqb a 0 then d else a.

(** [Math.floor] of a real, as an integer. *)
Definition Math_floor (a : R) : Z := Int_part a.

(** [Math.log10]. *)
Definition Math_log10 (a : R) : R := ln a / ln 10.

End JS.

Abbreviation number := JS.number.
Abbreviation NaN := JS.NaN.
Abbreviation Num := JS.Num.

(** ** The parts of three.js the game uses *)

Module THREE.

Record Vector3 : Type := mkVector3 { x : R; y : R; z : R }.

Definition zero : Vector3 := mkVector3 0 0 0.

Definition subVectors (a b : Vector3) : Vector3 :=
  mkVector3 (x a - x b) (y a - y b) (z a - z b).

Definition multiplyScalar (v : Vector3) (s : R) : Vector3 :=
  mkVector3 (x v * s) (y v * s) (z v * s).

Definition dot (a b : Vector3) : R := x a * x b + y a * y b + z a * z b.

Definition lengthSq (v : Vector3) : R := x v * x v + y v * y v + z v * z v.

Definition length (v : Vector3) : R := sqrt (lengthSq v).

Definition distanceTo (a b : Vector3) : R := length (subVectors a b).

(** [normalize] is [divideScalar(length() || 1)]: the zero vector stays zero. *)
Definition normalize (v : Vector3) : Vector3 :=
  multiplyScalar v (1 / JS.or_default (length v) 1).

Definition negate (v : Vector3) : Vector3 := mkVector3 (- x v) (- y v) (- z v).

(** A [Matrix4] is used only through its action on points and through
    [invert]; it is modelled by that action together with the action of the
    inverse matrix. *)
Record Matrix4 : Type := mkMatrix4 {
  transform : Vector3 -> Vector3;
  transform_inv : Vector3 -> Vector3
}.

Definition applyMatrix4 (v : Vector3) (m : Matrix4) : Vector3 := transform m v.

Definition invert (m : Matrix4) : Matrix4 :=
  mkMatrix4 (transform_inv m) (transform m).

Definition identity : Matrix4 := mkMatrix4 (fun v => v) (fun v => v).

(** Geometry classes with their [parameters]. *)
Inductive Geometry : Type :=
| SphereGeometry (radius : R)
| BoxGeometry (width height depth : R)
| ConeGeometry (radius height : R)
| CylinderGeometry (radiusTop radiusBottom height : R)
| BufferGeometry.

End THREE.

Abbreviation Vector3 := THREE.Vector3.
Abbreviation mkVector3 := THREE.mkVector3.

(** ** helpers.js *)

Definition randomInRange (min max : R) (u : R) : R := min + u * (max - min).

Definition calculateSphereVolume (radius : number) : number :=
  JS.mul (JS.mul (Num (4 / 3)) (Num PI)) (JS.Math_pow radius 3).

Definition calculateNewRadius (currentRadius addedVolume : number) : number :=
  let currentVolume := calculateSphereVolume currentRadius in
  let newVolume := JS.add currentVolume addedVolume in
  JS.Math_pow (JS.div (JS.mul (Num 3) newVolume) (JS.mul (Num 4) (Num PI))) (1 / 3).

(** ** Data model *)

(** [mesh.userData]: the property bag the game attaches to a mesh.
    [collisionRadius] and [velocity] may be undefined. *)
Record UserData : Type := mkUserData {
  type : string;
  size : R;
  canBeAbsorbed : bool;
  collisionRadius : option R;
  isBarrier : bool;
  velocity : option Vector3
}.

(** A [THREE.Mesh]; [uuid] stands for the identity of the JavaScript object. *)
Record Mesh : Type := mkMesh {
  uuid : nat;
  geometry : THREE.Geometry;
  position : Vector3;
  matrixWorld : THREE.Matrix4;
  userData : UserData
}.

(** [window.GAME_CONFIG] (main.js). *)
Record GameConfig : Type := mkGameConfig {
  INITIAL_BALL_SIZE : R;
  BALL_SPEED : R;
  INITIAL_OBJECTS_COUNT : Z;
  MAX_OBJECTS_COUNT : Z;
  MAP_SIZE : R;
  PLAYABLE_AREA : R;
  MAX_OBJECT_SIZE : R;
  RESPAWN_OBJECTS : bool;
  MAX_SCREEN_PERCENTAGE : R;
  CAMERA_ZOOM_RATE : R
}.

Definition GAME_CONFIG : GameConfig :=
  mkGameConfig 1 10 1500 1500 1000 400 1 true 30 1.5.

(** The player mesh: its position, [userData.velocity] and
    [geometry.parameters.radius]. *)
Record PlayerSphere : Type := mkPlayerSphere {
  p_position : Vector3;
  p_velocity : Vector3;
  p_radius : R
}.

(** ** objectManager.js *)

Module ObjectManager.

Record ObjectDefinition : Type := mkObjectDefinition {
  def_id : string;
  geometryType : string;
  sizeRange : R * R
}.

(** [this.objects], the scene object named 'playerSphere' (if the scene has
    one), the number of [Math.random()] calls made so far and the identity
    given to the next mesh. *)
Record State : Type := mkState {
  objects : list Mesh;
  scene_playerSphere : option Vector3;
  randomCalls : nat;
  nextUuid : nat
}.

(** State passing for the methods that mutate [this.objects] or draw random
    numbers. *)
Definition M (A : Type) : Type := State -> A * State.
Definition ret {A} (a : A) : M A := fun s => (a, s).
Definition bind {A B} (c : M A) (k : A -> M B) : M B :=
  fun s => let (a, s') := c s in k a s'.

Notation "x <- c ;; k" := (bind c (fun x => k))
  (at level 61, c at next level, right associativity).
Notation "c ;;; k" := (bind c (fun _ => k))
  (at level 61, right associativity).

Definition get_objects : M (list Mesh) := fun s => (objects s, s).
Definition set_objects (l : list Mesh) : M unit :=
  fun s => (tt, mkState l (scene_playerSphere s) (randomCalls s) (nextUuid s)).
Definition fresh_uuid : M nat :=
  fun s => (nextUuid s,
            mkState (objects s) (scene_playerSphere s) (randomCalls s) (S (nextUuid s))).

(** [str.includes(sub)]. *)
Fixpoint includes (str sub : string) : bool :=
  String.prefix sub str ||
  match str with
  | EmptyString => false
  | String _ rest => includes rest sub
  end.

(** [arr[i]] for an integer index: undefined out of range. *)
Definition index {A} (arr : list A) (i : Z) : option A :=
  if (i <? 0)%Z then None else nth_error arr (Z.to_nat i).

Definition effectiveRadiusOf (ty : string) (sz : R) : R :=
  if String.eqb ty "box" then sz * 0.7
  else if String.eqb ty "cone" || String.eqb ty "cylinder" then sz * 0.5
  else sz.

Section WithConfig.

Variable config : GameConfig.
(** The sequence of values returned by [Math.random()]. *)
Variable random : nat -> R.

Definition Math_random : M R :=
  fun s => (random (randomCalls s),
            mkState (objects s) (scene_playerSphere s) (S (randomCalls s)) (nextUuid s)).

Definition objectDefinitions : list ObjectDefinition :=
  [ mkObjectDefinition "smallCube" "box" (0.5, 10);
    mkObjectDefinition "smallSphere" "sphere" (0.5, 15);
    mkObjectDefinition "mediumCube" "box" (5, 25);
    mkObjectDefinition "mediumSphere" "sphere" (5, 30);
    mkObjectDefinition "cone" "cone" (3, 20);
    mkObjectDefinition "cylinder" "cylinder" (3, 25);
    mkObjectDefinition "largeCube" "box" (10, 50);
    mkObjectDefinition "largeSphere" "sphere" (10, 60);
    mkObjectDefinition "hugeCube" "box" (30, MAX_OBJECT_SIZE config / 2);
    mkObjectDefinition "hugeSphere" "sphere" (30, MAX_OBJECT_SIZE config) ].

(** One pass of the [for] loop of [_findNonOverlappingPosition] over
    [this.objects]: does the candidate overlap an existing object? *)
Fixpoint hasOverlap (effectiveRadius : R) (px pz : R) (objs : list Mesh) : bool :=
  match objs with
  | [] => false
  | object :: rest =>
      let objPos := position object in
      let objRadius :=
        effectiveRadiusOf (type (userData object)) (size (userData object)) in
      let distance :=
        sqrt ((px - THREE.x objPos) ^ 2 + (pz - THREE.z objPos) ^ 2) in
      if JS.Rltb distance (effectiveRadius + objRadius + 0.5) then true
      else hasOverlap effectiveRadius px pz rest
  end.

(** The attempts of [_findNonOverlappingPosition], [attempts] of them left. *)
Fixpoint findAttempts (attempts : nat) (maxCoord effectiveRadius playerSize : R)
    : M (option Vector3) :=
  match attempts with
  | O => ret None
  | S attempts' =>
      ux <- Math_random ;;
      uz <- Math_random ;;
      let pos := mkVector3 (randomInRange (- maxCoord) maxCoord ux) 0
                           (randomInRange (- maxCoord) maxCoord uz) in
      fun s =>
        let tooClose :=
          match scene_playerSphere s with
          | Some playerPosition =>
              let distToPlayer :=
                sqrt ((THREE.x pos - THREE.x playerPosition) ^ 2 +
                      (THREE.z pos - THREE.z playerPosition) ^ 2) in
              let minPlayerDist := playerSize + effectiveRadius + 5 in
              JS.Rltb distToPlayer minPlayerDist
          | None => false
          end in
        if tooClose then findAttempts attempts' maxCoord effectiveRadius playerSize s
        else if hasOverlap effectiveRadius (THREE.x pos) (THREE.z pos) (objects s)
        then findAttempts attempts' maxCoord effectiveRadius playerSize s
        else (Some pos, s)
  end.

Definition MAX_ATTEMPTS : nat := 50.

Definition _findNonOverlappingPosition (sz : R) (geomType : string) (playerSize : R)
    : M (option Vector3) :=
  let playableArea := PLAYABLE_AREA config in
  let maxCoord := Rmin playableArea (MAP_SIZE config / 2 - sz) in
  let effectiveRadius := effectiveRadiusOf geomType sz in
  findAttempts MAX_ATTEMPTS maxCoord effectiveRadius playerSize.

Definition translation (p : Vector3) : THREE.Matrix4 :=
  THREE.mkMatrix4
    (fun v => mkVector3 (THREE.x v + THREE.x p) (THREE.y v + THREE.y p) (THREE.z v + THREE.z p))
    (fun v => mkVector3 (THREE.x v - THREE.x p) (THREE.y v - THREE.y p) (THREE.z v - THREE.z p)).

Definition _createObject (ty : string) (sz : R) (pos : Vector3) : M Mesh :=
  let groundLevel := -0.5 in
  let '(geom, yOffset) :=
    if String.eqb ty "box" then (THREE.BoxGeometry sz sz sz, sz / 2)
    else if String.eqb ty "sphere" then (THREE.SphereGeometry sz, sz)
    else if String.eqb ty "cone" then (THREE.ConeGeometry sz (sz * 2), sz)
    else if String.eqb ty "cylinder" then (THREE.CylinderGeometry sz sz (sz * 2), sz)
    else (THREE.SphereGeometry sz, sz) in
  let p := mkVector3 (THREE.x pos) (groundLevel + yOffset) (THREE.z pos) in
  u <- fresh_uuid ;;
  ret (mkMesh u geom p (translation p) (mkUserData ty sz true None false None)).

(** [arr[Math.floor(Math.random() * arr.length)]]. *)
Definition pickRandom {A} (arr : list A) : M (option A) :=
  u <- Math_random ;;
  ret (index arr (JS.Math_floor (u * INR (List.length arr)))).

Definition spawnRandomObject (playerSize : R) : M (option Mesh) :=
  objs <- get_objects ;;
  if (Z.of_nat (List.length objs) >=? MAX_OBJECTS_COUNT config)%Z then ret None
  else
    let smallObjects := filter (fun obj =>
        JS.Rleb (snd (sizeRange obj)) 15 && includes (def_id obj) "small")
      objectDefinitions in
    let mediumObjects := filter (fun obj =>
        (JS.Rltb 15 (snd (sizeRange obj)) && JS.Rleb (snd (sizeRange obj)) 30) ||
        (includes (def_id obj) "medium" || String.eqb (def_id obj) "cone"
         || String.eqb (def_id obj) "cylinder"))
      objectDefinitions in
    let largeObjects := filter (fun obj =>
        JS.Rltb 30 (snd (sizeRange obj)) || includes (def_id obj) "large"
        || includes (def_id obj) "huge")
      objectDefinitions in
    randomValue <- Math_random ;;
    picked <- (if JS.Rltb randomValue 0.6 then pickRandom smallObjects
               else if JS.Rltb randomValue 0.9 then pickRandom mediumObjects
               else pickRandom largeObjects) ;;
    objectDef <- (match picked with
                  | Some d => ret (Some d)
                  | None => pickRandom objectDefinitions
                  end) ;;
    match objectDef with
    | None => ret None (* not reached: the table is not empty and Math.random() < 1 *)
    | Some objectDef =>
        let minSize := fst (sizeRange objectDef) in
        let maxSize := Rmin (snd (sizeRange objectDef)) (MAX_OBJECT_SIZE config) in
        sz <- (if existsb (fun d => String.eqb (def_id d) (def_id objectDef)) smallObjects
               then u <- Math_random ;;
                    let randomFactor := sqrt u in
                    ret (minSize + randomFactor * (maxSize - minSize))
               else u <- Math_random ;; ret (randomInRange minSize maxSize u)) ;;
        pos <- _findNonOverlappingPosition sz (geometryType objectDef) playerSize ;;
        match pos with
        | None => ret None
        | Some pos =>
            _color <- Math_random ;;
            object <- _createObject (geometryType objectDef) sz pos ;;
            objs <- get_objects ;;
            set_objects (objs ++ [object]) ;;;
            ret (Some object)
        end
    end.

(** [indexOf] followed by [splice(index, 1)]: the first entry that is the
    same object goes. *)
Fixpoint removeFirst (u : nat) (objs : list Mesh) : list Mesh :=
  match objs with
  | [] => []
  | o :: rest => if Nat.eqb (uuid o) u then rest else o :: removeFirst u rest
  end.

Definition removeObject (object : Mesh) : M unit :=
  objs <- get_objects ;;
  set_objects (removeFirst (uuid object) objs).

(** The test of [_cullTinyObjects] on one object. *)
Definition cullable (playerSize : R) (object : Mesh) : bool :=
  let minRelevantSize := playerSize * 0.1 in
  let playableArea := PLAYABLE_AREA config in
  let cullDistanceThreshold := playableArea * playableArea in
  if JS.Rltb (size (userData object)) minRelevantSize && JS.Rltb (size (userData object)) 5
  then
    let distanceSq := THREE.lengthSq (position object) in
    JS.Rltb cullDistanceThreshold distanceSq
  else false.

Fixpoint forEach {A} (arr : list A) (f : A -> M unit) : M unit :=
  match arr with
  | [] => ret tt
  | a :: rest => f a ;;; forEach rest f
  end.

Definition _cullTinyObjects (playerSize : R) : M unit :=
  objs <- get_objects ;;
  let objectsToRemove := filter (cullable playerSize) objs in
  forEach objectsToRemove removeObject.

(** The [while] loop of [checkAndSpawnObjects]; it runs at most
    [maxSpawnAttempts] times, which is what [fuel] counts. *)
Fixpoint spawnLoop (fuel : nat) (playerSize : R) (objectsToSpawn maxSpawnAttempts : Z)
    (successfulSpawns totalAttempts : Z) : M unit :=
  match fuel with
  | O => ret tt
  | S fuel' =>
      if ((successfulSpawns <? objectsToSpawn) && (totalAttempts <? maxSpawnAttempts))%Z
      then
        newObject <- spawnRandomObject playerSize ;;
        let totalAttempts := (totalAttempts + 1)%Z in
        let successfulSpawns :=
          match newObject with
          | Some _ => (successfulSpawns + 1)%Z
          | None => successfulSpawns
          end in
        if ((totalAttempts >=? 10) && (successfulSpawns =? 0))%Z then ret tt
        else spawnLoop fuel' playerSize objectsToSpawn maxSpawnAttempts
               successfulSpawns totalAttempts
      else ret tt
  end.

(** The [while] loop of [spawnInitialObjects], bounded by [maxSpawnAttempts]
    like the one above. *)
Fixpoint initialLoop (fuel : nat) (playerSize : R) (count maxSpawnAttempts : Z)
    (successfulSpawns totalAttempts : Z) : M unit :=
  match fuel with
  | O => ret tt
  | S fuel' =>
      if ((successfulSpawns <? count) && (totalAttempts <? maxSpawnAttempts))%Z
      then
        newObject <- spawnRandomObject playerSize ;;
        let totalAttempts := (totalAttempts + 1)%Z in
        let successfulSpawns :=
          match newObject with
          | Some _ => (successfulSpawns + 1)%Z
          | None => successfulSpawns
          end in
        if (totalAttempts >=? 100)%Z
           && JS.Rltb (IZR successfulSpawns) (IZR totalAttempts * 0.1)
        then ret tt
        else initialLoop fuel' playerSize count maxSpawnAttempts
               successfulSpawns totalAttempts
      else ret tt
  end.

Definition spawnInitialObjects (playerSize : R) : M unit :=
  let count := INITIAL_OBJECTS_COUNT config in
  let maxSpawnAttempts := (count * 2)%Z in
  initialLoop (Z.to_nat maxSpawnAttempts) playerSize count maxSpawnAttempts 0 0.

Definition checkAndSpawnObjects (playerSize : R) : M unit :=
  if negb (RESPAWN_OBJECTS config) then ret tt
  else
    let desiredObjectCount :=
      Z.min (MAX_OBJECTS_COUNT config) (INITIAL_OBJECTS_COUNT config) in
    objs <- get_objects ;;
    let objectsToSpawn := (desiredObjectCount - Z.of_nat (List.length objs))%Z in
    let maxSpawnAttempts := (objectsToSpawn * 2)%Z in
    spawnLoop (Z.to_nat maxSpawnAttempts) playerSize objectsToSpawn maxSpawnAttempts 0 0 ;;;
    _cullTinyObjects playerSize.

End WithConfig.

End ObjectManager.

(** ** physics.js *)

Module Physics.

(** An entry of [largerCollisions]. *)
Record Collision : Type := mkCollision {
  object : Mesh;
  distance : R;
  objectRadius : R;
  objectPosition : Vector3
}.

Definition gravity : R := 9.8.
Definition friction : R := 0.95.

(** The closest point of the barrier's box to the player centre, in world
    space.  A geometry that is not a box has no [parameters.width]: every
    number computed from it is [NaN] and every comparison on it is false,
    which is the [None] case. *)
Definition worldClosestPoint (playerPos : Vector3) (barrier : Mesh) : option Vector3 :=
  match geometry barrier with
  | THREE.BoxGeometry width height depth =>
      let inverseMatrix := THREE.invert (matrixWorld barrier) in
      let localPlayerPos := THREE.applyMatrix4 playerPos inverseMatrix in
      let boxHalfWidth := width / 2 in
      let boxHalfHeight := height / 2 in
      let boxHalfDepth := depth / 2 in
      let closestPoint := mkVector3
        (Rmax (- boxHalfWidth) (Rmin boxHalfWidth (THREE.x localPlayerPos)))
        (Rmax (- boxHalfHeight) (Rmin boxHalfHeight (THREE.y localPlayerPos)))
        (Rmax (- boxHalfDepth) (Rmin boxHalfDepth (THREE.z localPlayerPos))) in
      Some (THREE.applyMatrix4 closestPoint (matrixWorld barrier))
  | _ => None
  end.

Definition checkBarrierCollision (playerSphere : PlayerSphere) (barrier : Mesh)
    (playerRadius : R) : bool :=
  let playerPos := p_position playerSphere in
  match worldClosestPoint playerPos barrier with
  | Some closest =>
      let distance := THREE.distanceTo playerPos closest in
      JS.Rltb distance playerRadius
  | None => false
  end.

(** The response to one barrier.  [playerPos] is the clone taken before the
    loop; position and velocity are read and written on the live mesh. *)
Definition handleBarrier (playerPos : Vector3) (playerRadius : R)
    (playerSphere : PlayerSphere) (barrier : Mesh) : PlayerSphere :=
  match worldClosestPoint playerPos barrier with
  | None => playerSphere
  | Some closest =>
      let collisionNormal := THREE.normalize (THREE.subVectors playerPos closest) in
      let penetrationDepth := playerRadius - THREE.distanceTo playerPos closest in
      if JS.Rltb 0 penetrationDepth then
        let pos := p_position playerSphere in
        let pos' := mkVector3
          (THREE.x pos + THREE.x collisionNormal * (penetrationDepth * 1.01))
          (THREE.y pos)
          (THREE.z pos + THREE.z collisionNormal * (penetrationDepth * 1.01)) in
        let velocity := p_velocity playerSphere in
        let currentVelocity := mkVector3 (THREE.x velocity) 0 (THREE.z velocity) in
        let dot := THREE.dot currentVelocity collisionNormal in
        let velocity' :=
          if JS.Rltb dot 0 then
            let reflectedVelocity :=
              THREE.subVectors currentVelocity
                (THREE.multiplyScalar collisionNormal (2 * dot)) in
            mkVector3 (THREE.x reflectedVelocity * 0.7) (THREE.y velocity)
                      (THREE.z reflectedVelocity * 0.7)
          else velocity in
        mkPlayerSphere pos' velocity' (p_radius playerSphere)
      else playerSphere
  end.

Definition handleBarrierCollisions (playerSphere : PlayerSphere) (barriers : list Mesh)
    : PlayerSphere :=
  let playerPos := p_position playerSphere in
  let playerRadius := p_radius playerSphere in
  fold_left (handleBarrier playerPos playerRadius) barriers playerSphere.

(** The response to one larger object: only the player is affected. *)
Definition handleLargerObject (playerRadius : R) (playerSphere : PlayerSphere)
    (collision : Collision) : PlayerSphere :=
  let overlap := (playerRadius + objectRadius collision) - distance collision in
  if JS.Rltb 0 overlap then
    let pushDirection :=
      THREE.normalize (THREE.subVectors (p_position playerSphere) (objectPosition collision)) in
    let sizeFactor := Rmin (size (userData (object collision)) / playerRadius) 10 in
    let pushForceFactor := 0.2 + (ln (sizeFactor + 1) * 0.1) in
    let pushForce := overlap * pushForceFactor in
    let v := p_velocity playerSphere in
    let vx := THREE.x v + THREE.x pushDirection * pushForce in
    let vz := THREE.z v + THREE.z pushDirection * pushForce in
    let positionCorrection := Rmin (overlap * 0.5) 0.2 in
    let pos := p_position playerSphere in
    let pos' := mkVector3 (THREE.x pos + THREE.x pushDirection * positionCorrection)
                          (THREE.y pos)
                          (THREE.z pos + THREE.z pushDirection * positionCorrection) in
    let speed := THREE.length (mkVector3 vx 0 vz) in
    let vy := if JS.Rltb 5 speed && JS.Rltb 2 sizeFactor
              then THREE.y v + speed * 0.05 else THREE.y v in
    mkPlayerSphere pos' (mkVector3 vx vy vz) (p_radius playerSphere)
  else playerSphere.

Definition handleLargerObjectCollisions (playerSphere : PlayerSphere)
    (largerCollisions : list Collision) (playerRadius : R) : PlayerSphere :=
  fold_left (handleLargerObject playerRadius) largerCollisions playerSphere.

(** [object.userData.collisionRadius || object.userData.size]. *)
Definition effectiveCollisionRadius (o : Mesh) : R :=
  match collisionRadius (userData o) with
  | Some c => JS.or_default c (size (userData o))
  | None => size (userData o)
  end.

(** The three arrays filled by the [forEach] of [checkCollisions]. *)
Record Scan : Type := mkScan {
  collisions : list Mesh;
  largerCollisions : list Collision;
  barrierCollisions : list Mesh
}.

Fixpoint scan (playerSphere : PlayerSphere) (objects : list Mesh) (playerSize : R) : Scan :=
  match objects with
  | [] => mkScan [] [] []
  | o :: rest =>
      let r := scan playerSphere rest playerSize in
      let playerPosition := p_position playerSphere in
      let playerRadius := playerSize in
      if isBarrier (userData o) then
        if checkBarrierCollision playerSphere o playerRadius
        then mkScan (collisions r) (largerCollisions r) (o :: barrierCollisions r)
        else r
      else
        let objectPosition := position o in
        let distance := THREE.distanceTo playerPosition objectPosition in
        let objectRadius := effectiveCollisionRadius o in
        if JS.Rltb distance (playerRadius + objectRadius) then
          if JS.Rltb (size (userData o)) playerSize
          then mkScan (o :: collisions r) (largerCollisions r) (barrierCollisions r)
          else mkScan (collisions r)
                 (mkCollision o distance objectRadius objectPosition :: largerCollisions r)
                 (barrierCollisions r)
        else r
  end.

(** [checkCollisions] returns the absorbable objects and leaves the player
    mesh pushed back by the larger objects and the barriers. *)
Definition checkCollisions (playerSphere : PlayerSphere) (objects : list Mesh)
    (playerSize : R) : list Mesh * PlayerSphere :=
  let r := scan playerSphere objects playerSize in
  let playerRadius := playerSize in
  let ps1 := match largerCollisions r with
             | [] => playerSphere
             | _ => handleLargerObjectCollisions playerSphere (largerCollisions r) playerRadius
             end in
  let ps2 := match barrierCollisions r with
             | [] => ps1
             | _ => handleBarrierCollisions ps1 (barrierCollisions r)
             end in
  (collisions r, ps2).

(** [applyPhysics]; the visual rotation of the mesh is left out. *)
Definition applyPhysics (playerSphere : PlayerSphere) (delta : R) : PlayerSphere :=
  let v := p_velocity playerSphere in
  let pos := p_position playerSphere in
  let '(pos1, v1) :=
    if JS.Rltb (p_radius playerSphere) (THREE.y pos)
    then (pos, mkVector3 (THREE.x v) (THREE.y v - gravity * delta) (THREE.z v))
    else (mkVector3 (THREE.x pos) (p_radius playerSphere) (THREE.z pos),
          mkVector3 (THREE.x v * friction) 0 (THREE.z v * friction)) in
  let pos2 := mkVector3 (THREE.x pos1 + THREE.x v1 * delta)
                        (THREE.y pos1 + THREE.y v1 * delta)
                        (THREE.z pos1 + THREE.z v1 * delta) in
  mkPlayerSphere pos2 v1 (p_radius playerSphere).

End Physics.

(** ** physics.js, the earlier revision

    The collision scan derives the collision radius from the type of the
    object, there are no barriers, and a larger object that is hit may be
    set in motion. *)

Module PhysicsRev1.

Definition objectRadiusOf (o : Mesh) : R :=
  let objectRadius := size (userData o) in
  if String.eqb (type (userData o)) "box" then size (userData o) * 0.5
  else if String.eqb (type (userData o)) "cone" then size (userData o) * 0.5
  else if String.eqb (type (userData o)) "cylinder" then size (userData o) * 0.5
  else objectRadius.

(** The two arrays filled by the [forEach] of [checkCollisions]. *)
Fixpoint scan (playerSphere : PlayerSphere) (objects : list Mesh) (playerSize : R)
    : list Mesh * list Physics.Collision :=
  match objects with
  | [] => ([], [])
  | o :: rest =>
      let '(collisions, largerCollisions) := scan playerSphere rest playerSize in
      let playerPosition := p_position playerSphere in
      let playerRadius := playerSize in
      let objectPosition := position o in
      let distance := THREE.distanceTo playerPosition objectPosition in
      let objectRadius := objectRadiusOf o in
      if JS.Rltb distance (playerRadius + objectRadius) then
        if JS.Rltb (size (userData o)) playerSize
        then (o :: collisions, largerCollisions)
        else (collisions,
              Physics.mkCollision o distance objectRadius objectPosition :: largerCollisions)
      else (collisions, largerCollisions)
  end.

Definition set_velocity (o : Mesh) (v : Vector3) : Mesh :=
  mkMesh (uuid o) (geometry o) (position o) (matrixWorld o)
    (mkUserData (type (userData o)) (size (userData o)) (canBeAbsorbed (userData o))
       (collisionRadius (userData o)) (isBarrier (userData o)) (Some v)).

(** The response to one larger object: the player is pushed away, and the
    object is pushed the other way when the player is at least 20% of its
    size.  The result is the player and the object as they are left. *)
Definition handleLargerObject (playerRadius : R) (playerSphere : PlayerSphere)
    (collision : Physics.Collision) : PlayerSphere * Mesh :=
  let object := Physics.object collision in
  let overlap :=
    (playerRadius + Physics.objectRadius collision) - Physics.distance collision in
  if JS.Rltb 0 overlap then
    let pushDirection :=
      THREE.normalize
        (THREE.subVectors (p_position playerSphere) (Physics.objectPosition collision)) in
    let sizeFactor := Rmin (size (userData object) / playerRadius) 10 in
    let pushForceFactor := ln (sizeFactor + 1) * 0.05 in
    let pushForce := overlap * pushForceFactor in
    let v := p_velocity playerSphere in
    let vx := THREE.x v + THREE.x pushDirection * pushForce in
    let vz := THREE.z v + THREE.z pushDirection * pushForce in
    let playerSphere' :=
      mkPlayerSphere (p_position playerSphere) (mkVector3 vx (THREE.y v) vz)
                     (p_radius playerSphere) in
    let sizeRatio := playerRadius / size (userData object) in
    if JS.Rleb 0.2 sizeRatio then
      let ov := match velocity (userData object) with
                | Some ov => ov
                | None => THREE.zero
                end in
      let impactFactor := JS.Math_log10 (sizeRatio * 10 + 1) * 0.05 in
      let objectPushForce := overlap * impactFactor in
      let playerSpeed := THREE.length (mkVector3 vx 0 vz) in
      let reverseDirection := THREE.negate pushDirection in
      let ov' := mkVector3
        (THREE.x ov + THREE.x reverseDirection * objectPushForce * playerSpeed)
        (THREE.y ov)
        (THREE.z ov + THREE.z reverseDirection * objectPushForce * playerSpeed) in
      (playerSphere', set_velocity object (THREE.multiplyScalar ov' 0.85))
    else (playerSphere', object)
  else (playerSphere, object).

(** The object of the array that is [o'] takes the state of [o']. *)
Definition store (o' : Mesh) (objects : list Mesh) : list Mesh :=
  map (fun a => if Nat.eqb (uuid a) (uuid o') then o' else a) objects.

Fixpoint handleLargerObjectCollisions (playerSphere : PlayerSphere)
    (objects : list Mesh) (largerCollisions : list Physics.Collision) (playerRadius : R)
    : PlayerSphere * list Mesh :=
  match largerCollisions with
  | [] => (playerSphere, objects)
  | collision :: rest =>
      let '(playerSphere', object') :=
        handleLargerObject playerRadius playerSphere collision in
      handleLargerObjectCollisions playerSphere' (store object' objects) rest playerRadius
  end.

(** [checkCollisions] returns the absorbable objects; the player and the
    larger objects are left as the response moved them. *)
Definition checkCollisions (playerSphere : PlayerSphere) (objects : list Mesh)
    (playerSize : R) : list Mesh * PlayerSphere * list Mesh :=
  let '(collisions, largerCollisions) := scan playerSphere objects playerSize in
  let playerRadius := playerSize in
  let '(playerSphere', objects') :=
    match largerCollisions with
    | [] => (playerSphere, objects)
    | _ => handleLargerObjectCollisions playerSphere objects largerCollisions playerRadius
    end in
  (collisions, playerSphere', objects').

End PhysicsRev1.

(** ** cameraController.js *)

Module CameraController.

(** [camera.fov] is in degrees; [cameraPosition] is [camera.position]. *)
Record State : Type := mkState {
  distance : R;
  height : R;
  rotationAngle : R;
  fov : R;
  cameraPosition : Vector3
}.

Definition updateCameraPosition (c : State) (playerPos : Vector3) : State :=
  let x := THREE.x playerPos + distance c * sin (rotationAngle c) in
  let z := THREE.z playerPos + distance c * cos (rotationAngle c) in
  mkState (distance c) (height c) (rotationAngle c) (fov c)
          (mkVector3 x (THREE.y playerPos + height c) z).

Definition rotateCamera (c : State) (angleChange : R) : State :=
  updateCameraPosition
    (mkState (distance c) (height c) (rotationAngle c + angleChange) (fov c)
             (cameraPosition c))
    THREE.zero.

Section WithConfig.

Variable config : GameConfig.

Definition updateCameraForSize (c : State) (sphereSize : R) : State :=
  let sphereSize :=
    if JS.isNaN (Num sphereSize) || JS.Rleb sphereSize 0 then 1 else sphereSize in
  let maxScreenPercentage := JS.or_default (MAX_SCREEN_PERCENTAGE config) 30 in
  let zoomRate := JS.or_default (CAMERA_ZOOM_RATE config) 1.5 in
  let fovRadians := fov c * PI / 180 in
  let baseDistance := sphereSize / (maxScreenPercentage / 100) / tan (fovRadians / 2) in
  let playableAreaScale := Rmax 1 (PLAYABLE_AREA config / 400) in
  let distance' := baseDistance * zoomRate * playableAreaScale in
  let heightRatio := 0.5 in
  let height' := distance' * heightRatio in
  let baseFOV := 75 in
  let targetFOV := baseFOV - 5 + (sphereSize * 0.2) in
  let fov' := Rmax 60 (Rmin 100 targetFOV) in
  updateCameraPosition
    (mkState distance' height' (rotationAngle c) fov' (cameraPosition c))
    THREE.zero.

Definition update (c : State) (playerSphere : PlayerSphere) : State :=
  let playerPos := p_position playerSphere in
  let currentSphereSize := p_radius playerSphere in
  updateCameraPosition (updateCameraForSize c currentSphereSize) playerPos.

(** The constructor: a 75 degree camera, then the first framing. *)
Definition create (initialSphereSize : R) : State :=
  let c := mkState 20 10 0 75 THREE.zero in
  updateCameraPosition (updateCameraForSize c initialSphereSize) THREE.zero.

End WithConfig.

End CameraController.

(** ** inputHandler.js *)

Module InputHandler.

(** What the key map and the touch controls amount to in one frame. *)
Record Controls : Type := mkControls {
  up : bool;
  down : bool;
  left : bool;
  right : bool
}.

Definition rotationSpeed : R := 1.5.

(** [_applyPhysics]; the visual rotation of the mesh is left out. *)
Definition _applyPhysics (playerSphere : PlayerSphere) (delta : R) : PlayerSphere :=
  let v := p_velocity playerSphere in
  let pos := p_position playerSphere in
  let radius := p_radius playerSphere in
  let '(pos1, v1) :=
    if JS.Rltb radius (THREE.y pos)
    then (pos, mkVector3 (THREE.x v) (THREE.y v - 9.8 * delta) (THREE.z v))
    else (mkVector3 (THREE.x pos) radius (THREE.z pos),
          mkVector3 (THREE.x v) 0 (THREE.z v)) in
  let pos2 := mkVector3 (THREE.x pos1 + THREE.x v1)
                        (THREE.y pos1 + THREE.y v1)
                        (THREE.z pos1 + THREE.z v1) in
  mkPlayerSphere pos2 v1 radius.

Section WithConfig.

Variable config : GameConfig.

Definition update (keys : Controls) (playerSphere : PlayerSphere)
    (cam : CameraController.State) (delta : R) : PlayerSphere * CameraController.State :=
  let moveSpeed := BALL_SPEED config in
  let cameraAngle := CameraController.rotationAngle cam in
  let velocity := p_velocity playerSphere in
  let existingVelocityX := THREE.x velocity in
  let existingVelocityZ := THREE.z velocity in
  let cam1 := if left keys
              then CameraController.rotateCamera cam (rotationSpeed * delta) else cam in
  let cam2 := if right keys
              then CameraController.rotateCamera cam1 (- rotationSpeed * delta) else cam1 in
  let forward := THREE.normalize (mkVector3 (- sin cameraAngle) 0 (- cos cameraAngle)) in
  let '(vx1, vz1) :=
    if up keys then (0 + THREE.x forward * moveSpeed * delta,
                     0 + THREE.z forward * moveSpeed * delta)
    else (0, 0) in
  let '(vx2, vz2) :=
    if down keys then (vx1 - THREE.x forward * moveSpeed * delta,
                       vz1 - THREE.z forward * moveSpeed * delta)
    else (vx1, vz1) in
  let '(vx3, vz3) :=
    if JS.Rltb 0.01 (Rabs existingVelocityX) || JS.Rltb 0.01 (Rabs existingVelocityZ)
    then (vx2 + existingVelocityX * 0.8, vz2 + existingVelocityZ * 0.8)
    else (vx2, vz2) in
  let ps := mkPlayerSphere (p_position playerSphere)
                           (mkVector3 vx3 (THREE.y velocity) vz3)
                           (p_radius playerSphere) in
  (_applyPhysics ps delta, cam2).

End WithConfig.

End InputHandler.

(** ** gameController.js *)

Module GameController.

(** [itemsAbsorbed] is the counter of the HUD controller. *)
Record State : Type := mkState {
  isRunning : bool;
  sphereSize : R;
  playerSphere : PlayerSphere;
  objectManager : ObjectManager.State;
  cameraController : CameraController.State;
  itemsAbsorbed : nat
}.

(** The volume [_handleCollisions] gives to an absorbed object, by the class
    of its geometry. *)
Definition objectVolume (o : Mesh) : number :=
  let sz := Num (size (userData o)) in
  match geometry o with
  | THREE.SphereGeometry _ =>
      let radius := sz in
      JS.mul (JS.mul (JS.Math_pow radius 3) (Num PI)) (Num (4 / 3))
  | THREE.BoxGeometry _ _ _ =>
      JS.Math_pow sz 3
  | THREE.ConeGeometry _ _ =>
      let radius := sz in
      let height := JS.mul sz (Num 2) in
      JS.mul (JS.mul (JS.mul (Num (1 / 3)) (Num PI)) (JS.Math_pow radius 2)) height
  | THREE.CylinderGeometry _ _ _ =>
      let radius := sz in
      let height := JS.mul sz (Num 2) in
      JS.mul (JS.mul (Num PI) (JS.Math_pow radius 2)) height
  | THREE.BufferGeometry =>
      JS.mul (JS.Math_pow sz 3) (Num 0.5)
  end.

(** The safety check on the volume: an invalid one becomes 1.0. *)
Definition checkedVolume (v : number) : number :=
  if JS.isNaN v || JS.le v (Num 0) then Num 1.0 else v.

(** The radius [_handleCollisions] computes from the current size and the
    volume of the absorbed object. *)
Definition newSizeFor (currentSize : R) (volume : number) : number :=
  let currentVolume :=
    JS.mul (JS.mul (JS.Math_pow (Num currentSize) 3) (Num PI)) (Num (4 / 3)) in
  let newVolume := JS.add currentVolume volume in
  JS.Math_pow (JS.div (JS.mul (Num 3) newVolume) (JS.mul (Num 4) (Num PI))) (1 / 3).

Section WithConfig.

Variable config : GameConfig.
Variable random : nat -> R.

Definition growSphere (g : State) (newSize : number) : State :=
  if JS.isNaN newSize || JS.le newSize (Num 0) then g
  else
    match newSize with
    | NaN => g
    | Num r =>
        let ps := playerSphere g in
        let pos := p_position ps in
        let pos' := if JS.Rltb (THREE.y pos) r
                    then mkVector3 (THREE.x pos) r (THREE.z pos) else pos in
        mkState (isRunning g) r
                (mkPlayerSphere pos' (p_velocity ps) r)
                (objectManager g)
                (CameraController.updateCameraForSize config (cameraController g) r)
                (itemsAbsorbed g)
    end.

(** The body of the [forEach] of [_handleCollisions]: one absorption. *)
Definition absorb (g : State) (o : Mesh) : State :=
  let volume := checkedVolume (objectVolume o) in
  let newSize := newSizeFor (sphereSize g) volume in
  if JS.isNaN newSize || JS.le newSize (Num 0) then g
  else
    let g1 := growSphere g newSize in
    let om := snd (ObjectManager.removeObject o (objectManager g1)) in
    mkState (isRunning g1) (sphereSize g1) (playerSphere g1) om
            (cameraController g1) (S (itemsAbsorbed g1)).

Definition _handleCollisions (g : State) (collisions : list Mesh) : State :=
  let g1 := fold_left absorb collisions g in
  let om := snd (ObjectManager.checkAndSpawnObjects config random (sphereSize g1)
                   (objectManager g1)) in
  mkState (isRunning g1) (sphereSize g1) (playerSphere g1) om
          (cameraController g1) (itemsAbsorbed g1).

(** One frame: [delta] is the clock's delta and [keys] the state of the
    controls. *)
Definition _gameLoop (g : State) (delta : R) (keys : InputHandler.Controls) : State :=
  if negb (isRunning g) then g
  else
    let '(ps1, cam1) :=
      InputHandler.update config keys (playerSphere g) (cameraController g) delta in
    let '(collisions, ps2) :=
      Physics.checkCollisions ps1 (ObjectManager.objects (objectManager g)) (sphereSize g) in
    let ps3 := Physics.applyPhysics ps2 delta in
    let g1 := mkState (isRunning g) (sphereSize g) ps3 (objectManager g) cam1
                      (itemsAbsorbed g) in
    let g2 := match collisions with
              | [] => g1
              | _ => _handleCollisions g1 collisions
              end in
    mkState (isRunning g2) (sphereSize g2) (playerSphere g2) (objectManager g2)
            (CameraController.update config (cameraController g2) (playerSphere g2))
            (itemsAbsorbed g2).

(** A session: the frames the scheduler runs, with the inputs of each. *)
Fixpoint session (g : State) (frames : list (R * InputHandler.Controls)) : State :=
  match frames with
  | [] => g
  | (delta, keys) :: rest => session (_gameLoop g delta keys) rest
  end.

End WithConfig.

End GameController.

(** ** helpers.js, the remaining functions *)

Module Helpers.

(** [Math.ceil] of a real, as an integer. *)
Definition Math_ceil (a : R) : Z := (- Int_part (- a))%Z.

(** [randomIntInRange(min, max)] with [u] the value of [Math.random()]. *)
Definition randomIntInRange (min max : R) (u : R) : Z :=
  let min := Math_ceil min in
  let max := JS.Math_floor max in
  (JS.Math_floor (u * IZR (max - min + 1)) + min)%Z.

(** The rainbow palette, as the numbers the hexadecimal literals denote. *)
Definition colors : list Z :=
  [ 0xFF0000; 0xFFA500; 0xFFFF00; 0x008000; 0x0000FF; 0x4B0082; 0xEE82EE ]%Z.

(** [getRandomRainbowColor()] with [u] the value of [Math.random()]. *)
Definition getRandomRainbowColor (u : R) : option Z :=
  ObjectManager.index colors (JS.Math_floor (u * INR (List.length colors))).

End Helpers.

(** ** physics.js, the first revision

    Only smaller objects are looked at; there is no response. *)

Module PhysicsRev0.

Fixpoint checkCollisions (playerSphere : PlayerSphere) (objects : list Mesh)
    (playerSize : R) : list Mesh :=
  match objects with
  | [] => []
  | o :: rest =>
      let collisions := checkCollisions playerSphere rest playerSize in
      let playerPosition := p_position playerSphere in
      let playerRadius := playerSize in
      if JS.Rleb playerSize (size (userData o)) then collisions
      else
        let objectPosition := position o in
        let distance := THREE.distanceTo playerPosition objectPosition in
        if JS.Rltb distance (playerRadius + PhysicsRev1.objectRadiusOf o)
        then o :: collisions
        else collisions
  end.

End PhysicsRev0.

(** ** cameraController.js, the earlier revision

    The camera distance and height come from a table of size thresholds. *)

Module CameraControllerRev1.

Record Threshold : Type := mkThreshold {
  t_size : R;
  t_distance : R;
  t_height : R
}.

Definition sizeThresholds : list Threshold :=
  [ mkThreshold 5 25 12; mkThreshold 10 35 15;
    mkThreshold 20 50 25; mkThreshold 40 70 40 ].

(** The [for] loop over the thresholds, largest first: [thresholds] is the
    table reversed, [settings] the default. *)
Fixpoint findSettings (thresholds : list Threshold) (sphereSize : R)
    (settings : Threshold) : Threshold :=
  match thresholds with
  | [] => settings
  | threshold :: rest =>
      if JS.Rleb (t_size threshold) sphereSize then threshold
      else findSettings rest sphereSize settings
  end.

Definition updateCameraForSize (c : CameraController.State) (sphereSize : R)
    : CameraController.State :=
  let sphereSize :=
    if JS.isNaN (Num sphereSize) || JS.Rleb sphereSize 0 then 1 else sphereSize in
  let settings := findSettings (rev sizeThresholds) sphereSize (mkThreshold 0 20 10) in
  let baseFOV := 75 in
  let targetFOV := baseFOV - 5 + (sphereSize * 0.5) in
  let fov' := Rmax 60 (Rmin 100 targetFOV) in
  CameraController.updateCameraPosition
    (CameraController.mkState (t_distance settings) (t_height settings)
       (CameraController.rotationAngle c) fov' (CameraController.cameraPosition c))
    THREE.zero.

End CameraControllerRev1.

(** ** hudController.js *)

Module HUDController.

(** [updateMinimap]: the [left] and [top] of the player indicator, in
    pixels. *)
Definition updateMinimap (playerPosition : Vector3) (mapSize : R) : R * R :=
  let minimapSize := 150 in
  let halfMapSize := mapSize / 2 in
  let normalizedX := (THREE.x playerPosition + halfMapSize) / mapSize in
  let normalizedZ := (THREE.z playerPosition + halfMapSize) / mapSize in
  let minimapX := normalizedX * minimapSize in
  let minimapY := normalizedZ * minimapSize in
  (minimapX, minimapY).

End HUDController.

(** * Vocabulary of the specification *)

(** The safety check of the game controller: [isNaN(a) || a <= 0]. *)
Definition invalid (a : number) : bool := JS.isNaN a || JS.le a (Num 0).

(** The argument of the cube root in [newSizeFor]. *)
Definition cubeSum (r v : R) : R := 3 * (r ^ 3 * PI * (4 / 3) + v) / (4 * PI).

(** The volume of a sphere of radius [r], [(4/3) pi r^3]. *)
Definition sphereVolume (r : R) : R := 4 / 3 * PI * r ^ 3.

(** The shape volumes as the specification states them, [s] the nominal
    size: sphere [(4/3) pi s^3], cube [s^3], cone [(1/3) pi s^2 (2s)],
    cylinder [pi s^2 (2s)], any other shape [0.5 s^3]. *)
Definition shapeVolume (o : Mesh) : R :=
  let s := size (userData o) in
  match geometry o with
  | THREE.SphereGeometry _ => 4 / 3 * PI * s ^ 3
  | THREE.BoxGeometry _ _ _ => s ^ 3
  | THREE.ConeGeometry _ _ => 1 / 3 * PI * s ^ 2 * (2 * s)
  | THREE.CylinderGeometry _ _ _ => PI * s ^ 2 * (2 * s)
  | THREE.BufferGeometry => 0.5 * s ^ 3
  end.

Definition totalVolume (bodies : list Mesh) : R :=
  fold_right Rplus 0 (map shapeVolume bodies).

(** The radius of the player's mesh and the size the controller keeps agree. *)
Definition inSync (g : GameController.State) : Prop :=
  p_radius (GameController.playerSphere g) = GameController.sphereSize g.

(** The radius one absorption computes for the player. *)
Definition absorbedSize (g : GameController.State) (o : Mesh) : number :=
  GameController.newSizeFor (GameController.sphereSize g)
    (GameController.checkedVolume (GameController.objectVolume o)).

(** Within a list, the identity of a mesh determines the mesh. *)
Definition identified (objs : list Mesh) : Prop :=
  forall a b, In a objs -> In b objs -> uuid a = uuid b -> a = b.

(** ** Sample data *)

Definition sampleUserData (ty : string) (sz : R) : UserData :=
  mkUserData ty sz true None false None.

Definition sampleMesh (u : nat) (g : THREE.Geometry) (ty : string) (sz : R)
    (p : Vector3) : Mesh :=
  mkMesh u g p (ObjectManager.translation p) (sampleUserData ty sz).

(** A sphere of nominal size 0.5, the example of the specification. *)
Definition smallSphere : Mesh :=
  sampleMesh 0 (THREE.SphereGeometry 0.5) "sphere" 0.5 (mkVector3 3 0 0).

Definition samplePlayer (r : R) : PlayerSphere :=
  mkPlayerSphere (mkVector3 0 r 0) THREE.zero r.

(** A running game whose player has radius [r] and whose population is
    [objs]. *)
Definition sampleGame (r : R) (objs : list Mesh) : GameController.State :=
  GameController.mkState true r (samplePlayer r)
    (ObjectManager.mkState objs None 0 (List.length objs))
    (CameraController.create GAME_CONFIG r) 0.

(** A cube of nominal size 0 and one of nominal size 1. *)
Definition emptyCube : Mesh :=
  sampleMesh 1 (THREE.BoxGeometry 0 0 0) "box" 0 (mkVector3 0 0 0).

Definition unitCube : Mesh :=
  sampleMesh 2 (THREE.BoxGeometry 1 1 1) "box" 1 (mkVector3 0 0 0).

(** A configuration with respawning switched off. *)
Definition noRespawn : GameConfig :=
  mkGameConfig 1 10 1500 1500 1000 400 1 false 30 1.5.

(** A sphere of nominal size 0.5 far outside the playable area. *)
Definition farSphere : Mesh :=
  sampleMesh 3 (THREE.SphereGeometry 0.5) "sphere" 0.5 (mkVector3 450 0 0).

(** A sphere of nominal size 6 at the same place. *)
Definition farBigSphere : Mesh :=
  sampleMesh 4 (THREE.SphereGeometry 6) "sphere" 6 (mkVector3 450 5.5 0).

Definition sampleObjects (objs : list Mesh) : ObjectManager.State :=
  ObjectManager.mkState objs None 0 (List.length objs).

(** The sphere-overlap test of the collision scan. *)
Definition overlaps (ps : PlayerSphere) (playerSize : R) (o : Mesh) : Prop :=
  THREE.distanceTo (p_position ps) (position o) <
  playerSize + Physics.effectiveCollisionRadius o.

(** A tiny barrier box around the origin. *)
Definition tinyBarrier : Mesh :=
  mkMesh 5 (THREE.BoxGeometry 2 2 2) THREE.zero THREE.identity
         (mkUserData "" 0 false None true None).

(** The sphere-overlap test of the earlier revision of the scan. *)
Definition overlapsRev1 (ps : PlayerSphere) (playerSize : R) (o : Mesh) : Prop :=
  THREE.distanceTo (p_position ps) (position o) <
  playerSize + PhysicsRev1.objectRadiusOf o.

(** The player's centre is not straight above or below the centre of [o]. *)
Definition offsetHorizontally (ps : PlayerSphere) (o : Mesh) : Prop :=
  THREE.x (p_position ps) <> THREE.x (position o) \/
  THREE.z (p_position ps) <> THREE.z (position o).

(** The horizontal velocity change from [v] to [v'] points away from [o]. *)
Definition pushedAwayFrom (o : Mesh) (ps ps' : PlayerSphere) : Prop :=
  0 < (THREE.x (p_velocity ps') - THREE.x (p_velocity ps)) *
        (THREE.x (p_position ps) - THREE.x (position o)) +
      (THREE.z (p_velocity ps') - THREE.z (p_velocity ps)) *
        (THREE.z (p_position ps) - THREE.z (position o)).

(** The cube of the scenario: nominal size 2 at the origin, collision
    radius 1 (shape factor 0.5). *)
Definition scenarioCube : Mesh :=
  mkMesh 6 (THREE.BoxGeometry 2 2 2) THREE.zero THREE.identity
         (mkUserData "box" 2 true (Some 1) false None).

(** A player of radius 0.5 at rest, centred at [p]. *)
Definition playerAt (p : Vector3) : PlayerSphere :=
  mkPlayerSphere p THREE.zero 0.5.

(** ** Placement *)

(** The distance the allocator measures: between centres, on the ground
    plane. *)
Definition horizontalDistance (a b : Vector3) : R :=
  sqrt ((THREE.x a - THREE.x b) ^ 2 + (THREE.z a - THREE.z b) ^ 2).

(** The [k]-th candidate drawn when [c] random numbers were used before. *)
Definition candidate (random : nat -> R) (maxCoord : R) (c k : nat) : Vector3 :=
  mkVector3 (randomInRange (- maxCoord) maxCoord (random (c + 2 * k)%nat)) 0
            (randomInRange (- maxCoord) maxCoord (random (c + 2 * k + 1)%nat)).

(** Constraint (a): clear of the player, whose centre is the position of the
    scene object named 'playerSphere'. *)
Definition clearOfPlayer (s : ObjectManager.State) (effectiveRadius playerSize : R)
    (pos : Vector3) : Prop :=
  forall playerPosition, ObjectManager.scene_playerSphere s = Some playerPosition ->
    playerSize + effectiveRadius + 5 <= horizontalDistance pos playerPosition.

(** Constraint (b): clear of every existing body. *)
Definition clearOfBodies (s : ObjectManager.State) (effectiveRadius : R)
    (pos : Vector3) : Prop :=
  forall o, In o (ObjectManager.objects s) ->
    effectiveRadius
    + ObjectManager.effectiveRadiusOf (type (userData o)) (size (userData o))
    + 0.5 <= horizontalDistance pos (position o).


(** What one attempt decides, as a boolean. *)
Definition accepts (s : ObjectManager.State) (effectiveRadius playerSize : R) (pos : Vector3) : bool :=
  negb (match ObjectManager.scene_playerSphere s with
        | Some playerPosition =>
            JS.Rltb (sqrt ((THREE.x pos - THREE.x playerPosition) ^ 2 +
                           (THREE.z pos - THREE.z playerPosition) ^ 2))
                    (playerSize + effectiveRadius + 5)
        | None => false
        end)
  && negb (ObjectManager.hasOverlap effectiveRadius (THREE.x pos) (THREE.z pos) (ObjectManager.objects s)).

(** The state after [d] more calls of [Math.random()]. *)
Definition advance (s : ObjectManager.State) (d : nat) : ObjectManager.State :=
  ObjectManager.mkState (ObjectManager.objects s) (ObjectManager.scene_playerSphere s)
    (ObjectManager.randomCalls s + d) (ObjectManager.nextUuid s).

(** An object manager whose scene has the player at (100, 1, 0) and whose
    population is one small sphere far away. *)
Definition sampleScene : ObjectManager.State :=
  ObjectManager.mkState [farSphere] (Some (mkVector3 100 1 0)) 0 1.

(** A random sequence that always returns 1/2. *)
Definition alwaysHalf : nat -> R := fun _ => 1 / 2.

(** ** Barriers *)

(** The point of the box [width x height x depth] centred at the origin that
    is closest to [q]: each axis clamped to the half extent. *)
Definition clampToBox (width height depth : R) (q : Vector3) : Vector3 :=
  mkVector3 (Rmax (- (width / 2)) (Rmin (width / 2) (THREE.x q)))
            (Rmax (- (height / 2)) (Rmin (height / 2) (THREE.y q)))
            (Rmax (- (depth / 2)) (Rmin (depth / 2) (THREE.z q))).

(** The closest point of the barrier's box to [p], in world space. *)
Definition closestBoxPoint (barrier : Mesh) (width height depth : R) (p : Vector3)
    : Vector3 :=
  THREE.applyMatrix4
    (clampToBox width height depth
       (THREE.applyMatrix4 p (THREE.invert (matrixWorld barrier))))
    (matrixWorld barrier).

(** A player of radius 1 at (1.5, 0, 0) moving towards the origin. *)
Definition incomingPlayer : PlayerSphere :=
  mkPlayerSphere (mkVector3 1.5 0 0) (mkVector3 (-1) 0 0) 1.

(** ** Camera *)

(** The clamped linear field of view, in degrees, for a player radius. *)
Definition clampedFOV (radius : R) : R := Rmax 60 (Rmin 100 (75 - 5 + radius * 0.2)).

(** The camera distance that frames a sphere of radius [radius] at the
    configured screen percentage under a field of view of [fovDegrees], times
    the zoom rate and the arena scale. *)
Definition framingDistance (config : GameConfig) (fovDegrees radius : R) : R :=
  radius / (JS.or_default (MAX_SCREEN_PERCENTAGE config) 30 / 100)
         / tan (fovDegrees * PI / 180 / 2)
  * JS.or_default (CAMERA_ZOOM_RATE config) 1.5
  * Rmax 1 (PLAYABLE_AREA config / 400).

(** The distance as the specification orders the two computations: the
    field of view is recomputed from the radius first and the distance is
    computed under it. *)
Definition fovFirstDistance (config : GameConfig) (radius : R) : R :=
  framingDistance config (clampedFOV radius) radius.

(** The camera as the constructor leaves it before the first framing. *)
Definition freshCamera : CameraController.State :=
  CameraController.mkState 20 10 0 75 THREE.zero.

(** ** Population, further vocabulary *)

(** The mesh [_createObject] makes when the next identity is [u]. *)
Definition meshOf (u : nat) (ty : string) (sz : R) (pos : Vector3) : Mesh :=
  fst (ObjectManager._createObject ty sz pos (ObjectManager.mkState [] None 0 u)).

(** Two states of the object manager that differ at most in the number of
    random numbers drawn. *)
Definition sameWorld (s s' : ObjectManager.State) : Prop :=
  ObjectManager.objects s' = ObjectManager.objects s
  /\ ObjectManager.scene_playerSphere s' = ObjectManager.scene_playerSphere s
  /\ ObjectManager.nextUuid s' = ObjectManager.nextUuid s.

(** The effective radius the allocator gives to a mesh. *)
Definition allocatorRadius (o : Mesh) : R :=
  ObjectManager.effectiveRadiusOf (type (userData o)) (size (userData o)).

(** Two bodies keep the allocator's clearance on the ground plane. *)
Definition spaced (a b : Mesh) : Prop :=
  allocatorRadius a + allocatorRadius b + 0.5 <=
  horizontalDistance (position a) (position b).

(** Every two bodies of the population keep the clearance. *)
Definition wellSpaced (objs : list Mesh) : Prop := ForallOrdPairs spaced objs.

(** The identities of the population are distinct and below the next one. *)
Definition freshIdentities (s : ObjectManager.State) : Prop :=
  NoDup (map uuid (ObjectManager.objects s))
  /\ forall o, In o (ObjectManager.objects s) ->
       (uuid o < ObjectManager.nextUuid s)%nat.

(** The population size as the code compares it. *)
Definition population (s : ObjectManager.State) : Z :=
  Z.of_nat (List.length (ObjectManager.objects s)).

(** An invariant of the object manager: a property of its state that a
    spawn, successful or not, and the cull step keep. *)
Definition kept (config : GameConfig) (random : nat -> R)
    (I : ObjectManager.State -> Prop) : Prop :=
  (forall playerSize s, I s ->
     I (snd (ObjectManager.spawnRandomObject config random playerSize s)))
  /\ (forall playerSize s, I s ->
        I (snd (ObjectManager._cullTinyObjects config playerSize s))).

(** A population of two far spheres whose identities are below the next. *)
Definition freshScene : ObjectManager.State :=
  ObjectManager.mkState [farSphere; farBigSphere] None 0 10.

(** ** Frames *)

(** The player after [n] physics steps of length [delta] with nothing else
    acting on it. *)
Definition settle (n : nat) (delta : R) (ps : PlayerSphere) : PlayerSphere :=
  Nat.iter n (fun p => Physics.applyPhysics p delta) ps.

(** The size the camera and the HUD work with: an invalid one counts as 1. *)
Definition displayedSize (sphereSize : R) : R :=
  if JS.Rleb sphereSize 0 then 1 else sphereSize.

(** ** The scene as the game builds it *)



(** A box of nominal size 0.5 as [_createObject] makes it, centred where the
    player of radius 1 is. *)
Definition closeBox : Mesh :=
  sampleMesh 7 (THREE.BoxGeometry 0.5 0.5 0.5) "box" 0.5 (mkVector3 0 1 0).

(** A small sphere on the ground under a player of radius 6, and a sphere of
    size 6 far to the west. *)
Definition nearSphere : Mesh :=
  sampleMesh 8 (THREE.SphereGeometry 0.5) "sphere" 0.5 (mkVector3 0 0 0).

Definition westSphere : Mesh :=
  sampleMesh 9 (THREE.SphereGeometry 6) "sphere" 6 (mkVector3 (-450) 5.5 0).

(** A running game: a player of radius 6 at rest over [nearSphere], with
    [farSphere] and [westSphere] far away and no scene object named
    'playerSphere'. *)
Definition busyGame : GameController.State :=
  GameController.mkState true 6 (samplePlayer 6)
    (ObjectManager.mkState [nearSphere; farSphere; westSphere] None 0 10)
    (CameraController.create GAME_CONFIG 6) 0.

(** No key held. *)
Definition noKeys : InputHandler.Controls :=
  InputHandler.mkControls false false false false.

(** * Properties *)

(** ** Numbers *)

Section NumberFacts.

Lemma Rltb_true (a b : R) : JS.Rltb a b = true <-> a < b.
Proof. unfold JS.Rltb; destruct (Rlt_dec a b); split; intros; try easy. Qed.

Lemma Rltb_false (a b : R) : JS.Rltb a b = false <-> b <= a.
Proof.
  unfold JS.Rltb; destruct (Rlt_dec a b); split; intros; try easy; lra.
Qed.

Lemma Rleb_true (a b : R) : JS.Rleb a b = true <-> a <= b.
Proof. unfold JS.Rleb; destruct (Rle_dec a b); split; intros; try easy. Qed.

Lemma Rleb_false (a b : R) : JS.Rleb a b = false <-> b < a.
Proof.
  unfold JS.Rleb; destruct (Rle_dec a b); split; intros; try easy; lra.
Qed.

Lemma Reqb_true (a b : R) : JS.Reqb a b = true <-> a = b.
Proof. unfold JS.Reqb; destruct (Req_dec_T a b); split; intros; try easy. Qed.

Lemma Reqb_false (a b : R) : JS.Reqb a b = false <-> a <> b.
Proof. unfold JS.Reqb; destruct (Req_dec_T a b); split; intros; try easy. Qed.

Lemma Int_part_IZR (k : Z) : Int_part (IZR k) = k.
Proof.
  destruct (base_Int_part (IZR k)) as [Hle Hgt].
  assert (H1 : (Int_part (IZR k) <= k)%Z) by (apply le_IZR; exact Hle).
  assert (H2 : (k < Int_part (IZR k) + 1)%Z).
  { apply lt_IZR. rewrite plus_IZR. simpl. lra. }
  lia.
Qed.

Lemma Int_part_third : Int_part (1 / 3) = 0%Z.
Proof.
  destruct (base_Int_part (1 / 3)) as [Hle Hgt].
  assert (H1 : (Int_part (1 / 3) < 1)%Z) by (apply lt_IZR; lra).
  assert (H2 : (-1 < Int_part (1 / 3))%Z) by (apply lt_IZR; lra).
  lia.
Qed.

Lemma third_not_integer : JS.is_integer (1 / 3) = false.
Proof.
  unfold JS.is_integer. apply Reqb_false. rewrite Int_part_third. lra.
Qed.

(** [Math.pow(r, n)] for a positive integer literal [n] is the [n]-th power. *)
Lemma Math_pow_nat (r : R) (n : nat) :
  (0 < n)%nat -> JS.Math_pow (Num r) (INR n) = Num (r ^ n).
Proof.
  intros Hn. unfold JS.Math_pow.
  assert (Hpos : 0 < INR n) by (apply lt_0_INR; exact Hn).
  replace (JS.Reqb (INR n) 0) with false by (symmetry; apply Reqb_false; lra).
  destruct (JS.Rltb 0 r) eqn:E1.
  - apply Rltb_true in E1. now rewrite Rpower_pow.
  - apply Rltb_false in E1.
    destruct (JS.Reqb r 0) eqn:E2.
    + apply Reqb_true in E2. subst r.
      replace (JS.Rltb 0 (INR n)) with true by (symmetry; apply Rltb_true; lra).
      rewrite pow_i; [reflexivity | exact Hn].
    + unfold JS.is_integer. rewrite INR_IZR_INZ, Int_part_IZR.
      replace (JS.Reqb (IZR (Z.of_nat n)) (IZR (Z.of_nat n))) with true
        by (symmetry; now apply Reqb_true).
      now rewrite <- pow_powerRZ.
Qed.

Lemma Math_pow_3 (r : R) : JS.Math_pow (Num r) 3 = Num (r ^ 3).
Proof. replace 3 with (INR 3) by (simpl; lra). apply Math_pow_nat; lia. Qed.

Lemma Math_pow_2 (r : R) : JS.Math_pow (Num r) 2 = Num (r ^ 2).
Proof. replace 2 with (INR 2) by (simpl; lra). apply Math_pow_nat; lia. Qed.

(** [Math.pow(r, 1/3)]: the cube root of a positive number, [0] at [0],
    [NaN] below. *)
Lemma Math_pow_third (r : R) :
  JS.Math_pow (Num r) (1 / 3) =
  if JS.Rltb 0 r then Num (Rpower r (1 / 3))
  else if JS.Reqb r 0 then Num 0 else NaN.
Proof.
  unfold JS.Math_pow.
  replace (JS.Reqb (1 / 3) 0) with false by (symmetry; apply Reqb_false; lra).
  destruct (JS.Rltb 0 r); [reflexivity|].
  destruct (JS.Reqb r 0).
  - replace (JS.Rltb 0 (1 / 3)) with true by (symmetry; apply Rltb_true; lra).
    reflexivity.
  - now rewrite third_not_integer.
Qed.

Lemma cube_of_cube_root (a : R) : 0 < a -> Rpower a (1 / 3) ^ 3 = a.
Proof.
  intros Ha. simpl. rewrite Rmult_1_r.
  rewrite <- !Rpower_plus.
  replace (1 / 3 + (1 / 3 + 1 / 3)) with 1 by lra.
  now apply Rpower_1.
Qed.

Lemma cube_root_of_cube (a : R) : 0 < a -> Rpower (a ^ 3) (1 / 3) = a.
Proof.
  intros Ha. replace (a ^ 3) with (Rpower a (INR 3)) by (now apply Rpower_pow).
  rewrite Rpower_mult. replace (INR 3 * (1 / 3)) with 1 by (simpl; lra).
  now apply Rpower_1.
Qed.

Lemma cube_root_pos (a : R) : 0 < Rpower a (1 / 3).
Proof. unfold Rpower. apply exp_pos. Qed.

Lemma cube_lt_inv (a b : R) : a ^ 3 < b ^ 3 -> a < b.
Proof.
  intros H. destruct (Rlt_dec a b) as [|Hn]; [assumption|].
  exfalso. assert (Hba : b <= a) by lra.
  assert (Hq : 0 <= a * a + a * b + b * b) by nra.
  assert (Hf : a ^ 3 - b ^ 3 = (a - b) * (a * a + a * b + b * b)) by ring.
  assert (0 <= (a - b) * (a * a + a * b + b * b)) by (apply Rmult_le_pos; lra).
  lra.
Qed.

End NumberFacts.

(** ** Growth *)

Section GrowthFacts.

Import GameController.

Lemma PI_neq0 : PI <> 0.
Proof. pose proof PI_RGT_0; lra. Qed.

Lemma PI_gt_3 : 3 < PI.
Proof. pose proof PI2_3_2; lra. Qed.

Lemma cubeSum_eq (r v : R) : cubeSum r v = r ^ 3 + 3 * v / (4 * PI).
Proof. unfold cubeSum. field. apply PI_neq0. Qed.

Lemma newSizeFor_Num (r v : R) :
  newSizeFor r (Num v) = JS.Math_pow (Num (cubeSum r v)) (1 / 3).
Proof. unfold newSizeFor. rewrite Math_pow_3. reflexivity. Qed.

Lemma calculateNewRadius_Num (r v : R) :
  calculateNewRadius (Num r) (Num v) = JS.Math_pow (Num (cubeSum r v)) (1 / 3).
Proof.
  unfold calculateNewRadius, calculateSphereVolume. rewrite Math_pow_3.
  unfold JS.mul, JS.add, JS.div, JS.lift2. do 2 f_equal.
  unfold cubeSum. field. apply PI_neq0.
Qed.

(** After its safety check the volume is a positive number. *)
Lemma checkedVolume_pos (a : number) : exists v, checkedVolume a = Num v /\ 0 < v.
Proof.
  unfold checkedVolume. destruct a as [|v]; simpl.
  - exists 1.0. split; [reflexivity | lra].
  - destruct (JS.Rleb v 0) eqn:E.
    + exists 1.0. split; [reflexivity | lra].
    + apply Rleb_false in E. exists v. now split.
Qed.

Lemma invalid_newSize (r v : R) :
  invalid (newSizeFor r (Num v)) = negb (JS.Rltb 0 (cubeSum r v)).
Proof.
  rewrite newSizeFor_Num, Math_pow_third. unfold invalid.
  destruct (JS.Rltb 0 (cubeSum r v)) eqn:E; simpl.
  - apply Rleb_false. apply cube_root_pos.
  - destruct (JS.Reqb (cubeSum r v) 0); simpl; [|reflexivity].
    apply Rleb_true. lra.
Qed.

Lemma valid_newSize (r v : R) :
  0 < cubeSum r v ->
  newSizeFor r (Num v) = Num (Rpower (cubeSum r v) (1 / 3)).
Proof.
  intros H. rewrite newSizeFor_Num, Math_pow_third.
  now replace (JS.Rltb 0 (cubeSum r v)) with true by (symmetry; now apply Rltb_true).
Qed.

Variable config : GameConfig.

Lemma growSphere_size (g : State) (s : R) :
  0 < s -> sphereSize (growSphere config g (Num s)) = s.
Proof.
  intros Hs. unfold growSphere. simpl.
  now replace (JS.Rleb s 0) with false by (symmetry; now apply Rleb_false).
Qed.

(** What one absorption does to the radius, in terms of the checked volume
    [v]: nothing when the cube sum is not positive, its cube root otherwise. *)
Lemma absorb_size (g : State) (o : Mesh) (v : R) :
  checkedVolume (objectVolume o) = Num v ->
  sphereSize (absorb config g o) =
  if JS.Rltb 0 (cubeSum (sphereSize g) v)
  then Rpower (cubeSum (sphereSize g) v) (1 / 3) else sphereSize g.
Proof.
  intros Hv. unfold absorb. rewrite Hv.
  fold (invalid (newSizeFor (sphereSize g) (Num v))).
  rewrite invalid_newSize.
  destruct (JS.Rltb 0 (cubeSum (sphereSize g) v)) eqn:E; simpl; [|reflexivity].
  apply Rltb_true in E. rewrite valid_newSize by assumption.
  apply growSphere_size, cube_root_pos.
Qed.

Lemma absorb_skip (g : State) (o : Mesh) :
  invalid (newSizeFor (sphereSize g) (checkedVolume (objectVolume o))) = true ->
  absorb config g o = g.
Proof. intros H. unfold absorb. unfold invalid in H. now rewrite H. Qed.

End GrowthFacts.

Section VolumeConservation.

Import GameController.

Variable config : GameConfig.

Lemma objectVolume_shape (o : Mesh) : objectVolume o = Num (shapeVolume o).
Proof.
  unfold objectVolume, shapeVolume.
  destruct (geometry o); rewrite ?Math_pow_3, ?Math_pow_2; simpl; f_equal; lra.
Qed.

Lemma shapeVolume_pos (o : Mesh) : 0 < size (userData o) -> 0 < shapeVolume o.
Proof.
  intros Hs. pose proof PI_RGT_0 as Hpi. unfold shapeVolume.
  assert (H2 : 0 < size (userData o) ^ 2) by (apply pow_lt; exact Hs).
  assert (H3 : 0 < size (userData o) ^ 3) by (apply pow_lt; exact Hs).
  assert (Hp2 : 0 < PI * size (userData o) ^ 2) by (apply Rmult_lt_0_compat; lra).
  assert (Hp3 : 0 < PI * size (userData o) ^ 3) by (apply Rmult_lt_0_compat; lra).
  destruct (geometry o); try nra.
Qed.

Lemma checkedVolume_shape (o : Mesh) :
  0 < size (userData o) -> checkedVolume (objectVolume o) = Num (shapeVolume o).
Proof.
  intros Hs. rewrite objectVolume_shape. unfold checkedVolume. simpl.
  pose proof (shapeVolume_pos o Hs).
  now replace (JS.Rleb (shapeVolume o) 0) with false by (symmetry; now apply Rleb_false).
Qed.

Lemma cubeSum_pos (r v : R) : 0 < r -> 0 < v -> 0 < cubeSum r v.
Proof.
  intros Hr Hv. rewrite cubeSum_eq. pose proof PI_RGT_0.
  assert (0 < r ^ 3) by (now apply pow_lt).
  assert (0 < 3 * v / (4 * PI)) by (apply Rdiv_lt_0_compat; lra).
  lra.
Qed.

(** The radius of the sphere of a given volume. *)
Lemma radius_of_volume (r : R) :
  0 < r -> r = Rpower (3 * sphereVolume r / (4 * PI)) (1 / 3).
Proof.
  intros Hr. replace (3 * sphereVolume r / (4 * PI)) with (r ^ 3).
  - symmetry. now apply cube_root_of_cube.
  - unfold sphereVolume. field. apply PI_neq0.
Qed.

Lemma absorb_radius (g : State) (o : Mesh) :
  0 < sphereSize g -> 0 < size (userData o) ->
  sphereSize (absorb config g o) =
    Rpower (3 * (sphereVolume (sphereSize g) + shapeVolume o) / (4 * PI)) (1 / 3)
  /\ 0 < sphereSize (absorb config g o)
  /\ sphereVolume (sphereSize (absorb config g o)) =
     sphereVolume (sphereSize g) + shapeVolume o.
Proof.
  intros Hr Hs.
  pose proof (shapeVolume_pos o Hs) as Hv.
  pose proof (cubeSum_pos _ _ Hr Hv) as Hc.
  rewrite (absorb_size config g o _ (checkedVolume_shape o Hs)).
  replace (JS.Rltb 0 (cubeSum (sphereSize g) (shapeVolume o))) with true
    by (symmetry; now apply Rltb_true).
  replace (3 * (sphereVolume (sphereSize g) + shapeVolume o) / (4 * PI))
    with (cubeSum (sphereSize g) (shapeVolume o))
    by (unfold cubeSum, sphereVolume; f_equal; lra).
  split; [reflexivity|]. split; [apply cube_root_pos|].
  unfold sphereVolume at 1. rewrite cube_of_cube_root by assumption.
  unfold cubeSum, sphereVolume. field. apply PI_neq0.
Qed.

Lemma absorb_all_volume (bodies : list Mesh) : forall g : State,
  0 < sphereSize g ->
  Forall (fun o => 0 < size (userData o)) bodies ->
  0 < sphereSize (fold_left (absorb config) bodies g) /\
  sphereVolume (sphereSize (fold_left (absorb config) bodies g)) =
  sphereVolume (sphereSize g) + totalVolume bodies.
Proof.
  induction bodies as [|o rest IH]; intros g Hr Hall; simpl.
  - split; [assumption | unfold totalVolume; simpl; lra].
  - inversion Hall as [|? ? Ho Hrest]; subst.
    destruct (absorb_radius g o Hr Ho) as (_ & Hpos & Hvol).
    destruct (IH (absorb config g o) Hpos Hrest) as [Hp Hv].
    split; [exact Hp|]. rewrite Hv, Hvol. unfold totalVolume. simpl. lra.
Qed.

End VolumeConservation.

(** C1. Every absorption of a body of positive nominal size by a player of
    positive radius uses the exact volume of the body's shape (sphere
    (4/3) pi s^3, cube s^3, cone (1/3) pi s^2 (2s), cylinder pi s^2 (2s),
    any other shape 0.5 s^3); the new radius is
    ((3 (playerVolume + addedVolume)) / (4 pi))^(1/3) with
    playerVolume = (4/3) pi oldRadius^3, which is also what
    [calculateNewRadius] of helpers.js returns; and after any sequence of
    absorptions the player's volume is the initial volume plus the sum of
    the absorbed shape volumes, its radius being the radius of the sphere of
    that volume. *)
Theorem volume_conservation (config : GameConfig) (g : GameController.State)
    (bodies : list Mesh) :
  0 < GameController.sphereSize g ->
  Forall (fun o => 0 < size (userData o)) bodies ->
  (forall o, In o bodies ->
     GameController.checkedVolume (GameController.objectVolume o) = Num (shapeVolume o))
  /\ (forall g' o, 0 < GameController.sphereSize g' -> In o bodies ->
        let r := GameController.sphereSize g' in
        let newRadius := Rpower (3 * (sphereVolume r + shapeVolume o) / (4 * PI)) (1 / 3) in
        GameController.sphereSize (GameController.absorb config g' o) = newRadius
        /\ calculateNewRadius (Num r) (Num (shapeVolume o)) = Num newRadius)
  /\ sphereVolume
       (GameController.sphereSize (fold_left (GameController.absorb config) bodies g)) =
     sphereVolume (GameController.sphereSize g) + totalVolume bodies
  /\ GameController.sphereSize (fold_left (GameController.absorb config) bodies g) =
     Rpower (3 * (sphereVolume (GameController.sphereSize g) + totalVolume bodies)
             / (4 * PI)) (1 / 3).
Proof.
  intros Hr Hall.
  assert (Hfinal := absorb_all_volume config bodies g Hr Hall).
  rewrite Forall_forall in Hall.
  split; [|split; [|split]]; [| |exact (proj2 Hfinal)|
    destruct Hfinal as [Hpos Hvol]; rewrite <- Hvol; now apply radius_of_volume].
  - intros o Ho. apply checkedVolume_shape. now apply Hall.
  - intros g' o Hr' Ho. cbv zeta.
    destruct (absorb_radius config g' o Hr' (Hall o Ho)) as (Heq & _ & _).
    split; [exact Heq|].
    pose proof (shapeVolume_pos o (Hall o Ho)) as Hv.
    pose proof (cubeSum_pos _ _ Hr' Hv) as Hc.
    rewrite calculateNewRadius_Num, Math_pow_third.
    replace (JS.Rltb 0 (cubeSum (GameController.sphereSize g') (shapeVolume o)))
      with true by (symmetry; now apply Rltb_true).
    do 2 f_equal. unfold cubeSum, sphereVolume. field. apply PI_neq0.
Qed.

Lemma volume_conservation_witness :
  0 < GameController.sphereSize (sampleGame 1 [smallSphere])
  /\ Forall (fun o => 0 < size (userData o)) [smallSphere]
  /\ sphereVolume
       (GameController.sphereSize
          (fold_left (GameController.absorb GAME_CONFIG) [smallSphere]
             (sampleGame 1 [smallSphere]))) =
     sphereVolume 1 + totalVolume [smallSphere].
Proof.
  assert (H1 : 0 < GameController.sphereSize (sampleGame 1 [smallSphere]))
    by (simpl; lra).
  assert (H2 : Forall (fun o => 0 < size (userData o)) [smallSphere])
    by (repeat constructor; simpl; lra).
  split; [exact H1|]. split; [exact H2|].
  exact (proj1 (proj2 (proj2 (volume_conservation GAME_CONFIG _ _ H1 H2)))).
Defined.

Section Monotonicity.

Import GameController.

Variable config : GameConfig.
Variable random : nat -> R.

Lemma absorb_cases (g : State) (o : Mesh) :
  (invalid (newSizeFor (sphereSize g) (checkedVolume (objectVolume o))) = true
   /\ absorb config g o = g)
  \/ (invalid (newSizeFor (sphereSize g) (checkedVolume (objectVolume o))) = false
      /\ sphereSize g < sphereSize (absorb config g o)).
Proof.
  destruct (checkedVolume_pos (objectVolume o)) as (v & Hv & Hpos).
  destruct (invalid (newSizeFor (sphereSize g) (checkedVolume (objectVolume o)))) eqn:E.
  - left. split; [reflexivity|]. now apply absorb_skip.
  - right. split; [reflexivity|].
    rewrite (absorb_size config g o v Hv).
    rewrite Hv, invalid_newSize in E. apply negb_false_iff in E.
    rewrite E. apply Rltb_true in E.
    apply cube_lt_inv. rewrite cube_of_cube_root by assumption.
    rewrite cubeSum_eq. pose proof PI_RGT_0.
    assert (0 < 3 * v / (4 * PI)) by (apply Rdiv_lt_0_compat; lra).
    lra.
Qed.

Lemma absorb_mono (g : State) (o : Mesh) :
  sphereSize g <= sphereSize (absorb config g o).
Proof.
  destruct (absorb_cases g o) as [[_ H]|[_ H]]; [rewrite H|]; lra.
Qed.

Lemma absorb_all_mono (bodies : list Mesh) : forall g : State,
  sphereSize g <= sphereSize (fold_left (absorb config) bodies g).
Proof.
  induction bodies as [|o rest IH]; intros g; simpl; [lra|].
  pose proof (absorb_mono g o). pose proof (IH (absorb config g o)). lra.
Qed.

Lemma handleCollisions_size (g : State) (bodies : list Mesh) :
  sphereSize (_handleCollisions config random g bodies) =
  sphereSize (fold_left (absorb config) bodies g).
Proof. reflexivity. Qed.

(** The radius after one frame is the radius after absorbing the objects the
    collision scan returned; every other step of the frame leaves it alone. *)
Lemma gameLoop_size (g : State) (delta : R) (keys : InputHandler.Controls) :
  sphereSize (_gameLoop config random g delta keys) =
  if isRunning g then
    sphereSize
      (fold_left (absorb config)
         (fst (Physics.checkCollisions
                 (fst (InputHandler.update config keys (playerSphere g)
                         (cameraController g) delta))
                 (ObjectManager.objects (objectManager g)) (sphereSize g)))
         (mkState (isRunning g) (sphereSize g)
            (Physics.applyPhysics
               (snd (Physics.checkCollisions
                       (fst (InputHandler.update config keys (playerSphere g)
                               (cameraController g) delta))
                       (ObjectManager.objects (objectManager g)) (sphereSize g)))
               delta)
            (objectManager g)
            (snd (InputHandler.update config keys (playerSphere g)
                    (cameraController g) delta))
            (itemsAbsorbed g)))
  else sphereSize g.
Proof.
  unfold _gameLoop. destruct (isRunning g); cbn [negb]; [|reflexivity].
  destruct (InputHandler.update config keys (playerSphere g) (cameraController g) delta)
    as [ps1 cam1]; cbn [fst snd].
  destruct (Physics.checkCollisions ps1 (ObjectManager.objects (objectManager g))
              (sphereSize g)) as [cs ps2]; cbn [fst snd].
  destruct cs; reflexivity.
Qed.

Lemma gameLoop_mono (g : State) (delta : R) (keys : InputHandler.Controls) :
  sphereSize g <= sphereSize (_gameLoop config random g delta keys).
Proof.
  rewrite gameLoop_size. destruct (isRunning g); [|lra].
  eapply Rle_trans; [|apply absorb_all_mono]. simpl. lra.
Qed.

Lemma session_mono (frames : list (R * InputHandler.Controls)) : forall g : State,
  sphereSize g <= sphereSize (session config random g frames).
Proof.
  induction frames as [|[delta keys] rest IH]; intros g; simpl; [lra|].
  pose proof (gameLoop_mono g delta keys).
  pose proof (IH (_gameLoop config random g delta keys)). lra.
Qed.

End Monotonicity.

Section RadiusInSync.

Import GameController.

Variable config : GameConfig.
Variable random : nat -> R.

Lemma handleLargerObject_radius (playerRadius : R) (ps : PlayerSphere)
    (c : Physics.Collision) :
  p_radius (Physics.handleLargerObject playerRadius ps c) = p_radius ps.
Proof. unfold Physics.handleLargerObject. destruct (JS.Rltb _ _); reflexivity. Qed.

Lemma handleBarrier_radius (playerPos : Vector3) (playerRadius : R)
    (ps : PlayerSphere) (b : Mesh) :
  p_radius (Physics.handleBarrier playerPos playerRadius ps b) = p_radius ps.
Proof.
  unfold Physics.handleBarrier.
  destruct (Physics.worldClosestPoint playerPos b); [|reflexivity].
  destruct (JS.Rltb _ _); reflexivity.
Qed.

Lemma fold_left_radius {A} (f : PlayerSphere -> A -> PlayerSphere) (l : list A) :
  (forall ps a, p_radius (f ps a) = p_radius ps) ->
  forall ps, p_radius (fold_left f l ps) = p_radius ps.
Proof.
  intros Hf. induction l as [|a l IH]; intros ps; simpl; [reflexivity|].
  now rewrite IH, Hf.
Qed.

Lemma checkCollisions_radius (ps : PlayerSphere) (objs : list Mesh) (playerSize : R) :
  p_radius (snd (Physics.checkCollisions ps objs playerSize)) = p_radius ps.
Proof.
  unfold Physics.checkCollisions. cbn [snd].
  assert (H1 : p_radius
            match Physics.largerCollisions (Physics.scan ps objs playerSize) with
            | [] => ps
            | _ => Physics.handleLargerObjectCollisions ps
                     (Physics.largerCollisions (Physics.scan ps objs playerSize)) playerSize
            end = p_radius ps).
  { destruct (Physics.largerCollisions _); [reflexivity|].
    apply fold_left_radius. intros; apply handleLargerObject_radius. }
  destruct (Physics.barrierCollisions _); [exact H1|].
  unfold Physics.handleBarrierCollisions.
  rewrite fold_left_radius; [exact H1|]. intros; apply handleBarrier_radius.
Qed.

Lemma applyPhysics_radius (ps : PlayerSphere) (delta : R) :
  p_radius (Physics.applyPhysics ps delta) = p_radius ps.
Proof. unfold Physics.applyPhysics. destruct (JS.Rltb _ _); reflexivity. Qed.

Lemma inputUpdate_radius (keys : InputHandler.Controls) (ps : PlayerSphere)
    (cam : CameraController.State) (delta : R) :
  p_radius (fst (InputHandler.update config keys ps cam delta)) = p_radius ps.
Proof.
  unfold InputHandler.update.
  destruct (InputHandler.up keys), (InputHandler.down keys), (_ || _);
    cbn [fst]; unfold InputHandler._applyPhysics; cbn [p_radius p_position];
    destruct (JS.Rltb _ _); reflexivity.
Qed.

Lemma absorb_inSync (g : State) (o : Mesh) : inSync g -> inSync (absorb config g o).
Proof.
  unfold inSync, absorb. intros H.
  destruct (JS.isNaN _ || JS.le _ _) eqn:E; [exact H|].
  cbn [playerSphere sphereSize]. unfold growSphere. rewrite E.
  destruct (newSizeFor _ _); [exact H | reflexivity].
Qed.

Lemma absorb_all_inSync (bodies : list Mesh) : forall g : State,
  inSync g -> inSync (fold_left (absorb config) bodies g).
Proof.
  induction bodies as [|o rest IH]; intros g H; simpl; [exact H|].
  apply IH. now apply absorb_inSync.
Qed.

Lemma gameLoop_inSync (g : State) (delta : R) (keys : InputHandler.Controls) :
  inSync g -> inSync (_gameLoop config random g delta keys).
Proof.
  intros H. unfold _gameLoop. destruct (isRunning g); cbn [negb]; [|exact H].
  pose proof (inputUpdate_radius keys (playerSphere g) (cameraController g) delta) as H1.
  destruct (InputHandler.update config keys (playerSphere g) (cameraController g) delta)
    as [ps1 cam1]; cbn [fst] in H1.
  pose proof (checkCollisions_radius ps1 (ObjectManager.objects (objectManager g))
                (sphereSize g)) as H2.
  destruct (Physics.checkCollisions ps1 (ObjectManager.objects (objectManager g))
              (sphereSize g)) as [cs ps2]; cbn [snd] in H2.
  assert (H0 : inSync (mkState true (sphereSize g) (Physics.applyPhysics ps2 delta)
                         (objectManager g) cam1 (itemsAbsorbed g))).
  { unfold inSync. cbn [playerSphere sphereSize].
    rewrite applyPhysics_radius, H2, H1. exact H. }
  destruct cs as [|c cs]; [exact H0|].
  unfold inSync. cbn [playerSphere sphereSize]. unfold _handleCollisions.
  cbn [playerSphere sphereSize].
  exact (absorb_all_inSync (c :: cs) _ H0).
Qed.

Lemma session_inSync (frames : list (R * InputHandler.Controls)) : forall g : State,
  inSync g -> inSync (session config random g frames).
Proof.
  induction frames as [|[delta keys] rest IH]; intros g H; simpl; [exact H|].
  apply IH. now apply gameLoop_inSync.
Qed.

End RadiusInSync.

(** C5. A successful absorption (one whose new radius passes the safety
    check) makes the player's radius strictly greater; a frame of the game
    never decreases the radius, and leaves it as it is when the collision
    scan returns nothing to absorb; so the radius is non-decreasing over a
    whole session, and the radius of the player's mesh follows it. *)
Theorem radius_never_decreases (config : GameConfig) (random : nat -> R)
    (g : GameController.State) :
  (forall o, invalid (absorbedSize g o) = false ->
     GameController.sphereSize g <
     GameController.sphereSize (GameController.absorb config g o))
  /\ (forall delta keys,
        GameController.sphereSize g <=
        GameController.sphereSize (GameController._gameLoop config random g delta keys))
  /\ (forall delta keys,
        fst (Physics.checkCollisions
               (fst (InputHandler.update config keys (GameController.playerSphere g)
                       (GameController.cameraController g) delta))
               (ObjectManager.objects (GameController.objectManager g))
               (GameController.sphereSize g)) = [] ->
        GameController.sphereSize (GameController._gameLoop config random g delta keys) =
        GameController.sphereSize g)
  /\ (forall frames,
        GameController.sphereSize g <=
        GameController.sphereSize (GameController.session config random g frames))
  /\ (inSync g -> forall frames,
        inSync (GameController.session config random g frames)).
Proof.
  split; [|split; [|split; [|split]]].
  - intros o Hvalid.
    destruct (absorb_cases config g o) as [[H _]|[_ H]]; [|exact H].
    unfold absorbedSize in Hvalid. congruence.
  - intros. apply gameLoop_mono.
  - intros delta keys Hnone. rewrite gameLoop_size, Hnone.
    destruct (GameController.isRunning g); reflexivity.
  - intros. apply session_mono.
  - intros H frames. now apply session_inSync.
Qed.

Lemma radius_never_decreases_witness :
  invalid (absorbedSize (sampleGame 1 [smallSphere]) smallSphere) = false
  /\ GameController.sphereSize (sampleGame 1 [smallSphere]) <
     GameController.sphereSize
       (GameController.absorb GAME_CONFIG (sampleGame 1 [smallSphere]) smallSphere).
Proof.
  assert (H : invalid (absorbedSize (sampleGame 1 [smallSphere]) smallSphere) = false).
  { unfold absorbedSize.
    rewrite checkedVolume_shape by (simpl; lra).
    rewrite invalid_newSize. apply negb_false_iff, Rltb_true.
    apply cubeSum_pos; [simpl; lra | apply shapeVolume_pos; simpl; lra]. }
  split; [exact H|].
  exact (proj1 (radius_never_decreases GAME_CONFIG (fun _ => 0)
                  (sampleGame 1 [smallSphere])) smallSphere H).
Defined.

Section Guards.

Import GameController.

Variable config : GameConfig.

Lemma checkedVolume_invalid (a : number) :
  invalid a = true -> checkedVolume a = Num 1.
Proof.
  unfold invalid, checkedVolume. intros H. rewrite H. f_equal. lra.
Qed.

(** A successful absorption removes the body and counts it. *)
Lemma absorb_success (g : State) (o : Mesh) :
  invalid (absorbedSize g o) = false ->
  ObjectManager.objects (objectManager (absorb config g o)) =
    ObjectManager.removeFirst (uuid o) (ObjectManager.objects (objectManager g))
  /\ itemsAbsorbed (absorb config g o) = S (itemsAbsorbed g).
Proof.
  unfold invalid, absorbedSize, absorb. intros H. rewrite H.
  cbn [objectManager itemsAbsorbed]. unfold growSphere. rewrite H.
  destruct (newSizeFor _ _); split; reflexivity.
Qed.

End Guards.

(** C3, as the code has it. An absorption whose resulting radius is NaN or
    <= 0 is skipped: the whole game state, hence the player's radius,
    position and velocity, is left as it was, and the remaining absorptions
    of the frame are processed from that state.  A body volume that is NaN
    or <= 0 does not skip the absorption: the volume is replaced by the
    default 1.0, and a player of positive radius grows by exactly that
    volume, the body being removed and counted. *)
Theorem absorption_guards (config : GameConfig) (g : GameController.State)
    (o : Mesh) (rest : list Mesh) :
  (invalid (absorbedSize g o) = true ->
     GameController.absorb config g o = g
     /\ fold_left (GameController.absorb config) (o :: rest) g =
        fold_left (GameController.absorb config) rest g)
  /\ (invalid (GameController.objectVolume o) = true ->
      0 < GameController.sphereSize g ->
      GameController.checkedVolume (GameController.objectVolume o) = Num 1
      /\ sphereVolume (GameController.sphereSize (GameController.absorb config g o)) =
         sphereVolume (GameController.sphereSize g) + 1
      /\ ObjectManager.objects
           (GameController.objectManager (GameController.absorb config g o)) =
         ObjectManager.removeFirst (uuid o)
           (ObjectManager.objects (GameController.objectManager g))
      /\ GameController.itemsAbsorbed (GameController.absorb config g o) =
         S (GameController.itemsAbsorbed g)).
Proof.
  split.
  - intros H. pose proof (absorb_skip config g o H) as Hskip.
    split; [exact Hskip|]. simpl. now rewrite Hskip.
  - intros Hv Hr. pose proof (checkedVolume_invalid _ Hv) as Hone.
    assert (Hc : 0 < cubeSum (GameController.sphereSize g) 1)
      by (apply cubeSum_pos; lra).
    assert (Hvalid : invalid (absorbedSize g o) = false).
    { unfold absorbedSize. rewrite Hone, invalid_newSize.
      now apply negb_false_iff, Rltb_true. }
    split; [exact Hone|]. split; [|now apply absorb_success].
    rewrite (absorb_size config g o 1 Hone).
    replace (JS.Rltb 0 (cubeSum (GameController.sphereSize g) 1)) with true
      by (symmetry; now apply Rltb_true).
    unfold sphereVolume at 1. rewrite cube_of_cube_root by assumption.
    unfold cubeSum, sphereVolume. field. apply PI_neq0.
Qed.

Lemma absorption_guards_witness :
  (invalid (absorbedSize (sampleGame (-2) [unitCube]) unitCube) = true
   /\ GameController.absorb GAME_CONFIG (sampleGame (-2) [unitCube]) unitCube =
      sampleGame (-2) [unitCube])
  /\ (invalid (GameController.objectVolume emptyCube) = true
      /\ 0 < GameController.sphereSize (sampleGame 1 [emptyCube])
      /\ sphereVolume
           (GameController.sphereSize
              (GameController.absorb GAME_CONFIG (sampleGame 1 [emptyCube]) emptyCube)) =
         sphereVolume (GameController.sphereSize (sampleGame 1 [emptyCube])) + 1).
Proof.
  assert (H1 : invalid (absorbedSize (sampleGame (-2) [unitCube]) unitCube) = true).
  { unfold absorbedSize. rewrite checkedVolume_shape by (simpl; lra).
    rewrite invalid_newSize. apply negb_true_iff, Rltb_false.
    rewrite cubeSum_eq. pose proof PI_gt_3 as Hpi.
    assert (Hq : 3 * shapeVolume unitCube / (4 * PI) < 1).
    { apply Rmult_lt_reg_r with (4 * PI); [lra|].
      unfold Rdiv. rewrite Rmult_assoc, Rinv_l by lra.
      unfold shapeVolume; simpl; lra. }
    simpl. lra. }
  assert (H2 : invalid (GameController.objectVolume emptyCube) = true).
  { rewrite objectVolume_shape. unfold invalid. simpl.
    apply Rleb_true. unfold shapeVolume; simpl; lra. }
  assert (H3 : 0 < GameController.sphereSize (sampleGame 1 [emptyCube]))
    by (simpl; lra).
  split.
  - split; [exact H1|].
    exact (proj1 (proj1 (absorption_guards GAME_CONFIG _ unitCube [] ) H1)).
  - split; [exact H2|]. split; [exact H3|].
    exact (proj1 (proj2 (proj2 (absorption_guards GAME_CONFIG _ emptyCube []) H2 H3))).
Defined.

(** C3 as stated fails: the volume computed for a cube of nominal size 0 is
    not positive, yet the absorption is not skipped and the player's radius
    changes. *)
Lemma invalid_volume_is_not_skipped :
  invalid (GameController.objectVolume emptyCube) = true
  /\ GameController.sphereSize (sampleGame 1 [emptyCube]) <
     GameController.sphereSize
       (GameController.absorb GAME_CONFIG (sampleGame 1 [emptyCube]) emptyCube)
  /\ GameController.absorb GAME_CONFIG (sampleGame 1 [emptyCube]) emptyCube <>
     sampleGame 1 [emptyCube].
Proof.
  assert (H2 : invalid (GameController.objectVolume emptyCube) = true).
  { rewrite objectVolume_shape. unfold invalid. simpl.
    apply Rleb_true. unfold shapeVolume; simpl; lra. }
  assert (Hlt : GameController.sphereSize (sampleGame 1 [emptyCube]) <
     GameController.sphereSize
       (GameController.absorb GAME_CONFIG (sampleGame 1 [emptyCube]) emptyCube)).
  { destruct (absorb_cases GAME_CONFIG (sampleGame 1 [emptyCube]) emptyCube)
      as [[H _]|[_ H]]; [|exact H].
    exfalso. rewrite (checkedVolume_invalid _ H2), invalid_newSize in H.
    apply negb_true_iff, Rltb_false in H.
    assert (0 < cubeSum (GameController.sphereSize (sampleGame 1 [emptyCube])) 1)
      by (apply cubeSum_pos; simpl; lra).
    lra. }
  split; [exact H2|]. split; [exact Hlt|].
  intros Heq. rewrite Heq in Hlt. lra.
Qed.

(** ** Population *)

Section Culling.

Import ObjectManager.

Variable config : GameConfig.

Lemma forEach_removeObject (xs : list Mesh) : forall s : State,
  snd (forEach xs removeObject s) =
  mkState (fold_left (fun l x => removeFirst (uuid x) l) xs (objects s))
          (scene_playerSphere s) (randomCalls s) (nextUuid s).
Proof.
  induction xs as [|x xs IH]; intros s; simpl.
  - now destruct s.
  - unfold bind at 1. cbn. rewrite IH. reflexivity.
Qed.

Lemma In_removeFirst (u : nat) (o : Mesh) (l : list Mesh) :
  In o l -> uuid o <> u -> In o (removeFirst u l).
Proof.
  induction l as [|a l IH]; simpl; [easy|]. intros [->|Hin] Hne.
  - destruct (Nat.eqb_spec (uuid o) u); [contradiction | now left].
  - destruct (Nat.eqb (uuid a) u); [assumption | right; now apply IH].
Qed.

Lemma In_removeAll (o : Mesh) (xs : list Mesh) : forall l : list Mesh,
  In o l -> (forall x, In x xs -> uuid o <> uuid x) ->
  In o (fold_left (fun l x => removeFirst (uuid x) l) xs l).
Proof.
  induction xs as [|x xs IH]; intros l Hin Hne; simpl; [assumption|].
  apply IH.
  - apply In_removeFirst; [assumption | apply Hne; now left].
  - intros y Hy. apply Hne. now right.
Qed.

Lemma cull_objects (playerSize : R) (s : State) :
  objects (snd (_cullTinyObjects config playerSize s)) =
  fold_left (fun l x => removeFirst (uuid x) l)
    (filter (cullable config playerSize) (objects s)) (objects s).
Proof.
  unfold _cullTinyObjects, bind, get_objects. now rewrite forEach_removeObject.
Qed.

Lemma cull_keeps (playerSize : R) (s : State) (o : Mesh) :
  identified (objects s) -> In o (objects s) ->
  cullable config playerSize o = false ->
  In o (objects (snd (_cullTinyObjects config playerSize s))).
Proof.
  intros Hid Hin Hnc. rewrite cull_objects. apply In_removeAll; [assumption|].
  intros x Hx Heq. apply filter_In in Hx as [Hx Hc].
  rewrite (Hid o x Hin Hx Heq) in Hnc. congruence.
Qed.

Lemma cullable_true (playerSize : R) (o : Mesh) :
  cullable config playerSize o = true <->
  size (userData o) < playerSize * 0.1 /\ size (userData o) < 5 /\
  PLAYABLE_AREA config * PLAYABLE_AREA config < THREE.lengthSq (position o).
Proof.
  unfold cullable. split.
  - destruct (JS.Rltb (size (userData o)) (playerSize * 0.1)) eqn:E1;
      destruct (JS.Rltb (size (userData o)) 5) eqn:E2; simpl; try discriminate.
    intros H. apply Rltb_true in E1, E2, H. auto.
  - intros (H1 & H2 & H3). apply Rltb_true in H1, H2, H3. now rewrite H1, H2, H3.
Qed.

End Culling.

(** C6. The cull step removes a body only if its nominal size is below
    playerRadius * 0.1 and below 5 and its squared distance from the origin
    exceeds playableArea^2; a body whose nominal size is at least
    playerRadius * 0.1, or at least 5, is never removed, whatever its
    distance. *)
Theorem cull_safety (config : GameConfig) (playerSize : R)
    (s : ObjectManager.State) (o : Mesh) :
  identified (ObjectManager.objects s) ->
  In o (ObjectManager.objects s) ->
  let culled := ObjectManager.objects
                  (snd (ObjectManager._cullTinyObjects config playerSize s)) in
  (~ In o culled ->
     size (userData o) < playerSize * 0.1 /\ size (userData o) < 5 /\
     PLAYABLE_AREA config * PLAYABLE_AREA config < THREE.lengthSq (position o))
  /\ (playerSize * 0.1 <= size (userData o) \/ 5 <= size (userData o) -> In o culled).
Proof.
  intros Hid Hin culled. split.
  - intros Hgone. apply cullable_true.
    destruct (ObjectManager.cullable config playerSize o) eqn:E; [reflexivity|].
    exfalso. apply Hgone. now apply cull_keeps.
  - intros Hbig. apply cull_keeps; try assumption.
    destruct (ObjectManager.cullable config playerSize o) eqn:E; [|reflexivity].
    apply cullable_true in E. lra.
Qed.

Lemma identified_two (a b : Mesh) : uuid a <> uuid b -> identified [a; b].
Proof.
  intros Hne x y [<-|[<-|[]]] [<-|[<-|[]]] Heq; try reflexivity; congruence.
Qed.

Lemma cull_safety_witness :
  identified [farSphere; farBigSphere]
  /\ In farBigSphere [farSphere; farBigSphere]
  /\ 5 <= size (userData farBigSphere)
  /\ In farBigSphere
       (ObjectManager.objects
          (snd (ObjectManager._cullTinyObjects GAME_CONFIG 100
                  (sampleObjects [farSphere; farBigSphere])))).
Proof.
  assert (H1 : identified [farSphere; farBigSphere])
    by (apply identified_two; simpl; lia).
  assert (H2 : In farBigSphere [farSphere; farBigSphere]) by (simpl; auto).
  assert (H3 : 5 <= size (userData farBigSphere)) by (simpl; lra).
  split; [exact H1|]. split; [exact H2|]. split; [exact H3|].
  exact (proj2 (cull_safety GAME_CONFIG 100 (sampleObjects [farSphere; farBigSphere])
                  farBigSphere H1 H2) (or_intror H3)).
Defined.

(** C9, as the code has it. When the respawn flag is off the
    population-maintenance step returns at once: it spawns nothing, culls
    nothing and leaves the whole state of the object manager, random number
    sequence included, as it was. *)
Theorem maintenance_disabled (config : GameConfig) (random : nat -> R)
    (playerSize : R) (s : ObjectManager.State) :
  RESPAWN_OBJECTS config = false ->
  ObjectManager.checkAndSpawnObjects config random playerSize s = (tt, s).
Proof.
  intros Hoff. unfold ObjectManager.checkAndSpawnObjects. now rewrite Hoff.
Qed.

Lemma maintenance_disabled_witness :
  RESPAWN_OBJECTS noRespawn = false
  /\ ObjectManager.checkAndSpawnObjects noRespawn (fun _ => 0) 100
       (sampleObjects [farSphere]) = (tt, sampleObjects [farSphere]).
Proof.
  split; [reflexivity|].
  exact (maintenance_disabled noRespawn (fun _ => 0) 100 (sampleObjects [farSphere])
           eq_refl).
Defined.

(** C9 as stated fails: with the flag off, a body the cull step would
    remove is still there after the maintenance step. *)
Lemma disabled_maintenance_does_not_cull :
  RESPAWN_OBJECTS noRespawn = false
  /\ ObjectManager.objects
       (snd (ObjectManager._cullTinyObjects noRespawn 100 (sampleObjects [farSphere]))) = []
  /\ ObjectManager.objects
       (snd (ObjectManager.checkAndSpawnObjects noRespawn (fun _ => 0) 100
               (sampleObjects [farSphere]))) = [farSphere].
Proof.
  split; [reflexivity|]. split; [|reflexivity].
  rewrite cull_objects.
  assert (Hc : ObjectManager.cullable noRespawn 100 farSphere = true).
  { apply cullable_true. unfold THREE.lengthSq. simpl. lra. }
  cbn [sampleObjects ObjectManager.objects filter]. rewrite Hc. reflexivity.
Qed.

(** ** Collision scan *)

Section Scan.

Import Physics.

Variable ps : PlayerSphere.
Variable playerSize : R.

Lemma scan_collisions (objs : list Mesh) (o : Mesh) :
  In o (collisions (scan ps objs playerSize)) <->
  In o objs /\ isBarrier (userData o) = false /\ overlaps ps playerSize o /\
  size (userData o) < playerSize.
Proof.
  unfold overlaps. induction objs as [|a objs IH]; simpl.
  - tauto.
  - destruct (isBarrier (userData a)) eqn:Eb.
    + assert (Hr : In o (collisions
          (if checkBarrierCollision ps a playerSize
           then mkScan (collisions (scan ps objs playerSize))
                  (largerCollisions (scan ps objs playerSize))
                  (a :: barrierCollisions (scan ps objs playerSize))
           else scan ps objs playerSize)) <->
          In o (collisions (scan ps objs playerSize)))
        by (destruct (checkBarrierCollision ps a playerSize); simpl; tauto).
      rewrite Hr, IH. split.
      * tauto.
      * intros ([->|Hin] & Hnb & H); [congruence | tauto].
    + destruct (JS.Rltb (THREE.distanceTo (p_position ps) (position a))
                  (playerSize + effectiveCollisionRadius a)) eqn:Ed.
      * apply Rltb_true in Ed.
        destruct (JS.Rltb (size (userData a)) playerSize) eqn:Es; simpl.
        -- apply Rltb_true in Es. rewrite IH. split.
           ++ intros [->|H]; tauto.
           ++ tauto.
        -- apply Rltb_false in Es. rewrite IH. split.
           ++ tauto.
           ++ intros ([->|Hin] & Hnb & Hd & Hs); [lra | tauto].
      * apply Rltb_false in Ed. rewrite IH. split.
        -- tauto.
        -- intros ([->|Hin] & Hnb & Hd & Hs); [lra | tauto].
Qed.

Lemma scan_larger (objs : list Mesh) (o : Mesh) :
  In o (map object (largerCollisions (scan ps objs playerSize))) <->
  In o objs /\ isBarrier (userData o) = false /\ overlaps ps playerSize o /\
  playerSize <= size (userData o).
Proof.
  unfold overlaps. induction objs as [|a objs IH]; simpl.
  - tauto.
  - destruct (isBarrier (userData a)) eqn:Eb.
    + assert (Hr : In o (map object (largerCollisions
          (if checkBarrierCollision ps a playerSize
           then mkScan (collisions (scan ps objs playerSize))
                  (largerCollisions (scan ps objs playerSize))
                  (a :: barrierCollisions (scan ps objs playerSize))
           else scan ps objs playerSize))) <->
          In o (map object (largerCollisions (scan ps objs playerSize))))
        by (destruct (checkBarrierCollision ps a playerSize); simpl; tauto).
      rewrite Hr, IH. split.
      * tauto.
      * intros ([->|Hin] & Hnb & H); [congruence | tauto].
    + destruct (JS.Rltb (THREE.distanceTo (p_position ps) (position a))
                  (playerSize + effectiveCollisionRadius a)) eqn:Ed.
      * apply Rltb_true in Ed.
        destruct (JS.Rltb (size (userData a)) playerSize) eqn:Es; simpl.
        -- apply Rltb_true in Es. rewrite IH. split.
           ++ tauto.
           ++ intros ([->|Hin] & Hnb & Hd & Hs); [lra | tauto].
        -- apply Rltb_false in Es. rewrite IH. split.
           ++ intros [->|H]; tauto.
           ++ tauto.
      * apply Rltb_false in Ed. rewrite IH. split.
        -- tauto.
        -- intros ([->|Hin] & Hnb & Hd & Hs); [lra | tauto].
Qed.

Lemma scan_barriers (objs : list Mesh) (o : Mesh) :
  In o (barrierCollisions (scan ps objs playerSize)) <->
  In o objs /\ isBarrier (userData o) = true /\
  checkBarrierCollision ps o playerSize = true.
Proof.
  induction objs as [|a objs IH]; simpl.
  - tauto.
  - destruct (isBarrier (userData a)) eqn:Eb.
    + destruct (checkBarrierCollision ps a playerSize) eqn:Ec; simpl; rewrite IH; split.
      * intros [->|H]; tauto.
      * tauto.
      * tauto.
      * intros ([->|Hin] & Hb & Hc); [congruence | tauto].
    + assert (Hr : In o (barrierCollisions
          (if JS.Rltb (THREE.distanceTo (p_position ps) (position a))
                (playerSize + effectiveCollisionRadius a)
           then
             if JS.Rltb (size (userData a)) playerSize
             then mkScan (a :: collisions (scan ps objs playerSize))
                    (largerCollisions (scan ps objs playerSize))
                    (barrierCollisions (scan ps objs playerSize))
             else mkScan (collisions (scan ps objs playerSize))
                    (mkCollision a (THREE.distanceTo (p_position ps) (position a))
                       (effectiveCollisionRadius a) (position a)
                     :: largerCollisions (scan ps objs playerSize))
                    (barrierCollisions (scan ps objs playerSize))
           else scan ps objs playerSize)) <->
          In o (barrierCollisions (scan ps objs playerSize)))
        by (destruct (JS.Rltb _ _); [destruct (JS.Rltb _ _)|]; simpl; tauto).
      rewrite Hr, IH. split.
      * tauto.
      * intros ([->|Hin] & Hb & Hc); [congruence | tauto].
Qed.

End Scan.

(** C10. A body flagged as a barrier never appears in the absorbable list
    the collision scan returns, however small its nominal size is. *)
Theorem barrier_never_absorbable (ps : PlayerSphere) (objs : list Mesh)
    (playerSize : R) (o : Mesh) :
  isBarrier (userData o) = true ->
  ~ In o (fst (Physics.checkCollisions ps objs playerSize)).
Proof.
  intros Hb Hin. unfold Physics.checkCollisions in Hin. cbn [fst] in Hin.
  apply scan_collisions in Hin. destruct Hin as (_ & Hnb & _). congruence.
Qed.

Lemma barrier_never_absorbable_witness :
  isBarrier (userData tinyBarrier) = true
  /\ size (userData tinyBarrier) < 1
  /\ ~ In tinyBarrier
        (fst (Physics.checkCollisions (mkPlayerSphere THREE.zero THREE.zero 1)
                [tinyBarrier] 1)).
Proof.
  split; [reflexivity|]. split; [simpl; lra|].
  exact (barrier_never_absorbable (mkPlayerSphere THREE.zero THREE.zero 1)
           [tinyBarrier] 1 tinyBarrier eq_refl).
Defined.

Section Response.

Lemma length_pos (v : Vector3) :
  THREE.x v <> 0 \/ THREE.z v <> 0 -> 0 < THREE.length v.
Proof.
  intros H. unfold THREE.length. apply sqrt_lt_R0. unfold THREE.lengthSq.
  destruct H as [H|H]; nra.
Qed.

Lemma normalize_components (v : Vector3) :
  0 < THREE.length v ->
  THREE.x (THREE.normalize v) = THREE.x v * / THREE.length v /\
  THREE.z (THREE.normalize v) = THREE.z v * / THREE.length v.
Proof.
  intros H. unfold THREE.normalize, THREE.multiplyScalar, JS.or_default. simpl.
  replace (JS.Reqb (THREE.length v) 0) with false by (symmetry; apply Reqb_false; lra).
  split; f_equal; lra.
Qed.

Lemma normalize_vertical (v : Vector3) :
  THREE.x v = 0 -> THREE.z v = 0 ->
  THREE.x (THREE.normalize v) = 0 /\ THREE.z (THREE.normalize v) = 0.
Proof.
  intros Hx Hz. unfold THREE.normalize, THREE.multiplyScalar. simpl.
  rewrite Hx, Hz. split; lra.
Qed.

Lemma ln_succ_pos (a : R) : 0 < a -> 0 < ln (a + 1).
Proof. intros H. rewrite <- ln_1. apply ln_increasing; lra. Qed.

Lemma sizeFactor_pos (sz r : R) : 0 < sz -> 0 < r -> 0 < Rmin (sz / r) 10.
Proof.
  intros Hs Hr. apply Rmin_glb_lt; [|lra]. now apply Rdiv_lt_0_compat.
Qed.

(** A push of strength [F > 0] along the normalised offset points outward. *)
Lemma push_outward (dx dz len F : R) :
  dx <> 0 \/ dz <> 0 -> 0 < len -> 0 < F ->
  0 < (dx * / len * F) * dx + (dz * / len * F) * dz.
Proof.
  intros Hd Hl HF.
  assert (Hi : 0 < / len) by (now apply Rinv_0_lt_compat).
  assert (Hk : 0 < / len * F) by (now apply Rmult_lt_0_compat).
  replace (dx * / len * F * dx + dz * / len * F * dz)
    with ((dx * dx + dz * dz) * (/ len * F)) by ring.
  apply Rmult_lt_0_compat; [destruct Hd; nra | assumption].
Qed.

Lemma offset_sub (ps : PlayerSphere) (o : Mesh) :
  offsetHorizontally ps o ->
  THREE.x (THREE.subVectors (p_position ps) (position o)) <> 0 \/
  THREE.z (THREE.subVectors (p_position ps) (position o)) <> 0.
Proof. unfold offsetHorizontally. simpl. intros [H|H]; [left|right]; lra. Qed.

(** The response of the current revision to one larger object. *)
Lemma handleLargerObject_pushes (playerRadius : R) (ps : PlayerSphere)
    (c : Physics.Collision) :
  0 < playerRadius + Physics.objectRadius c - Physics.distance c ->
  0 < size (userData (Physics.object c)) -> 0 < playerRadius ->
  Physics.objectPosition c = position (Physics.object c) ->
  offsetHorizontally ps (Physics.object c) ->
  pushedAwayFrom (Physics.object c) ps (Physics.handleLargerObject playerRadius ps c).
Proof.
  intros Hov Hs Hr Hpos Hoff. unfold pushedAwayFrom, Physics.handleLargerObject.
  replace (JS.Rltb 0 (playerRadius + Physics.objectRadius c - Physics.distance c))
    with true by (symmetry; now apply Rltb_true).
  cbn [p_velocity p_position THREE.x THREE.z]. rewrite Hpos.
  pose proof (length_pos _ (offset_sub ps _ Hoff)) as Hlen.
  destruct (normalize_components _ Hlen) as [-> ->].
  cbn [THREE.subVectors THREE.x THREE.z].
  set (F := (playerRadius + Physics.objectRadius c - Physics.distance c) *
            (0.2 + ln (Rmin (size (userData (Physics.object c)) / playerRadius) 10 + 1) * 0.1)).
  assert (HF : 0 < F).
  { unfold F. apply Rmult_lt_0_compat; [assumption|].
    pose proof (ln_succ_pos _ (sizeFactor_pos _ _ Hs Hr)). lra. }
  match goal with |- 0 < (?vx + ?a - ?vx) * ?dx + (?vz + ?b - ?vz) * ?dz =>
    replace ((vx + a - vx) * dx + (vz + b - vz) * dz) with (a * dx + b * dz) by ring
  end.
  apply push_outward; try assumption.
  unfold offsetHorizontally in Hoff. destruct Hoff; [left|right]; lra.
Qed.

(** The response of the earlier revision to one larger object. *)
Lemma handleLargerObjectRev1_pushes (playerRadius : R) (ps : PlayerSphere)
    (c : Physics.Collision) :
  0 < playerRadius + Physics.objectRadius c - Physics.distance c ->
  0 < size (userData (Physics.object c)) -> 0 < playerRadius ->
  Physics.objectPosition c = position (Physics.object c) ->
  offsetHorizontally ps (Physics.object c) ->
  pushedAwayFrom (Physics.object c) ps
    (fst (PhysicsRev1.handleLargerObject playerRadius ps c)).
Proof.
  intros Hov Hs Hr Hpos Hoff. unfold pushedAwayFrom, PhysicsRev1.handleLargerObject.
  replace (JS.Rltb 0 (playerRadius + Physics.objectRadius c - Physics.distance c))
    with true by (symmetry; now apply Rltb_true).
  assert (Hfst : forall (b : bool) (p : PlayerSphere) (m1 m2 : Mesh),
             fst (if b then (p, m1) else (p, m2)) = p) by (now intros []).
  rewrite Hfst.
  cbn [p_velocity p_position THREE.x THREE.z]. rewrite Hpos.
  pose proof (length_pos _ (offset_sub ps _ Hoff)) as Hlen.
  destruct (normalize_components _ Hlen) as [-> ->].
  cbn [THREE.subVectors THREE.x THREE.z].
  set (F := (playerRadius + Physics.objectRadius c - Physics.distance c) *
            (ln (Rmin (size (userData (Physics.object c)) / playerRadius) 10 + 1) * 0.05)).
  assert (HF : 0 < F).
  { unfold F. apply Rmult_lt_0_compat; [assumption|].
    pose proof (ln_succ_pos _ (sizeFactor_pos _ _ Hs Hr)). lra. }
  match goal with |- 0 < (?vx + ?a - ?vx) * ?dx + (?vz + ?b - ?vz) * ?dz =>
    replace ((vx + a - vx) * dx + (vz + b - vz) * dz) with (a * dx + b * dz) by ring
  end.
  apply push_outward; try assumption.
  unfold offsetHorizontally in Hoff. destruct Hoff; [left|right]; lra.
Qed.

End Response.

Section ScanRev1.

Import PhysicsRev1.

Variable ps : PlayerSphere.
Variable playerSize : R.

Lemma scanRev1_collisions (objs : list Mesh) (o : Mesh) :
  In o (fst (scan ps objs playerSize)) <->
  In o objs /\ overlapsRev1 ps playerSize o /\ size (userData o) < playerSize.
Proof.
  unfold overlapsRev1. induction objs as [|a objs IH]; simpl.
  - tauto.
  - destruct (scan ps objs playerSize) as [cs ls]. cbn [fst] in IH.
    destruct (JS.Rltb (THREE.distanceTo (p_position ps) (position a))
                (playerSize + objectRadiusOf a)) eqn:Ed.
    + apply Rltb_true in Ed.
      destruct (JS.Rltb (size (userData a)) playerSize) eqn:Es; simpl.
      * apply Rltb_true in Es. rewrite IH. split.
        -- intros [->|H]; tauto.
        -- tauto.
      * apply Rltb_false in Es. rewrite IH. split.
        -- tauto.
        -- intros ([->|Hin] & Hd & Hs); [lra | tauto].
    + apply Rltb_false in Ed. simpl. rewrite IH. split.
      * tauto.
      * intros ([->|Hin] & Hd & Hs); [lra | tauto].
Qed.

Lemma scanRev1_larger (objs : list Mesh) (o : Mesh) :
  In o (map Physics.object (snd (scan ps objs playerSize))) <->
  In o objs /\ overlapsRev1 ps playerSize o /\ playerSize <= size (userData o).
Proof.
  unfold overlapsRev1. induction objs as [|a objs IH]; simpl.
  - tauto.
  - destruct (scan ps objs playerSize) as [cs ls]. cbn [snd] in IH.
    destruct (JS.Rltb (THREE.distanceTo (p_position ps) (position a))
                (playerSize + objectRadiusOf a)) eqn:Ed.
    + apply Rltb_true in Ed.
      destruct (JS.Rltb (size (userData a)) playerSize) eqn:Es; simpl.
      * apply Rltb_true in Es. rewrite IH. split.
        -- tauto.
        -- intros ([->|Hin] & Hd & Hs); [lra | tauto].
      * apply Rltb_false in Es. rewrite IH. split.
        -- intros [->|H]; tauto.
        -- tauto.
    + apply Rltb_false in Ed. simpl. rewrite IH. split.
      * tauto.
      * intros ([->|Hin] & Hd & Hs); [lra | tauto].
Qed.

End ScanRev1.

Section Scenario.

Variable ps : PlayerSphere.

Lemma scan_scenario :
  overlaps ps 0.5 scenarioCube ->
  Physics.scan ps [scenarioCube] 0.5 =
  Physics.mkScan []
    [Physics.mkCollision scenarioCube
       (THREE.distanceTo (p_position ps) (position scenarioCube))
       (Physics.effectiveCollisionRadius scenarioCube) (position scenarioCube)] [].
Proof.
  unfold overlaps. intros Hov. cbn [Physics.scan].
  replace (isBarrier (userData scenarioCube)) with false by reflexivity.
  replace (JS.Rltb _ (0.5 + Physics.effectiveCollisionRadius scenarioCube))
    with true by (symmetry; now apply Rltb_true).
  replace (JS.Rltb (size (userData scenarioCube)) 0.5) with false
    by (symmetry; apply Rltb_false; simpl; lra).
  reflexivity.
Qed.

Lemma scanRev1_scenario :
  overlapsRev1 ps 0.5 scenarioCube ->
  PhysicsRev1.scan ps [scenarioCube] 0.5 =
  ([], [Physics.mkCollision scenarioCube
          (THREE.distanceTo (p_position ps) (position scenarioCube))
          (PhysicsRev1.objectRadiusOf scenarioCube) (position scenarioCube)]).
Proof.
  unfold overlapsRev1. intros Hov. cbn [PhysicsRev1.scan].
  replace (JS.Rltb _ (0.5 + PhysicsRev1.objectRadiusOf scenarioCube))
    with true by (symmetry; now apply Rltb_true).
  replace (JS.Rltb (size (userData scenarioCube)) 0.5) with false
    by (symmetry; apply Rltb_false; simpl; lra).
  reflexivity.
Qed.

Lemma pushedAway_changes (o : Mesh) (ps' : PlayerSphere) :
  pushedAwayFrom o ps ps' -> p_velocity ps' <> p_velocity ps.
Proof. unfold pushedAwayFrom. intros H Heq. rewrite Heq in H. lra. Qed.

End Scenario.

(** C2, as the code has it. For a non-barrier body whose centre is closer to
    the player's than playerRadius plus the body's collision radius, the scan
    puts the body in the absorbable list exactly when its nominal size is
    below the player's radius and in the blocking list exactly when it is
    not; no body is in two of the lists.  The same holds for the earlier
    revision of the scan, which has no barriers.  For the cube of nominal
    size 2 (collision radius 1) and a player of radius 0.5 overlapping it,
    the cube is blocking and not absorbable, and whenever the player's centre
    is not straight above or below the cube's the player's horizontal
    velocity changes by a nonzero amount pointing away from the cube. *)
Theorem collision_classification (ps : PlayerSphere) (objs : list Mesh)
    (playerSize : R) (o : Mesh) :
  let r := Physics.scan ps objs playerSize in
  let r1 := PhysicsRev1.scan ps objs playerSize in
  (In o objs -> isBarrier (userData o) = false -> overlaps ps playerSize o ->
     (In o (Physics.collisions r) <-> size (userData o) < playerSize)
     /\ (In o (map Physics.object (Physics.largerCollisions r)) <->
         playerSize <= size (userData o)))
  /\ ~ (In o (Physics.collisions r) /\
        In o (map Physics.object (Physics.largerCollisions r)))
  /\ ~ (In o (Physics.collisions r) /\ In o (Physics.barrierCollisions r))
  /\ ~ (In o (map Physics.object (Physics.largerCollisions r)) /\
        In o (Physics.barrierCollisions r))
  /\ (In o objs -> overlapsRev1 ps playerSize o ->
        (In o (fst r1) <-> size (userData o) < playerSize)
        /\ (In o (map Physics.object (snd r1)) <-> playerSize <= size (userData o)))
  /\ ~ (In o (fst r1) /\ In o (map Physics.object (snd r1)))
  /\ (overlaps ps 0.5 scenarioCube ->
        In scenarioCube
          (map Physics.object
             (Physics.largerCollisions (Physics.scan ps [scenarioCube] 0.5)))
        /\ fst (Physics.checkCollisions ps [scenarioCube] 0.5) = []
        /\ (offsetHorizontally ps scenarioCube ->
              pushedAwayFrom scenarioCube ps
                (snd (Physics.checkCollisions ps [scenarioCube] 0.5))
              /\ p_velocity (snd (Physics.checkCollisions ps [scenarioCube] 0.5))
                 <> p_velocity ps))
  /\ (overlapsRev1 ps 0.5 scenarioCube ->
        In scenarioCube (map Physics.object (snd (PhysicsRev1.scan ps [scenarioCube] 0.5)))
        /\ fst (fst (PhysicsRev1.checkCollisions ps [scenarioCube] 0.5)) = []
        /\ (offsetHorizontally ps scenarioCube ->
              pushedAwayFrom scenarioCube ps
                (snd (fst (PhysicsRev1.checkCollisions ps [scenarioCube] 0.5)))
              /\ p_velocity (snd (fst (PhysicsRev1.checkCollisions ps [scenarioCube] 0.5)))
                 <> p_velocity ps)).
Proof.
  intros r r1. subst r r1.
  split; [|split; [|split; [|split; [|split; [|split; [|split]]]]]].
  - intros Hin Hnb Hov. rewrite scan_collisions, scan_larger. split; tauto.
  - rewrite scan_collisions, scan_larger. intros [(_ & _ & _ & H1) (_ & _ & _ & H2)]. lra.
  - rewrite scan_collisions, scan_barriers. intros [(_ & H1 & _) (_ & H2 & _)]. congruence.
  - rewrite scan_larger, scan_barriers. intros [(_ & H1 & _) (_ & H2 & _)]. congruence.
  - intros Hin Hov. rewrite scanRev1_collisions, scanRev1_larger. split; tauto.
  - rewrite scanRev1_collisions, scanRev1_larger. intros [(_ & _ & H1) (_ & _ & H2)]. lra.
  - intros Hov.
    assert (Hcc : Physics.checkCollisions ps [scenarioCube] 0.5 =
              ([], Physics.handleLargerObject 0.5 ps
                     (Physics.mkCollision scenarioCube
                        (THREE.distanceTo (p_position ps) (position scenarioCube))
                        (Physics.effectiveCollisionRadius scenarioCube)
                        (position scenarioCube)))).
    { unfold Physics.checkCollisions. rewrite (scan_scenario ps Hov). reflexivity. }
    split; [|split].
    + rewrite (scan_scenario ps Hov). simpl. now left.
    + now rewrite Hcc.
    + intros Hoff. rewrite Hcc. cbn [snd].
      assert (Hp : pushedAwayFrom scenarioCube ps
                (Physics.handleLargerObject 0.5 ps
                   (Physics.mkCollision scenarioCube
                      (THREE.distanceTo (p_position ps) (position scenarioCube))
                      (Physics.effectiveCollisionRadius scenarioCube)
                      (position scenarioCube)))).
      { apply (handleLargerObject_pushes 0.5 ps
                 (Physics.mkCollision scenarioCube _ _ _));
          cbn [Physics.object Physics.objectRadius Physics.distance Physics.objectPosition];
          try reflexivity; try assumption; try (simpl; lra).
        unfold overlaps in Hov. lra. }
      split; [exact Hp | exact (pushedAway_changes ps _ _ Hp)].
  - intros Hov.
    assert (Hcc : fst (PhysicsRev1.checkCollisions ps [scenarioCube] 0.5) =
              ([], fst (PhysicsRev1.handleLargerObject 0.5 ps
                     (Physics.mkCollision scenarioCube
                        (THREE.distanceTo (p_position ps) (position scenarioCube))
                        (PhysicsRev1.objectRadiusOf scenarioCube)
                        (position scenarioCube))))).
    { unfold PhysicsRev1.checkCollisions. rewrite (scanRev1_scenario ps Hov).
      cbn [PhysicsRev1.handleLargerObjectCollisions].
      destruct (PhysicsRev1.handleLargerObject _ _ _). reflexivity. }
    split; [|split].
    + rewrite (scanRev1_scenario ps Hov). simpl. now left.
    + now rewrite Hcc.
    + intros Hoff. rewrite Hcc. cbn [snd].
      assert (Hp : pushedAwayFrom scenarioCube ps
                (fst (PhysicsRev1.handleLargerObject 0.5 ps
                   (Physics.mkCollision scenarioCube
                      (THREE.distanceTo (p_position ps) (position scenarioCube))
                      (PhysicsRev1.objectRadiusOf scenarioCube)
                      (position scenarioCube))))).
      { apply (handleLargerObjectRev1_pushes 0.5 ps
                 (Physics.mkCollision scenarioCube _ _ _));
          cbn [Physics.object Physics.objectRadius Physics.distance Physics.objectPosition];
          try reflexivity; try assumption; try (simpl; lra).
        unfold overlapsRev1 in Hov. lra. }
      split; [exact Hp | exact (pushedAway_changes ps _ _ Hp)].
Qed.

Lemma distance_beside : THREE.distanceTo (mkVector3 0.9 0 0) THREE.zero = 0.9.
Proof.
  unfold THREE.distanceTo, THREE.length, THREE.lengthSq. simpl.
  replace ((0.9 - 0) * (0.9 - 0) + (0 - 0) * (0 - 0) + (0 - 0) * (0 - 0))
    with (0.9 * 0.9) by lra.
  apply sqrt_square. lra.
Qed.

Lemma distance_above : THREE.distanceTo (mkVector3 0 0.9 0) THREE.zero = 0.9.
Proof.
  unfold THREE.distanceTo, THREE.length, THREE.lengthSq. simpl.
  replace ((0 - 0) * (0 - 0) + (0.9 - 0) * (0.9 - 0) + (0 - 0) * (0 - 0))
    with (0.9 * 0.9) by lra.
  apply sqrt_square. lra.
Qed.

Lemma scenario_radius : Physics.effectiveCollisionRadius scenarioCube = 1.
Proof.
  unfold Physics.effectiveCollisionRadius, JS.or_default. simpl.
  now replace (JS.Reqb 1 0) with false by (symmetry; apply Reqb_false; lra).
Qed.

(** With the player straight above or below the object and no horizontal
    velocity, the response to a larger object leaves the velocity alone. *)
Lemma handleLargerObject_vertical (playerRadius : R) (ps : PlayerSphere)
    (c : Physics.Collision) :
  THREE.x (p_position ps) = THREE.x (Physics.objectPosition c) ->
  THREE.z (p_position ps) = THREE.z (Physics.objectPosition c) ->
  THREE.x (p_velocity ps) = 0 -> THREE.z (p_velocity ps) = 0 ->
  p_velocity (Physics.handleLargerObject playerRadius ps c) = p_velocity ps.
Proof.
  intros Hx Hz Hvx Hvz. unfold Physics.handleLargerObject.
  destruct (JS.Rltb 0 _); [|reflexivity].
  destruct (normalize_vertical
              (THREE.subVectors (p_position ps) (Physics.objectPosition c)))
    as [Hnx Hnz]; [simpl; lra | simpl; lra |].
  cbn [p_velocity]. rewrite Hnx, Hnz, Hvx, Hvz.
  set (F := _ * (0.2 + _)).
  assert (Hspeed : THREE.length (mkVector3 (0 + 0 * F) 0 (0 + 0 * F)) = 0).
  { unfold THREE.length, THREE.lengthSq. cbn [THREE.x THREE.y THREE.z].
    match goal with |- sqrt ?a = 0 => replace a with 0 by ring end.
    apply sqrt_0. }
  rewrite Hspeed.
  replace (JS.Rltb 5 0) with false by (symmetry; apply Rltb_false; lra).
  cbn [andb]. destruct (p_velocity ps) as [vx vy vz]. simpl in *. subst.
  f_equal; lra.
Qed.

Lemma collision_classification_witness :
  overlaps (playerAt (mkVector3 0.9 0 0)) 0.5 scenarioCube
  /\ offsetHorizontally (playerAt (mkVector3 0.9 0 0)) scenarioCube
  /\ In scenarioCube
       (map Physics.object
          (Physics.largerCollisions
             (Physics.scan (playerAt (mkVector3 0.9 0 0)) [scenarioCube] 0.5)))
  /\ p_velocity
       (snd (Physics.checkCollisions (playerAt (mkVector3 0.9 0 0)) [scenarioCube] 0.5))
     <> p_velocity (playerAt (mkVector3 0.9 0 0)).
Proof.
  assert (H1 : overlaps (playerAt (mkVector3 0.9 0 0)) 0.5 scenarioCube).
  { unfold overlaps. rewrite scenario_radius.
    cbn [playerAt p_position scenarioCube position].
    rewrite distance_beside. lra. }
  assert (H2 : offsetHorizontally (playerAt (mkVector3 0.9 0 0)) scenarioCube)
    by (left; simpl; lra).
  pose proof (collision_classification (playerAt (mkVector3 0.9 0 0)) [scenarioCube]
                0.5 scenarioCube) as H.
  cbv zeta in H.
  destruct H as (_ & _ & _ & _ & _ & _ & Hsc & _).
  destruct (Hsc H1) as (Hin & _ & Hpush).
  split; [exact H1|]. split; [exact H2|]. split; [exact Hin|].
  exact (proj2 (Hpush H2)).
Defined.

(** C2 as stated fails: a player of radius 0.5 at rest straight above the
    cube of nominal size 2 overlaps it and the cube is blocking, yet the
    player's velocity is left as it was. *)
Lemma no_push_straight_above :
  overlaps (playerAt (mkVector3 0 0.9 0)) 0.5 scenarioCube
  /\ In scenarioCube
       (map Physics.object
          (Physics.largerCollisions
             (Physics.scan (playerAt (mkVector3 0 0.9 0)) [scenarioCube] 0.5)))
  /\ p_velocity
       (snd (Physics.checkCollisions (playerAt (mkVector3 0 0.9 0)) [scenarioCube] 0.5))
     = p_velocity (playerAt (mkVector3 0 0.9 0)).
Proof.
  assert (H1 : overlaps (playerAt (mkVector3 0 0.9 0)) 0.5 scenarioCube).
  { unfold overlaps. rewrite scenario_radius.
    cbn [playerAt p_position scenarioCube position].
    rewrite distance_above. lra. }
  split; [exact H1|]. rewrite (scan_scenario _ H1). split; [simpl; now left|].
  unfold Physics.checkCollisions. rewrite (scan_scenario _ H1).
  cbn [Physics.largerCollisions Physics.barrierCollisions snd
       Physics.handleLargerObjectCollisions fold_left].
  apply handleLargerObject_vertical; reflexivity.
Qed.

(** ** Placement *)

Section Placement.

Import ObjectManager.

Variable config : GameConfig.
Variable random : nat -> R.

Lemma hasOverlap_false (effectiveRadius : R) (pos : Vector3) (objs : list Mesh) :
  hasOverlap effectiveRadius (THREE.x pos) (THREE.z pos) objs = false <->
  forall o, In o objs ->
    effectiveRadius + effectiveRadiusOf (type (userData o)) (size (userData o)) + 0.5
    <= horizontalDistance pos (position o).
Proof.
  unfold horizontalDistance. induction objs as [|a objs IH]; simpl.
  - split; [intros _ o [] | reflexivity].
  - destruct (JS.Rltb _ _) eqn:E.
    + apply Rltb_true in E. split; [discriminate|].
      intros H. specialize (H a (or_introl eq_refl)). lra.
    + apply Rltb_false in E. rewrite IH. split.
      * intros H o [<-|Hin]; [exact E | now apply H].
      * intros H o Hin. apply H. now right.
Qed.

Lemma accepts_true (s : State) (effectiveRadius playerSize : R) (pos : Vector3) :
  accepts s effectiveRadius playerSize pos = true <->
  clearOfPlayer s effectiveRadius playerSize pos /\ clearOfBodies s effectiveRadius pos.
Proof.
  unfold accepts, clearOfPlayer, clearOfBodies.
  rewrite andb_true_iff, !negb_true_iff, hasOverlap_false.
  apply and_iff_compat_r. unfold horizontalDistance.
  destruct (scene_playerSphere s) as [pp|].
  - rewrite Rltb_false. split.
    + intros H q Hq. injection Hq as <-. exact H.
    + intros H. now apply H.
  - split; [intros _ q Hq; discriminate | reflexivity].
Qed.


Lemma accepts_advance (s : State) (d : nat) (effectiveRadius playerSize : R)
    (pos : Vector3) :
  accepts (advance s d) effectiveRadius playerSize pos =
  accepts s effectiveRadius playerSize pos.
Proof. reflexivity. Qed.

Lemma findAttempts_S (n : nat) (maxCoord effectiveRadius playerSize : R) (s : State) :
  findAttempts random (S n) maxCoord effectiveRadius playerSize s =
  let pos := candidate random maxCoord (randomCalls s) 0 in
  if accepts s effectiveRadius playerSize pos then (Some pos, advance s 2)
  else findAttempts random n maxCoord effectiveRadius playerSize (advance s 2).
Proof.
  cbn [findAttempts]. unfold bind, Math_random. cbn [randomCalls objects scene_playerSphere nextUuid].
  unfold accepts, candidate, advance.
  replace (randomCalls s + 2 * 0)%nat with (randomCalls s) by lia.
  replace (randomCalls s + 1)%nat with (S (randomCalls s)) by lia.
  replace (randomCalls s + 2)%nat with (S (S (randomCalls s))) by lia.
  cbv zeta. cbn [THREE.x THREE.z].
  destruct (scene_playerSphere s) as [pp|].
  - destruct (JS.Rltb _ _); cbn [negb andb]; [reflexivity|].
    destruct (hasOverlap _ _ _ _); reflexivity.
  - cbn [negb andb]. destruct (hasOverlap _ _ _ _); reflexivity.
Qed.

Lemma candidate_shift (maxCoord : R) (c k : nat) :
  candidate random maxCoord (c + 2) k = candidate random maxCoord c (S k).
Proof.
  unfold candidate.
  replace (c + 2 + 2 * k)%nat with (c + 2 * S k)%nat by lia.
  reflexivity.
Qed.

Lemma advance_advance (s : State) (a b : nat) :
  advance (advance s a) b = advance s (a + b).
Proof. unfold advance. simpl. f_equal. lia. Qed.

(** Bounded rejection sampling: the result is the first accepted candidate
    among the first [n], or nothing when all [n] are rejected. *)
Lemma findAttempts_spec (maxCoord effectiveRadius playerSize : R) (n : nat) :
  forall s : State,
  match findAttempts random n maxCoord effectiveRadius playerSize s with
  | (Some pos, s') =>
      exists k, (k < n)%nat
        /\ pos = candidate random maxCoord (randomCalls s) k
        /\ accepts s effectiveRadius playerSize pos = true
        /\ (forall j, (j < k)%nat ->
              accepts s effectiveRadius playerSize
                (candidate random maxCoord (randomCalls s) j) = false)
        /\ s' = advance s (2 * (k + 1))
  | (None, s') =>
      (forall k, (k < n)%nat ->
         accepts s effectiveRadius playerSize
           (candidate random maxCoord (randomCalls s) k) = false)
      /\ s' = advance s (2 * n)
  end.
Proof.
  induction n as [|n IH]; intros s.
  - simpl. split; [intros k Hk; lia|].
    unfold advance. destruct s; simpl. f_equal. lia.
  - rewrite findAttempts_S. cbv zeta.
    destruct (accepts s effectiveRadius playerSize
                (candidate random maxCoord (randomCalls s) 0)) eqn:E.
    + exists 0%nat. repeat split; try lia; assumption.
    + specialize (IH (advance s 2)).
      destruct (findAttempts random n maxCoord effectiveRadius playerSize (advance s 2))
        as [[pos|] s'].
      * destruct IH as (k & Hk & Hpos & Hacc & Hrej & Hs').
        cbn [advance randomCalls] in Hpos, Hrej.
        exists (S k). split; [lia|]. split; [now rewrite <- candidate_shift|].
        split; [now rewrite accepts_advance in Hacc|]. split.
        -- intros [|j] Hj; [exact E|].
           rewrite <- candidate_shift. rewrite <- (accepts_advance s 2).
           apply Hrej. lia.
        -- rewrite Hs', advance_advance. f_equal. lia.
      * destruct IH as (Hrej & Hs'). cbn [advance randomCalls] in Hrej. split.
        -- intros [|k] Hk; [exact E|].
           rewrite <- candidate_shift. rewrite <- (accepts_advance s 2).
           apply Hrej. lia.
        -- rewrite Hs', advance_advance. f_equal. lia.
Qed.



End Placement.


Lemma sqrt_lower (a b : R) : 0 <= a -> a * a <= b -> a <= sqrt b.
Proof.
  intros Ha Hab. rewrite <- (sqrt_square a Ha). now apply sqrt_le_1_alt.
Qed.






(** ** Barriers *)

Lemma worldClosestPoint_box (p : Vector3) (barrier : Mesh) (width height depth : R) :
  geometry barrier = THREE.BoxGeometry width height depth ->
  Physics.worldClosestPoint p barrier = Some (closestBoxPoint barrier width height depth p).
Proof. intros Hg. unfold Physics.worldClosestPoint. rewrite Hg. reflexivity. Qed.


Lemma sample_closest :
  closestBoxPoint tinyBarrier 2 2 2 (mkVector3 1.5 0 0) = mkVector3 1 0 0.
Proof.
  unfold closestBoxPoint, clampToBox. simpl. f_equal.
  - rewrite Rmin_left by lra. rewrite Rmax_right by lra. lra.
  - rewrite Rmin_right by lra. rewrite Rmax_right by lra. reflexivity.
  - rewrite Rmin_right by lra. rewrite Rmax_right by lra. reflexivity.
Qed.

Lemma sample_gap : THREE.distanceTo (mkVector3 1.5 0 0) (mkVector3 1 0 0) = 0.5.
Proof.
  unfold THREE.distanceTo, THREE.length, THREE.lengthSq. simpl.
  replace ((1.5 - 1) * (1.5 - 1) + (0 - 0) * (0 - 0) + (0 - 0) * (0 - 0))
    with (0.5 * 0.5) by lra.
  apply sqrt_square. lra.
Qed.






(** ** Camera *)

Section Camera.

Import CameraController.

Variable config : GameConfig.

Lemma updateCameraForSize_fields (c : State) (r : R) :
  0 < r ->
  distance (updateCameraForSize config c r) = framingDistance config (fov c) r
  /\ height (updateCameraForSize config c r) = framingDistance config (fov c) r * 0.5
  /\ fov (updateCameraForSize config c r) = clampedFOV r
  /\ rotationAngle (updateCameraForSize config c r) = rotationAngle c.
Proof.
  intros Hr. unfold updateCameraForSize, updateCameraPosition.
  cbn [JS.isNaN orb].
  replace (JS.Rleb r 0) with false by (symmetry; now apply Rleb_false).
  cbn [distance height fov rotationAngle]. repeat split.
Qed.

Lemma or_default_pos (a d : R) : 0 <= a -> 0 < d -> 0 < JS.or_default a d.
Proof.
  intros Ha Hd. unfold JS.or_default. destruct (JS.Reqb a 0) eqn:E; [assumption|].
  apply Reqb_false in E. lra.
Qed.

Lemma half_angle_tan_pos (f : R) : 0 < f < 180 -> 0 < tan (f * PI / 180 / 2).
Proof.
  intros [H0 H1]. pose proof PI_RGT_0 as Hpi. apply tan_gt_0; nra.
Qed.

Lemma framingDistance_mono (f r1 r2 : R) :
  0 <= MAX_SCREEN_PERCENTAGE config -> 0 <= CAMERA_ZOOM_RATE config ->
  0 < f < 180 -> r1 <= r2 ->
  framingDistance config f r1 <= framingDistance config f r2.
Proof.
  intros HP HZ Hf Hr. unfold framingDistance.
  pose proof (or_default_pos _ 30 HP ltac:(lra)) as HP'.
  pose proof (or_default_pos _ 1.5 HZ ltac:(lra)) as HZ'.
  pose proof (half_angle_tan_pos f Hf) as Ht.
  assert (Hs : 0 < Rmax 1 (PLAYABLE_AREA config / 400)).
  { eapply Rlt_le_trans; [|apply Rmax_l]. lra. }
  apply Rmult_le_compat_r; [lra|]. apply Rmult_le_compat_r; [lra|].
  unfold Rdiv. apply Rmult_le_compat_r; [left; now apply Rinv_0_lt_compat|].
  apply Rmult_le_compat_r; [|exact Hr].
  left. apply Rinv_0_lt_compat. apply Rmult_lt_0_compat; [assumption|].
  apply Rinv_0_lt_compat. lra.
Qed.

End Camera.

(** C8, as the code has it. For a positive radius the camera distance is
    radius / targetScreenFraction / tan(fov/2), times the zoom rate and the
    arena scale, where fov is the field of view the camera has when the
    framing step starts; the field of view is recomputed after the distance,
    as clamp(75 - 5 + 0.2 radius, 60, 100), and is the one the next framing
    step divides by.  For a fixed field of view between 0 and 180 degrees and
    non-negative configured zoom rate and screen percentage the distance is
    a non-decreasing function of the radius. *)
Theorem camera_framing (config : GameConfig) (c : CameraController.State) (r : R) :
  0 < r ->
  CameraController.distance (CameraController.updateCameraForSize config c r) =
    framingDistance config (CameraController.fov c) r
  /\ CameraController.fov (CameraController.updateCameraForSize config c r) =
     clampedFOV r
  /\ (forall r', 0 < r' ->
        CameraController.distance
          (CameraController.updateCameraForSize config
             (CameraController.updateCameraForSize config c r) r') =
        framingDistance config (clampedFOV r) r')
  /\ (forall r', r <= r' ->
        0 <= MAX_SCREEN_PERCENTAGE config -> 0 <= CAMERA_ZOOM_RATE config ->
        0 < CameraController.fov c < 180 ->
        CameraController.distance (CameraController.updateCameraForSize config c r) <=
        CameraController.distance (CameraController.updateCameraForSize config c r')).
Proof.
  intros Hr.
  destruct (updateCameraForSize_fields config c r Hr) as (Hd & _ & Hf & _).
  split; [exact Hd|]. split; [exact Hf|]. split.
  - intros r' Hr'.
    destruct (updateCameraForSize_fields config
                (CameraController.updateCameraForSize config c r) r' Hr') as (Hd' & _).
    now rewrite Hd', Hf.
  - intros r' Hle HP HZ Hfov.
    destruct (updateCameraForSize_fields config c r' ltac:(lra)) as (Hd' & _).
    rewrite Hd, Hd'. now apply framingDistance_mono.
Qed.

Lemma camera_framing_witness :
  0 < 1
  /\ CameraController.distance
       (CameraController.updateCameraForSize GAME_CONFIG freshCamera 1) =
     framingDistance GAME_CONFIG 75 1
  /\ CameraController.distance
       (CameraController.updateCameraForSize GAME_CONFIG freshCamera 1) <=
     CameraController.distance
       (CameraController.updateCameraForSize GAME_CONFIG freshCamera 2).
Proof.
  assert (H1 : 0 < 1) by lra.
  pose proof (camera_framing GAME_CONFIG freshCamera 1 H1) as (Hd & _ & _ & Hmono).
  split; [exact H1|]. split; [exact Hd|].
  apply Hmono; simpl; lra.
Defined.

Lemma tan_half_75 : 0 < tan (75 * PI / 180 / 2) < 1.
Proof.
  pose proof PI_RGT_0 as Hpi. split.
  - apply tan_gt_0; lra.
  - rewrite <- tan_PI4. apply tan_increasing; lra.
Qed.

(** C8 as stated fails: for a camera at 75 degrees and a player of radius
    100 the distance the code computes is not the one obtained by
    recomputing the field of view (90 degrees) first. *)
Lemma distance_uses_previous_fov :
  clampedFOV 100 = 90
  /\ fovFirstDistance GAME_CONFIG 100 = 500
  /\ 500 < CameraController.distance
             (CameraController.updateCameraForSize GAME_CONFIG freshCamera 100)
  /\ CameraController.distance
       (CameraController.updateCameraForSize GAME_CONFIG freshCamera 100)
     <> fovFirstDistance GAME_CONFIG 100.
Proof.
  assert (Hfov : clampedFOV 100 = 90).
  { unfold clampedFOV. rewrite Rmin_right by lra. rewrite Rmax_right by lra. lra. }
  assert (Hp : JS.or_default 30 30 = 30).
  { unfold JS.or_default.
    now replace (JS.Reqb 30 0) with false by (symmetry; apply Reqb_false; lra). }
  assert (Hz : JS.or_default 1.5 1.5 = 1.5).
  { unfold JS.or_default.
    now replace (JS.Reqb 1.5 0) with false by (symmetry; apply Reqb_false; lra). }
  assert (Hs : Rmax 1 (400 / 400) = 1) by (apply Rmax_left; lra).
  assert (Hspec : fovFirstDistance GAME_CONFIG 100 = 500).
  { unfold fovFirstDistance, framingDistance. rewrite Hfov. simpl.
    rewrite Hp, Hz, Hs.
    replace (90 * PI / 180 / 2) with (PI / 4) by lra.
    rewrite tan_PI4. lra. }
  assert (Hcode : 500 < CameraController.distance
             (CameraController.updateCameraForSize GAME_CONFIG freshCamera 100)).
  { destruct (updateCameraForSize_fields GAME_CONFIG freshCamera 100 ltac:(lra))
      as (-> & _).
    unfold framingDistance. simpl. rewrite Hp, Hz, Hs.
    destruct tan_half_75 as [Ht0 Ht1].
    assert (Hinv : 1 < / tan (75 * PI / 180 / 2)).
    { rewrite <- Rinv_1. apply Rinv_lt_contravar; lra. }
    unfold Rdiv. nra. }
  split; [exact Hfov|]. split; [exact Hspec|]. split; [exact Hcode|].
  rewrite Hspec. lra.
Qed.

(** * Further properties of the code *)

(** ** helpers.js *)

Section HelperFacts.

Lemma Int_part_range (a : R) (n : Z) : 0 <= a < IZR n -> (0 <= Int_part a < n)%Z.
Proof.
  intros [H0 H1]. destruct (base_Int_part a) as [Hle Hgt]. split.
  - assert (H : (-1 < Int_part a)%Z) by (apply lt_IZR; lra). lia.
  - apply lt_IZR. lra.
Qed.

Lemma Math_ceil_upper (a : R) : a <= IZR (Helpers.Math_ceil a).
Proof.
  unfold Helpers.Math_ceil. rewrite opp_IZR.
  destruct (base_Int_part (- a)) as [Hle _]. lra.
Qed.

Lemma Math_floor_lower (a : R) : IZR (JS.Math_floor a) <= a.
Proof. unfold JS.Math_floor. apply base_Int_part. Qed.

Lemma index_in_range {A} (arr : list A) (i : Z) :
  (0 <= i < Z.of_nat (List.length arr))%Z ->
  exists a, ObjectManager.index arr i = Some a /\ In a arr.
Proof.
  intros [H0 H1]. unfold ObjectManager.index.
  replace (i <? 0)%Z with false by (symmetry; apply Z.ltb_ge; lia).
  destruct (nth_error arr (Z.to_nat i)) as [a|] eqn:E.
  - exists a. split; [reflexivity|]. eapply nth_error_In; eassumption.
  - apply nth_error_None in E. lia.
Qed.

Lemma pick_in_range (u : R) (n : nat) :
  0 <= u < 1 -> (0 < n)%nat ->
  (0 <= JS.Math_floor (u * INR n) < Z.of_nat n)%Z.
Proof.
  intros Hu Hn. unfold JS.Math_floor. apply Int_part_range.
  rewrite <- INR_IZR_INZ. assert (0 < INR n) by (now apply lt_0_INR). nra.
Qed.

Lemma calculateSphereVolume_Num (r : R) :
  calculateSphereVolume (Num r) = Num (sphereVolume r).
Proof. unfold calculateSphereVolume. rewrite Math_pow_3. reflexivity. Qed.

End HelperFacts.

(** X1. [randomInRange(min, max)] with [min <= max] lies between [min] and
    [max]; [max] itself is never returned when [min < max]. *)
Theorem randomInRange_range (min max u : R) :
  min <= max -> 0 <= u < 1 ->
  min <= randomInRange min max u <= max
  /\ (min < max -> randomInRange min max u < max).
Proof. unfold randomInRange. intros Hm Hu. split; [split|intros]; nra. Qed.

Lemma randomInRange_range_witness :
  0.5 <= 10 /\ 0 <= 1 / 2 < 1 /\ randomInRange 0.5 10 (1 / 2) < 10.
Proof.
  assert (H1 : 0.5 <= 10) by lra.
  assert (H2 : 0 <= 1 / 2 < 1) by lra.
  split; [exact H1|]. split; [exact H2|].
  apply (proj2 (randomInRange_range 0.5 10 (1 / 2) H1 H2)). lra.
Defined.

(** X2. [randomIntInRange(min, max)] returns an integer between the ceiling
    of [min] and the floor of [max], both included, hence between [min] and
    [max], whenever there is an integer in that range. *)
Theorem randomIntInRange_range (min max u : R) :
  (Helpers.Math_ceil min <= JS.Math_floor max)%Z -> 0 <= u < 1 ->
  (Helpers.Math_ceil min <= Helpers.randomIntInRange min max u <= JS.Math_floor max)%Z
  /\ min <= IZR (Helpers.randomIntInRange min max u) <= max.
Proof.
  intros Hrange Hu.
  assert (Hz : (Helpers.Math_ceil min <= Helpers.randomIntInRange min max u
                <= JS.Math_floor max)%Z).
  { unfold Helpers.randomIntInRange. cbv zeta.
    set (lo := Helpers.Math_ceil min) in *. set (hi := JS.Math_floor max) in *.
    assert (Hn : 0 <= u * IZR (hi - lo + 1) < IZR (hi - lo + 1)).
    { assert (1 <= IZR (hi - lo + 1)) by (apply IZR_le; lia). nra. }
    pose proof (Int_part_range _ _ Hn) as Hf.
    change (JS.Math_floor (u * IZR (hi - lo + 1)))
      with (Int_part (u * IZR (hi - lo + 1))). lia. }
  split; [exact Hz|]. destruct Hz as [Hlo Hhi].
  apply IZR_le in Hlo, Hhi.
  pose proof (Math_ceil_upper min). pose proof (Math_floor_lower max). lra.
Qed.

Lemma randomIntInRange_range_witness :
  (Helpers.Math_ceil 1 <= JS.Math_floor 6)%Z /\ 0 <= 1 / 2 < 1
  /\ 1 <= IZR (Helpers.randomIntInRange 1 6 (1 / 2)) <= 6.
Proof.
  assert (H1 : (Helpers.Math_ceil 1 <= JS.Math_floor 6)%Z).
  { unfold Helpers.Math_ceil, JS.Math_floor.
    replace (- (1)) with (IZR (-1)) by lra. rewrite !Int_part_IZR. lia. }
  assert (H2 : 0 <= 1 / 2 < 1) by lra.
  split; [exact H1|]. split; [exact H2|].
  exact (proj2 (randomIntInRange_range 1 6 (1 / 2) H1 H2)).
Defined.

(** X3. [calculateNewRadius] inverts [calculateSphereVolume]: the sphere of
    the new radius has the current volume plus the added volume when that
    sum is positive, and adding nothing to a positive radius returns it.  A
    sum of zero gives radius 0 and a negative sum gives NaN. *)
Theorem calculateNewRadius_round_trip (r v : R) :
  (0 < sphereVolume r + v ->
     calculateSphereVolume (calculateNewRadius (Num r) (Num v)) =
     Num (sphereVolume r + v))
  /\ (0 < r -> calculateNewRadius (Num r) (Num 0) = Num r)
  /\ (sphereVolume r + v = 0 -> calculateNewRadius (Num r) (Num v) = Num 0)
  /\ (sphereVolume r + v < 0 -> calculateNewRadius (Num r) (Num v) = NaN).
Proof.
  pose proof PI_RGT_0 as Hpi.
  assert (Hc : cubeSum r v = 3 * (sphereVolume r + v) / (4 * PI)).
  { unfold cubeSum, sphereVolume. f_equal. lra. }
  assert (Hsign : forall t, 0 < t -> 0 < 3 * t / (4 * PI)).
  { intros t Ht. apply Rdiv_lt_0_compat; lra. }
  rewrite calculateNewRadius_Num, Math_pow_third.
  split; [|split; [|split]].
  - intros Hpos. pose proof (Hsign _ Hpos) as Hcp. rewrite <- Hc in Hcp.
    replace (JS.Rltb 0 (cubeSum r v)) with true by (symmetry; now apply Rltb_true).
    rewrite calculateSphereVolume_Num. f_equal.
    unfold sphereVolume at 1. rewrite cube_of_cube_root by assumption.
    rewrite Hc. field. lra.
  - intros Hr. rewrite calculateNewRadius_Num, Math_pow_third.
    assert (Hcp : 0 < cubeSum r 0) by (rewrite cubeSum_eq; assert (0 < r ^ 3) by (now apply pow_lt); lra).
    replace (JS.Rltb 0 (cubeSum r 0)) with true by (symmetry; now apply Rltb_true).
    f_equal. rewrite cubeSum_eq. replace (r ^ 3 + 3 * 0 / (4 * PI)) with (r ^ 3) by lra.
    now apply cube_root_of_cube.
  - intros Hz. rewrite Hc, Hz.
    replace (3 * 0 / (4 * PI)) with 0 by lra.
    replace (JS.Rltb 0 0) with false by (symmetry; apply Rltb_false; lra).
    now replace (JS.Reqb 0 0) with true by (symmetry; now apply Reqb_true).
  - intros Hneg.
    assert (Hcn : cubeSum r v < 0).
    { rewrite Hc. pose proof (Hsign (- (sphereVolume r + v)) ltac:(lra)) as H.
      replace (3 * - (sphereVolume r + v) / (4 * PI))
        with (- (3 * (sphereVolume r + v) / (4 * PI))) in H by lra. lra. }
    replace (JS.Rltb 0 (cubeSum r v)) with false by (symmetry; apply Rltb_false; lra).
    now replace (JS.Reqb (cubeSum r v) 0) with false by (symmetry; apply Reqb_false; lra).
Qed.

Lemma calculateNewRadius_round_trip_witness :
  0 < 1 /\ calculateNewRadius (Num 1) (Num 0) = Num 1.
Proof.
  assert (H : 0 < 1) by lra. split; [exact H|].
  exact (proj1 (proj2 (calculateNewRadius_round_trip 1 0)) H).
Defined.

(** X4. [getRandomRainbowColor] always returns one of the seven colours of
    the palette. *)
Theorem getRandomRainbowColor_in_palette (u : R) :
  0 <= u < 1 ->
  exists c, Helpers.getRandomRainbowColor u = Some c /\ In c Helpers.colors.
Proof.
  intros Hu. unfold Helpers.getRandomRainbowColor.
  apply index_in_range. apply pick_in_range; [assumption | simpl; lia].
Qed.

Lemma getRandomRainbowColor_in_palette_witness :
  0 <= 0 < 1
  /\ exists c, Helpers.getRandomRainbowColor 0 = Some c /\ In c Helpers.colors.
Proof.
  assert (H : 0 <= 0 < 1) by lra. split; [exact H|].
  exact (getRandomRainbowColor_in_palette 0 H).
Defined.

(** ** objectManager.js *)

Section SpawnFacts.

Import ObjectManager.

Variable config : GameConfig.
Variable random : nat -> R.

Lemma sameWorld_refl (s : State) : sameWorld s s.
Proof. repeat split. Qed.

Lemma sameWorld_trans (s1 s2 s3 : State) :
  sameWorld s1 s2 -> sameWorld s2 s3 -> sameWorld s1 s3.
Proof.
  intros (H1 & H2 & H3) (K1 & K2 & K3). repeat split; congruence.
Qed.

Lemma Math_random_same (s : State) : sameWorld s (snd (Math_random random s)).
Proof. repeat split. Qed.

Lemma pickRandom_same {A} (arr : list A) (s : State) :
  sameWorld s (snd (pickRandom random arr s))
  /\ forall a, fst (pickRandom random arr s) = Some a -> In a arr.
Proof.
  unfold pickRandom, bind, ret. cbn [Math_random fst snd]. split.
  - repeat split.
  - intros a Ha. unfold index in Ha.
    destruct (_ <? 0)%Z; [discriminate|]. eapply nth_error_In; eassumption.
Qed.

Lemma advance_same (s : State) (d : nat) : sameWorld s (advance s d).
Proof. repeat split. Qed.

Lemma accepts_sameWorld (s s' : State) (effectiveRadius playerSize : R) (pos : Vector3) :
  sameWorld s s' ->
  accepts s' effectiveRadius playerSize pos = accepts s effectiveRadius playerSize pos.
Proof. intros (H1 & H2 & _). unfold accepts. now rewrite H1, H2. Qed.

Lemma find_same (sz : R) (ty : string) (playerSize : R) (s : State) :
  sameWorld s (snd (_findNonOverlappingPosition config random sz ty playerSize s))
  /\ forall pos,
       fst (_findNonOverlappingPosition config random sz ty playerSize s) = Some pos ->
       accepts s (effectiveRadiusOf ty sz) playerSize pos = true
       /\ THREE.y pos = 0.
Proof.
  unfold _findNonOverlappingPosition.
  pose proof (findAttempts_spec random
                (Rmin (PLAYABLE_AREA config) (MAP_SIZE config / 2 - sz))
                (effectiveRadiusOf ty sz) playerSize MAX_ATTEMPTS s) as H.
  destruct (findAttempts _ _ _ _ _ _) as [[pos|] s']; cbn [fst snd].
  - destruct H as (k & _ & Hpos & Hacc & _ & ->). split; [apply advance_same|].
    intros q Hq. injection Hq as <-. split; [exact Hacc|]. now subst pos.
  - destruct H as [_ ->]. split; [apply advance_same | discriminate].
Qed.

Lemma createObject_run (ty : string) (sz : R) (pos : Vector3) (s : State) :
  _createObject ty sz pos s =
  (meshOf (nextUuid s) ty sz pos,
   mkState (objects s) (scene_playerSphere s) (randomCalls s) (S (nextUuid s))).
Proof.
  unfold meshOf, _createObject.
  destruct (String.eqb ty "box"); [reflexivity|].
  destruct (String.eqb ty "sphere"); [reflexivity|].
  destruct (String.eqb ty "cone"); [reflexivity|].
  destruct (String.eqb ty "cylinder"); reflexivity.
Qed.

Lemma meshOf_fields (u : nat) (ty : string) (sz : R) (pos : Vector3) :
  uuid (meshOf u ty sz pos) = u
  /\ type (userData (meshOf u ty sz pos)) = ty
  /\ size (userData (meshOf u ty sz pos)) = sz
  /\ isBarrier (userData (meshOf u ty sz pos)) = false
  /\ THREE.x (position (meshOf u ty sz pos)) = THREE.x pos
  /\ THREE.z (position (meshOf u ty sz pos)) = THREE.z pos.
Proof.
  unfold meshOf, _createObject.
  destruct (String.eqb ty "box"); [repeat split|].
  destruct (String.eqb ty "sphere"); [repeat split|].
  destruct (String.eqb ty "cone"); [repeat split|].
  destruct (String.eqb ty "cylinder"); repeat split.
Qed.


Lemma bind_eq {A B} (c : M A) (k : A -> M B) (s : State) :
  bind c k s = k (fst (c s)) (snd (c s)).
Proof. unfold bind. now destruct (c s). Qed.

Lemma spawnRandomObject_spec (playerSize : R) (s : State) :
  let r := spawnRandomObject config random playerSize s in
  scene_playerSphere (snd r) = scene_playerSphere s
  /\ match fst r with
     | None => objects (snd r) = objects s /\ nextUuid (snd r) = nextUuid s
     | Some o =>
         (population s < MAX_OBJECTS_COUNT config)%Z
         /\ objects (snd r) = objects s ++ [o]
         /\ nextUuid (snd r) = S (nextUuid s)
         /\ exists def sz pos f k,
              In def (objectDefinitions config)
              /\ o = meshOf (nextUuid s) (geometryType def) sz pos
              /\ accepts s (effectiveRadiusOf (geometryType def) sz) playerSize pos = true
              /\ THREE.y pos = 0
              /\ (f = random k \/ f = sqrt (random k))
              /\ sz = fst (sizeRange def)
                      + f * (Rmin (snd (sizeRange def)) (MAX_OBJECT_SIZE config)
                             - fst (sizeRange def))
     end.
Proof.
  cbv zeta. unfold spawnRandomObject.
  rewrite bind_eq. cbn [get_objects fst snd].
  destruct (_ >=? _)%Z eqn:Ecap.
  { cbn. repeat split. }
  assert (Hcap : (population s < MAX_OBJECTS_COUNT config)%Z).
  { unfold population. rewrite Z.geb_leb in Ecap. apply Z.leb_gt in Ecap. exact Ecap. }
  clear Ecap.
  rewrite bind_eq.
  pose proof (Math_random_same s) as W1.
  set (s1 := snd (Math_random random s)) in *.
  generalize (fst (Math_random random s)). intros rv.
  rewrite bind_eq.
  assert (Hpk : exists pk : option ObjectDefinition * State,
            sameWorld s (snd pk)
            /\ (forall d, fst pk = Some d -> In d (objectDefinitions config))
            /\ (if JS.Rltb rv 0.6
                then pickRandom random
                       (filter (fun obj => JS.Rleb (snd (sizeRange obj)) 15 &&
                                           includes (def_id obj) "small")
                          (objectDefinitions config))
                else if JS.Rltb rv 0.9
                then pickRandom random
                       (filter (fun obj =>
                          (JS.Rltb 15 (snd (sizeRange obj)) &&
                           JS.Rleb (snd (sizeRange obj)) 30) ||
                          (includes (def_id obj) "medium" || String.eqb (def_id obj) "cone"
                           || String.eqb (def_id obj) "cylinder"))
                          (objectDefinitions config))
                else pickRandom random
                       (filter (fun obj =>
                          JS.Rltb 30 (snd (sizeRange obj)) || includes (def_id obj) "large"
                          || includes (def_id obj) "huge")
                          (objectDefinitions config))) s1 = pk).
  { destruct (JS.Rltb rv 0.6); [|destruct (JS.Rltb rv 0.9)];
      (eexists; split; [|split; [|reflexivity]];
       [eapply sameWorld_trans; [exact W1 | apply pickRandom_same]
       | intros d Hd; apply pickRandom_same in Hd; apply filter_In in Hd; tauto]). }
  destruct Hpk as (pk & W2 & Hdef & ->). clear W1 s1 rv.
  destruct pk as [picked s2]. cbn [fst snd] in *.
  rewrite bind_eq.
  assert (Hod : exists od : option ObjectDefinition * State,
            sameWorld s (snd od)
            /\ (forall d, fst od = Some d -> In d (objectDefinitions config))
            /\ match picked with
               | Some d => ret (Some d)
               | None => pickRandom random (objectDefinitions config)
               end s2 = od).
  { destruct picked as [d|]; (eexists; split; [|split; [|reflexivity]]).
    - exact W2.
    - cbn. intros d' Hd'. injection Hd' as <-. now apply Hdef.
    - eapply sameWorld_trans; [exact W2 | apply pickRandom_same].
    - intros d Hd. now apply pickRandom_same in Hd. }
  destruct Hod as ([objectDef s3] & W3 & Hin & ->). cbn [fst snd] in *.
  clear W2 Hdef picked s2.
  destruct objectDef as [def|];
    [|cbn; destruct W3 as (? & ? & ?); repeat split; assumption].
  specialize (Hin def eq_refl).
  rewrite bind_eq.
  set (minSize := fst (sizeRange def)).
  set (maxSize := Rmin (snd (sizeRange def)) (MAX_OBJECT_SIZE config)).
  assert (Hsz : exists szs : R * State,
            sameWorld s (snd szs)
            /\ (exists f k, (f = random k \/ f = sqrt (random k))
                           /\ fst szs = minSize + f * (maxSize - minSize))
            /\ (if existsb (fun d => String.eqb (def_id d) (def_id def))
                     (filter (fun obj => JS.Rleb (snd (sizeRange obj)) 15 &&
                                         includes (def_id obj) "small")
                        (objectDefinitions config))
                then u <- Math_random random ;;
                     ret (minSize + sqrt u * (maxSize - minSize))
                else u <- Math_random random ;;
                     ret (randomInRange minSize maxSize u)) s3 = szs).
  { destruct (existsb _ _); (eexists; split; [|split; [|reflexivity]]).
    - eapply sameWorld_trans; [exact W3 | repeat split].
    - exists (sqrt (random (randomCalls s3))), (randomCalls s3). split; [now right | reflexivity].
    - eapply sameWorld_trans; [exact W3 | repeat split].
    - exists (random (randomCalls s3)), (randomCalls s3). split; [now left | reflexivity]. }
  destruct Hsz as ([sz s4] & W4 & (f & k & Hf & Hsz) & ->). cbn [fst snd] in *.
  clear W3 s3.
  rewrite bind_eq.
  pose proof (find_same sz (geometryType def) playerSize s4) as [W5 Hacc].
  destruct (_findNonOverlappingPosition config random sz (geometryType def) playerSize s4)
    as [pos s5]. cbn [fst snd] in *.
  pose proof (sameWorld_trans _ _ _ W4 W5) as W.
  destruct W as (Wo & Ws & Wn).
  destruct pos as [pos|]; [|cbn; repeat split; assumption].
  destruct (Hacc pos eq_refl) as [Ha Hy]. clear Hacc.
  rewrite (accepts_sameWorld s s4 _ _ _ W4) in Ha. clear W4 W5 s4.
  unfold bind. cbn [Math_random]. rewrite createObject_run.
  cbn [get_objects set_objects ret fst snd objects scene_playerSphere nextUuid randomCalls].
  rewrite Wo, Ws, Wn.
  split; [reflexivity|]. split; [exact Hcap|]. split; [reflexivity|].
  split; [reflexivity|].
  exists def, sz, pos, f, k. repeat split; assumption.
Qed.
End SpawnFacts.

Section PopulationInvariants.

Import ObjectManager.

Variable config : GameConfig.
Variable random : nat -> R.

Lemma FOP_snoc {A} (R : A -> A -> Prop) (l : list A) (x : A) :
  ForallOrdPairs R l -> Forall (fun a => R a x) l -> ForallOrdPairs R (l ++ [x]).
Proof.
  induction 1 as [|a l Ha Hl IH]; intros Hx; simpl.
  - constructor; constructor.
  - inversion Hx as [|? ? Hax Hlx]; subst. constructor.
    + apply Forall_app. split; [assumption | now constructor].
    + now apply IH.
Qed.

Lemma Forall_removeFirst (P : Mesh -> Prop) (u : nat) (l : list Mesh) :
  Forall P l -> Forall P (removeFirst u l).
Proof.
  induction 1 as [|a l Ha Hl IH]; simpl; [constructor|].
  destruct (Nat.eqb (uuid a) u); [assumption | now constructor].
Qed.

Lemma FOP_removeFirst (R : Mesh -> Mesh -> Prop) (u : nat) (l : list Mesh) :
  ForallOrdPairs R l -> ForallOrdPairs R (removeFirst u l).
Proof.
  induction 1 as [|a l Ha Hl IH]; simpl; [constructor|].
  destruct (Nat.eqb (uuid a) u); [assumption|].
  constructor; [now apply Forall_removeFirst | assumption].
Qed.

Lemma removeFirst_subset (u : nat) (o : Mesh) (l : list Mesh) :
  In o (removeFirst u l) -> In o l.
Proof.
  induction l as [|a l IH]; simpl; [easy|].
  destruct (Nat.eqb (uuid a) u); [now right|].
  intros [->|H]; [now left | right; auto].
Qed.

Lemma removeFirst_length (u : nat) (l : list Mesh) :
  (List.length (removeFirst u l) <= List.length l)%nat.
Proof.
  induction l as [|a l IH]; simpl; [lia|].
  destruct (Nat.eqb (uuid a) u); simpl; lia.
Qed.

Lemma NoDup_removeFirst (u : nat) (l : list Mesh) :
  NoDup (map uuid l) -> NoDup (map uuid (removeFirst u l)).
Proof.
  induction l as [|a l IH]; simpl; [easy|]. intros Hnd.
  inversion Hnd as [|? ? Hnotin Hrest]; subst.
  destruct (Nat.eqb (uuid a) u); [assumption|]. simpl. constructor; [|now apply IH].
  intros Hin. apply Hnotin. apply in_map_iff in Hin as (b & Hb & Hin).
  apply in_map_iff. exists b. split; [assumption | eapply removeFirst_subset; eassumption].
Qed.

(** A property of the population that removals keep is kept by a fold of
    removals. *)
Lemma removeAll_keeps (P : list Mesh -> Prop) (xs : list Mesh) :
  (forall u l, P l -> P (removeFirst u l)) ->
  forall l, P l -> P (fold_left (fun l x => removeFirst (uuid x) l) xs l).
Proof.
  intros HP. induction xs as [|x xs IH]; intros l Hl; simpl; [assumption|].
  apply IH. now apply HP.
Qed.

Lemma cull_state (playerSize : R) (s : State) :
  snd (_cullTinyObjects config playerSize s) =
  mkState (fold_left (fun l x => removeFirst (uuid x) l)
             (filter (cullable config playerSize) (objects s)) (objects s))
          (scene_playerSphere s) (randomCalls s) (nextUuid s).
Proof.
  unfold _cullTinyObjects, bind, get_objects. now rewrite forEach_removeObject.
Qed.

Lemma spawnLoop_keeps (I : State -> Prop) (playerSize : R) (n m : Z) :
  kept config random I -> forall fuel a b s, I s ->
  I (snd (spawnLoop config random fuel playerSize n m a b s)).
Proof.
  intros [Hspawn _]. induction fuel as [|fuel IH]; intros a b s Hs; simpl; [assumption|].
  destruct (_ && _)%bool; [|assumption].
  rewrite bind_eq.
  destruct (_ && _)%bool; [now apply Hspawn|]. apply IH. now apply Hspawn.
Qed.

Lemma initialLoop_keeps (I : State -> Prop) (playerSize : R) (n m : Z) :
  kept config random I -> forall fuel a b s, I s ->
  I (snd (initialLoop config random fuel playerSize n m a b s)).
Proof.
  intros [Hspawn _]. induction fuel as [|fuel IH]; intros a b s Hs; simpl; [assumption|].
  destruct (_ && _)%bool; [|assumption].
  rewrite bind_eq.
  destruct (_ && _)%bool; [now apply Hspawn|]. apply IH. now apply Hspawn.
Qed.

Lemma checkAndSpawnObjects_keeps (I : State -> Prop) (playerSize : R) (s : State) :
  kept config random I -> I s -> I (snd (checkAndSpawnObjects config random playerSize s)).
Proof.
  intros HI Hs. unfold checkAndSpawnObjects.
  destruct (negb _); [assumption|].
  rewrite bind_eq. cbn [get_objects fst snd]. rewrite bind_eq.
  apply (proj2 HI). now apply spawnLoop_keeps.
Qed.

Lemma spawnInitialObjects_keeps (I : State -> Prop) (playerSize : R) (s : State) :
  kept config random I -> I s -> I (snd (spawnInitialObjects config random playerSize s)).
Proof. intros HI Hs. unfold spawnInitialObjects. now apply initialLoop_keeps. Qed.

End PopulationInvariants.

Section KeptInvariants.

Import ObjectManager.

Variable config : GameConfig.
Variable random : nat -> R.

Lemma horizontalDistance_sym (a b : Vector3) :
  horizontalDistance a b = horizontalDistance b a.
Proof. unfold horizontalDistance. f_equal. ring. Qed.

Lemma horizontalDistance_xz (a a' b : Vector3) :
  THREE.x a = THREE.x a' -> THREE.z a = THREE.z a' ->
  horizontalDistance a b = horizontalDistance a' b.
Proof. unfold horizontalDistance. now intros -> ->. Qed.

(** The mesh made at an accepted position keeps the clearance to every body
    of the population. *)
Lemma accepted_spaced (s : State) (u : nat) (ty : string) (sz playerSize : R)
    (pos : Vector3) :
  accepts s (effectiveRadiusOf ty sz) playerSize pos = true ->
  Forall (fun a => spaced a (meshOf u ty sz pos)) (objects s).
Proof.
  intros Hacc. apply accepts_true in Hacc. destruct Hacc as [_ Hb].
  apply Forall_forall. intros a Ha. specialize (Hb a Ha).
  destruct (meshOf_fields u ty sz pos) as (_ & Hty & Hsz & _ & Hx & Hz).
  unfold spaced, allocatorRadius. rewrite Hty, Hsz.
  rewrite horizontalDistance_sym.
  rewrite (horizontalDistance_xz _ pos _ Hx Hz).
  fold (allocatorRadius a). unfold allocatorRadius. lra.
Qed.

Lemma cap_kept (bound : Z) :
  (MAX_OBJECTS_COUNT config <= bound)%Z ->
  kept config random (fun s => (population s <= bound)%Z).
Proof.
  intros HB. split.
  - intros playerSize s Hs.
    pose proof (spawnRandomObject_spec config random playerSize s) as H.
    cbv zeta in H. destruct H as [_ H].
    destruct (fst (spawnRandomObject config random playerSize s)) as [o|].
    + destruct H as (Hlt & Ho & _). unfold population in *. rewrite Ho.
      rewrite length_app. simpl. lia.
    + destruct H as [Ho _]. unfold population in *. now rewrite Ho.
  - intros playerSize s Hs. rewrite cull_state. unfold population in *.
    cbn [objects].
    assert (Hlen : (List.length (fold_left (fun l x => removeFirst (uuid x) l)
                      (filter (cullable config playerSize) (objects s)) (objects s))
                    <= List.length (objects s))%nat).
    { apply (removeAll_keeps (fun l => (List.length l <= List.length (objects s))%nat));
        [|lia].
      intros u l Hl. pose proof (removeFirst_length u l). lia. }
    lia.
Qed.

Lemma spacing_kept : kept config random (fun s => wellSpaced (objects s)).
Proof.
  split.
  - intros playerSize s Hs.
    pose proof (spawnRandomObject_spec config random playerSize s) as H.
    cbv zeta in H. destruct H as [_ H].
    destruct (fst (spawnRandomObject config random playerSize s)) as [o|].
    + destruct H as (_ & Ho & _ & def & sz & pos & f & k & _ & -> & Hacc & _).
      rewrite Ho. apply FOP_snoc; [assumption|]. eapply accepted_spaced; eassumption.
    + destruct H as [Ho _]. now rewrite Ho.
  - intros playerSize s Hs. rewrite cull_state. cbn [objects].
    apply (removeAll_keeps wellSpaced); [|assumption].
    intros u l. apply FOP_removeFirst.
Qed.

Lemma identities_kept : kept config random freshIdentities.
Proof.
  split.
  - intros playerSize s [Hnd Hlt].
    pose proof (spawnRandomObject_spec config random playerSize s) as H.
    cbv zeta in H. destruct H as [_ H]. unfold freshIdentities.
    destruct (fst (spawnRandomObject config random playerSize s)) as [o|].
    + destruct H as (_ & Ho & Hn & def & sz & pos & f & k & _ & -> & _).
      rewrite Ho, Hn.
      destruct (meshOf_fields (nextUuid s) (geometryType def) sz pos) as (Hu & _).
      split.
      * rewrite map_app. simpl. rewrite Hu. apply NoDup_app; [assumption| |].
        -- constructor; [intros []|constructor].
        -- intros a Ha [<-|[]]. apply in_map_iff in Ha as (b & Hb & Hin).
           specialize (Hlt b Hin). lia.
      * intros a Ha. apply in_app_iff in Ha as [Ha|[<-|[]]].
        -- specialize (Hlt a Ha). lia.
        -- lia.
    + destruct H as [Ho Hn]. now rewrite Ho, Hn.
  - intros playerSize s [Hnd Hlt]. rewrite cull_state. unfold freshIdentities.
    cbn [objects nextUuid].
    apply (removeAll_keeps
             (fun l => NoDup (map uuid l) /\
                       forall o, In o l -> (uuid o < nextUuid s)%nat));
      [|split; assumption].
    intros u l [Hl1 Hl2]. split; [now apply NoDup_removeFirst|].
    intros o Ho. apply Hl2. eapply removeFirst_subset; eassumption.
Qed.

Lemma fresh_identified (s : State) : freshIdentities s -> identified (objects s).
Proof.
  intros [Hnd _] a b Ha Hb Heq.
  induction (objects s) as [|c l IH]; [easy|].
  simpl in Hnd. inversion Hnd as [|? ? Hnotin Hrest]; subst.
  destruct Ha as [->|Ha], Hb as [->|Hb]; try reflexivity.
  - exfalso. apply Hnotin. rewrite Heq. now apply in_map.
  - exfalso. apply Hnotin. rewrite <- Heq. now apply in_map.
  - now apply IH.
Qed.

End KeptInvariants.

(** X5. The population never grows past the ceiling: after a spawn, after
    the initial spawn and after the maintenance step the number of bodies is
    at most the larger of MAX_OBJECTS_COUNT and the number before; at the
    ceiling a spawn returns null, draws no random number and changes
    nothing. *)
Theorem population_ceiling (config : GameConfig) (random : nat -> R)
    (playerSize : R) (s : ObjectManager.State) :
  let bound := Z.max (population s) (MAX_OBJECTS_COUNT config) in
  (population (snd (ObjectManager.spawnRandomObject config random playerSize s))
     <= bound)%Z
  /\ (population (snd (ObjectManager.spawnInitialObjects config random playerSize s))
       <= bound)%Z
  /\ (population (snd (ObjectManager.checkAndSpawnObjects config random playerSize s))
       <= bound)%Z
  /\ ((MAX_OBJECTS_COUNT config <= population s)%Z ->
      ObjectManager.spawnRandomObject config random playerSize s = (None, s)).
Proof.
  intros bound.
  assert (HB : (MAX_OBJECTS_COUNT config <= bound)%Z) by (unfold bound; lia).
  assert (Hs : (population s <= bound)%Z) by (unfold bound; lia).
  pose proof (cap_kept config random bound HB) as Hk.
  split; [|split; [|split]].
  - now apply (proj1 Hk).
  - now apply (spawnInitialObjects_keeps config random _ playerSize s Hk).
  - now apply (checkAndSpawnObjects_keeps config random _ playerSize s Hk).
  - intros Hfull. unfold ObjectManager.spawnRandomObject.
    rewrite bind_eq. cbn [ObjectManager.get_objects fst snd].
    unfold population in Hfull.
    replace (_ >=? _)%Z with true; [reflexivity|].
    symmetry. rewrite Z.geb_leb. now apply Z.leb_le.
Qed.

Lemma population_ceiling_witness :
  (MAX_OBJECTS_COUNT GAME_CONFIG <= population (sampleObjects (repeat farSphere 1500)))%Z
  /\ ObjectManager.spawnRandomObject GAME_CONFIG alwaysHalf 1
       (sampleObjects (repeat farSphere 1500)) =
     (None, sampleObjects (repeat farSphere 1500)).
Proof.
  assert (H : (MAX_OBJECTS_COUNT GAME_CONFIG
               <= population (sampleObjects (repeat farSphere 1500)))%Z).
  { unfold population, sampleObjects. cbn [ObjectManager.objects].
    rewrite repeat_length. simpl. lia. }
  split; [exact H|].
  exact (proj2 (proj2 (proj2 (population_ceiling GAME_CONFIG alwaysHalf 1
                                (sampleObjects (repeat farSphere 1500))))) H).
Defined.

(** X6. Placement keeps the population well spaced: when every two bodies
    keep the allocator's clearance (the two effective radii plus 0.5, on the
    ground plane), they still do after a spawn, after the initial spawn and
    after the maintenance step. *)
Theorem spacing_is_kept (config : GameConfig) (random : nat -> R)
    (playerSize : R) (s : ObjectManager.State) :
  wellSpaced (ObjectManager.objects s) ->
  wellSpaced (ObjectManager.objects
                (snd (ObjectManager.spawnRandomObject config random playerSize s)))
  /\ wellSpaced (ObjectManager.objects
                   (snd (ObjectManager.spawnInitialObjects config random playerSize s)))
  /\ wellSpaced (ObjectManager.objects
                   (snd (ObjectManager.checkAndSpawnObjects config random playerSize s))).
Proof.
  intros Hs. pose proof (spacing_kept config random) as Hk.
  split; [|split].
  - now apply (proj1 Hk).
  - now apply (spawnInitialObjects_keeps config random _ playerSize s Hk).
  - now apply (checkAndSpawnObjects_keeps config random _ playerSize s Hk).
Qed.

Lemma spacing_is_kept_witness :
  wellSpaced (ObjectManager.objects sampleScene)
  /\ wellSpaced (ObjectManager.objects
                   (snd (ObjectManager.checkAndSpawnObjects GAME_CONFIG alwaysHalf 1
                           sampleScene))).
Proof.
  assert (H : wellSpaced (ObjectManager.objects sampleScene))
    by (repeat constructor).
  split; [exact H|].
  exact (proj2 (proj2 (spacing_is_kept GAME_CONFIG alwaysHalf 1 sampleScene H))).
Defined.

(** X7. The object manager keeps identities apart: when the identities of
    the population are distinct and below the next one to be given, they
    still are after a spawn, after the initial spawn and after the
    maintenance step, so that an identity always determines its mesh. *)
Theorem identities_are_kept (config : GameConfig) (random : nat -> R)
    (playerSize : R) (s : ObjectManager.State) :
  freshIdentities s ->
  freshIdentities (snd (ObjectManager.spawnRandomObject config random playerSize s))
  /\ freshIdentities (snd (ObjectManager.spawnInitialObjects config random playerSize s))
  /\ freshIdentities (snd (ObjectManager.checkAndSpawnObjects config random playerSize s))
  /\ identified (ObjectManager.objects
                   (snd (ObjectManager.checkAndSpawnObjects config random playerSize s))).
Proof.
  intros Hs. pose proof (identities_kept config random) as Hk.
  assert (H3 : freshIdentities
                 (snd (ObjectManager.checkAndSpawnObjects config random playerSize s)))
    by (now apply (checkAndSpawnObjects_keeps config random _ playerSize s Hk)).
  split; [|split; [|split]].
  - now apply (proj1 Hk).
  - now apply (spawnInitialObjects_keeps config random _ playerSize s Hk).
  - exact H3.
  - now apply fresh_identified.
Qed.

Lemma identities_are_kept_witness :
  freshIdentities freshScene
  /\ freshIdentities
       (snd (ObjectManager.checkAndSpawnObjects GAME_CONFIG alwaysHalf 1 freshScene)).
Proof.
  assert (H : freshIdentities freshScene).
  { split.
    - simpl. repeat constructor; simpl; intuition lia.
    - intros o [<-|[<-|[]]]; simpl; lia. }
  split; [exact H|].
  exact (proj1 (proj2 (proj2 (identities_are_kept GAME_CONFIG alwaysHalf 1 freshScene H)))).
Defined.

Section SpawnedBody.

Import ObjectManager.

Lemma between_ends (lo hi f : R) :
  0 <= f < 1 -> Rmin lo hi <= lo + f * (hi - lo) <= Rmax lo hi.
Proof.
  intros Hf. unfold Rmin, Rmax. destruct (Rle_dec lo hi); split; nra.
Qed.

Lemma sqrt_unit (u : R) : 0 <= u < 1 -> 0 <= sqrt u < 1.
Proof.
  intros [H0 H1]. split; [apply sqrt_pos|].
  rewrite <- sqrt_1. apply sqrt_lt_1; lra.
Qed.

Lemma meshOf_height (u : nat) (ty : string) (sz : R) (pos : Vector3) :
  THREE.y (position (meshOf u ty sz pos)) =
  -0.5 + (if String.eqb ty "box" then sz / 2 else sz)
  /\ canBeAbsorbed (userData (meshOf u ty sz pos)) = true.
Proof.
  unfold meshOf, _createObject.
  destruct (String.eqb ty "box"); [split; reflexivity|].
  destruct (String.eqb ty "sphere"); [split; reflexivity|].
  destruct (String.eqb ty "cone"); [split; reflexivity|].
  destruct (String.eqb ty "cylinder"); split; reflexivity.
Qed.

Lemma meshOf_volume (u : nat) (ty : string) (sz : R) (pos : Vector3) :
  GameController.objectVolume (meshOf u ty sz pos) =
  Num (if String.eqb ty "box" then sz ^ 3
       else if String.eqb ty "sphere" then 4 / 3 * PI * sz ^ 3
       else if String.eqb ty "cone" then 1 / 3 * PI * sz ^ 2 * (2 * sz)
       else if String.eqb ty "cylinder" then PI * sz ^ 2 * (2 * sz)
       else 4 / 3 * PI * sz ^ 3).
Proof.
  rewrite objectVolume_shape. f_equal. unfold shapeVolume.
  destruct (meshOf_fields u ty sz pos) as (_ & _ & -> & _).
  unfold meshOf, _createObject.
  destruct (String.eqb ty "box"); [reflexivity|].
  destruct (String.eqb ty "sphere"); [reflexivity|].
  destruct (String.eqb ty "cone"); [reflexivity|].
  destruct (String.eqb ty "cylinder"); reflexivity.
Qed.

Lemma removeAll_cons (a : Mesh) (xs : list Mesh) : forall l : list Mesh,
  (forall x, In x xs -> uuid x <> uuid a) ->
  fold_left (fun l x => removeFirst (uuid x) l) xs (a :: l) =
  a :: fold_left (fun l x => removeFirst (uuid x) l) xs l.
Proof.
  induction xs as [|x xs IH]; intros l Hne; simpl; [reflexivity|].
  replace (Nat.eqb (uuid a) (uuid x)) with false.
  - apply IH. intros y Hy. apply Hne. now right.
  - symmetry. apply Nat.eqb_neq. intros Heq. apply (Hne x); [now left | now symmetry].
Qed.

Lemma removeAll_filter (P : Mesh -> bool) (l : list Mesh) :
  NoDup (map uuid l) ->
  fold_left (fun l x => removeFirst (uuid x) l) (filter P l) l =
  filter (fun o => negb (P o)) l.
Proof.
  induction l as [|a l IH]; intros Hnd; [reflexivity|].
  inversion Hnd as [|? ? Hnotin Hrest]; subst. simpl.
  destruct (P a); simpl.
  - rewrite Nat.eqb_refl. now apply IH.
  - rewrite removeAll_cons; [now rewrite IH|].
    intros x Hx Heq. apply filter_In in Hx as [Hx _].
    apply Hnotin. rewrite <- Heq. now apply in_map.
Qed.

Lemma removeFirst_absent (u : nat) (l : list Mesh) :
  ~ In u (map uuid l) -> removeFirst u l = l.
Proof.
  induction l as [|a l IH]; simpl; [reflexivity|]. intros Hn.
  destruct (Nat.eqb_spec (uuid a) u) as [Heq|Hne]; [tauto|].
  f_equal. apply IH. tauto.
Qed.

Lemma removeFirst_present (o : Mesh) (l : list Mesh) :
  NoDup (map uuid l) -> In o l ->
  ~ In o (removeFirst (uuid o) l)
  /\ List.length l = S (List.length (removeFirst (uuid o) l))
  /\ forall a, In a l -> a <> o -> In a (removeFirst (uuid o) l).
Proof.
  induction l as [|a l IH]; simpl; [easy|]. intros Hnd Hin.
  inversion Hnd as [|? ? Hnotin Hrest]; subst.
  destruct (Nat.eqb_spec (uuid a) (uuid o)) as [Heq|Hne].
  - assert (a = o).
    { destruct Hin as [|Hin]; [assumption|].
      exfalso. apply Hnotin. rewrite Heq. now apply in_map. }
    subst a. split; [|split].
    + intros Hin'. apply Hnotin. now apply in_map.
    + reflexivity.
    + intros b [->|Hb] Hbo; [congruence | assumption].
  - destruct Hin as [->|Hin]; [congruence|].
    destruct (IH Hrest Hin) as (H1 & H2 & H3). split; [|split].
    + intros [->|H]; [congruence | tauto].
    + simpl. now rewrite H2.
    + intros b [->|Hb] Hbo; [now left | right; now apply H3].
Qed.

End SpawnedBody.

(** X8. What a spawn leaves behind.  When [spawnRandomObject] returns a
    body, the population is the old one followed by that body, which has a
    new identity, is absorbable and no barrier, has its centre half its
    height above the ground level -0.5 (half the size for a box, the size
    otherwise), keeps the allocator's clearance to every earlier body, and
    has the
    geometry type of one of the definitions with a size between the
    definition's minimum and its maximum capped by MAX_OBJECT_SIZE (in either
    order: the size exceeds the cap when the minimum does).  When it returns
    null the population is unchanged. *)
Theorem spawn_result (config : GameConfig) (random : nat -> R)
    (playerSize : R) (s : ObjectManager.State) :
  (forall n, 0 <= random n < 1) ->
  let r := ObjectManager.spawnRandomObject config random playerSize s in
  match fst r with
  | Some o =>
      ObjectManager.objects (snd r) = ObjectManager.objects s ++ [o]
      /\ uuid o = ObjectManager.nextUuid s
      /\ isBarrier (userData o) = false /\ canBeAbsorbed (userData o) = true
      /\ THREE.y (position o) =
         -0.5 + (if String.eqb (type (userData o)) "box"
                 then size (userData o) / 2 else size (userData o))
      /\ Forall (fun a => spaced a o) (ObjectManager.objects s)
      /\ exists def, In def (ObjectManager.objectDefinitions config)
           /\ type (userData o) = ObjectManager.geometryType def
           /\ let lo := fst (ObjectManager.sizeRange def) in
              let hi := Rmin (snd (ObjectManager.sizeRange def)) (MAX_OBJECT_SIZE config) in
              Rmin lo hi <= size (userData o) <= Rmax lo hi
  | None => ObjectManager.objects (snd r) = ObjectManager.objects s
  end.
Proof.
  intros Hrand r. subst r.
  pose proof (spawnRandomObject_spec config random playerSize s) as H.
  cbv zeta in H. destruct H as [_ H].
  destruct (fst (ObjectManager.spawnRandomObject config random playerSize s)) as [o|];
    [|exact (proj1 H)].
  destruct H as (_ & Ho & _ & def & sz & pos & f & k & Hdef & -> & Hacc & _ & Hf & Hsz).
  destruct (meshOf_fields (ObjectManager.nextUuid s) (ObjectManager.geometryType def)
              sz pos) as (Hu & Hty & Hs & Hb & Hx & Hz).
  destruct (meshOf_height (ObjectManager.nextUuid s) (ObjectManager.geometryType def)
              sz pos) as (Hy & Hc).
  split; [exact Ho|]. split; [exact Hu|]. split; [exact Hb|]. split; [exact Hc|].
  split; [now rewrite Hty, Hs|].
  split; [now apply (accepted_spaced s _ _ _ playerSize)|].
  exists def. split; [exact Hdef|]. split; [exact Hty|]. cbv zeta.
  rewrite Hs, Hsz. apply between_ends.
  destruct Hf as [->| ->]; [apply Hrand | apply sqrt_unit, Hrand].
Qed.

(** X9. A body made by the object manager is never absorbed with the
    fallback volume 0.5 s^3: a box counts s^3, a cone (1/3) pi s^2 (2s), a
    cylinder pi s^2 (2s), and a sphere or a body of any other type, which
    [_createObject] turns into a sphere, (4/3) pi s^3. *)
Theorem created_body_volume (u : nat) (ty : string) (sz : R) (pos : Vector3) :
  GameController.objectVolume (meshOf u ty sz pos) =
  Num (if String.eqb ty "box" then sz ^ 3
       else if String.eqb ty "cone" then 1 / 3 * PI * sz ^ 2 * (2 * sz)
       else if String.eqb ty "cylinder" then PI * sz ^ 2 * (2 * sz)
       else 4 / 3 * PI * sz ^ 3).
Proof.
  rewrite meshOf_volume. destruct (String.eqb ty "box"); [reflexivity|].
  destruct (String.eqb_spec ty "sphere") as [->|_]; reflexivity.
Qed.

(** X10. A full board draws nothing: with respawning enabled and a
    population already at the desired count min(MAX_OBJECTS_COUNT,
    INITIAL_OBJECTS_COUNT), [checkAndSpawnObjects] makes no spawn attempt and
    does exactly what [_cullTinyObjects] does. *)
Theorem full_board_only_culls (config : GameConfig) (random : nat -> R)
    (playerSize : R) (s : ObjectManager.State) :
  RESPAWN_OBJECTS config = true ->
  (Z.min (MAX_OBJECTS_COUNT config) (INITIAL_OBJECTS_COUNT config) <= population s)%Z ->
  ObjectManager.checkAndSpawnObjects config random playerSize s =
  ObjectManager._cullTinyObjects config playerSize s.
Proof.
  intros Hon Hfull. unfold ObjectManager.checkAndSpawnObjects. rewrite Hon.
  cbn [negb]. unfold population in Hfull.
  unfold ObjectManager.bind at 1. unfold ObjectManager.get_objects at 1.
  cbv beta iota zeta.
  replace (Z.to_nat _) with 0%nat by lia.
  reflexivity.
Qed.

Lemma full_board_only_culls_witness :
  RESPAWN_OBJECTS GAME_CONFIG = true
  /\ (Z.min (MAX_OBJECTS_COUNT GAME_CONFIG) (INITIAL_OBJECTS_COUNT GAME_CONFIG)
      <= population (sampleObjects (repeat farSphere 1500)))%Z
  /\ ObjectManager.checkAndSpawnObjects GAME_CONFIG alwaysHalf 1
       (sampleObjects (repeat farSphere 1500)) =
     ObjectManager._cullTinyObjects GAME_CONFIG 1 (sampleObjects (repeat farSphere 1500)).
Proof.
  assert (H1 : RESPAWN_OBJECTS GAME_CONFIG = true) by reflexivity.
  assert (H2 : (Z.min (MAX_OBJECTS_COUNT GAME_CONFIG) (INITIAL_OBJECTS_COUNT GAME_CONFIG)
                <= population (sampleObjects (repeat farSphere 1500)))%Z).
  { unfold population, sampleObjects. cbn [ObjectManager.objects].
    rewrite repeat_length. vm_compute. discriminate. }
  split; [exact H1|]. split; [exact H2|].
  exact (full_board_only_culls GAME_CONFIG alwaysHalf 1 _ H1 H2).
Defined.

(** X11. The cull step is a filter.  When the bodies have distinct
    identities, [_cullTinyObjects] leaves exactly the bodies that fail its
    test (small relative to the player, smaller than 5 and further than
    PLAYABLE_AREA from the origin), in their old order, and nothing else of
    the state changes; a second cull with the same player size then changes
    nothing. *)
Theorem cull_is_filter (config : GameConfig) (playerSize : R)
    (s : ObjectManager.State) :
  NoDup (map uuid (ObjectManager.objects s)) ->
  let s' := snd (ObjectManager._cullTinyObjects config playerSize s) in
  ObjectManager.objects s' =
    filter (fun o => negb (ObjectManager.cullable config playerSize o))
      (ObjectManager.objects s)
  /\ ObjectManager.nextUuid s' = ObjectManager.nextUuid s
  /\ ObjectManager.randomCalls s' = ObjectManager.randomCalls s
  /\ snd (ObjectManager._cullTinyObjects config playerSize s') = s'.
Proof.
  intros Hnd s'. subst s'. rewrite !cull_state. cbn [ObjectManager.objects
    ObjectManager.nextUuid ObjectManager.randomCalls ObjectManager.scene_playerSphere].
  rewrite (removeAll_filter _ _ Hnd). repeat split.
  f_equal.
  set (keep := fun o => negb (ObjectManager.cullable config playerSize o)).
  assert (Hnone : filter (ObjectManager.cullable config playerSize)
                    (filter keep (ObjectManager.objects s)) = []).
  { clear Hnd. induction (ObjectManager.objects s) as [|a l IH]; [reflexivity|]. simpl.
    unfold keep at 1.
    destruct (ObjectManager.cullable config playerSize a) eqn:E; simpl;
      [exact IH | rewrite E; exact IH]. }
  rewrite Hnone. reflexivity.
Qed.

Lemma cull_is_filter_witness :
  NoDup (map uuid (ObjectManager.objects freshScene))
  /\ ObjectManager.objects (snd (ObjectManager._cullTinyObjects GAME_CONFIG 100 freshScene)) =
     filter (fun o => negb (ObjectManager.cullable GAME_CONFIG 100 o))
       (ObjectManager.objects freshScene).
Proof.
  assert (H : NoDup (map uuid (ObjectManager.objects freshScene))).
  { simpl. repeat constructor; simpl; intuition discriminate. }
  split; [exact H|].
  exact (proj1 (cull_is_filter GAME_CONFIG 100 freshScene H)).
Defined.

(** X12. Removing a body.  [removeObject] on a body whose identity is not in
    the population leaves the state as it is; on a member of a population
    with distinct identities it takes out that body and no other: the body
    is gone, the population is one shorter, and every other body stays. *)
Theorem removeObject_member (o : Mesh) (s : ObjectManager.State) :
  NoDup (map uuid (ObjectManager.objects s)) ->
  let s' := snd (ObjectManager.removeObject o s) in
  (~ In (uuid o) (map uuid (ObjectManager.objects s)) -> s' = s)
  /\ (In o (ObjectManager.objects s) ->
      ~ In o (ObjectManager.objects s')
      /\ List.length (ObjectManager.objects s) = S (List.length (ObjectManager.objects s'))
      /\ forall a, In a (ObjectManager.objects s) -> a <> o ->
           In a (ObjectManager.objects s')).
Proof.
  intros Hnd s'. subst s'.
  unfold ObjectManager.removeObject, ObjectManager.bind, ObjectManager.get_objects,
    ObjectManager.set_objects. cbn [snd ObjectManager.objects]. split.
  - intros Habs. rewrite (removeFirst_absent _ _ Habs). now destruct s.
  - intros Hin. now apply removeFirst_present.
Qed.

Lemma removeObject_member_witness :
  NoDup (map uuid (ObjectManager.objects freshScene))
  /\ In farSphere (ObjectManager.objects freshScene)
  /\ ~ In farSphere
        (ObjectManager.objects (snd (ObjectManager.removeObject farSphere freshScene))).
Proof.
  assert (H : NoDup (map uuid (ObjectManager.objects freshScene))).
  { simpl. repeat constructor; simpl; intuition discriminate. }
  assert (Hin : In farSphere (ObjectManager.objects freshScene)) by (simpl; now left).
  split; [exact H|]. split; [exact Hin|].
  exact (proj1 (proj2 (removeObject_member farSphere freshScene H) Hin)).
Defined.

(** ** Collision scan and response, further facts *)

Section ScanFacts.

Import Physics.

Variable ps : PlayerSphere.
Variable playerSize : R.

Lemma scan_filters (objs : list Mesh) :
  collisions (scan ps objs playerSize) =
    filter (fun o => negb (isBarrier (userData o))
                     && JS.Rltb (THREE.distanceTo (p_position ps) (position o))
                          (playerSize + effectiveCollisionRadius o)
                     && JS.Rltb (size (userData o)) playerSize) objs
  /\ map object (largerCollisions (scan ps objs playerSize)) =
    filter (fun o => negb (isBarrier (userData o))
                     && JS.Rltb (THREE.distanceTo (p_position ps) (position o))
                          (playerSize + effectiveCollisionRadius o)
                     && negb (JS.Rltb (size (userData o)) playerSize)) objs
  /\ barrierCollisions (scan ps objs playerSize) =
    filter (fun o => isBarrier (userData o) && checkBarrierCollision ps o playerSize) objs.
Proof.
  induction objs as [|a objs (IH1 & IH2 & IH3)]; [repeat split|].
  cbn [scan filter].
  destruct (isBarrier (userData a)); cbn [negb andb].
  - destruct (checkBarrierCollision ps a playerSize); cbn [collisions largerCollisions
      barrierCollisions]; rewrite ?IH1, ?IH2, ?IH3; repeat split.
  - destruct (JS.Rltb (THREE.distanceTo (p_position ps) (position a)) _); cbn [andb];
      [|now repeat split].
    destruct (JS.Rltb (size (userData a)) playerSize);
      cbn [negb collisions largerCollisions barrierCollisions map object];
      rewrite ?IH1, ?IH2, ?IH3; repeat split.
Qed.

Lemma scan_records (objs : list Mesh) :
  Forall (fun c => distance c = THREE.distanceTo (p_position ps) (position (object c))
                   /\ objectRadius c = effectiveCollisionRadius (object c)
                   /\ objectPosition c = position (object c))
    (largerCollisions (scan ps objs playerSize)).
Proof.
  induction objs as [|a objs IH]; [constructor|]. cbn [scan].
  destruct (isBarrier (userData a)).
  - now destruct (checkBarrierCollision ps a playerSize).
  - destruct (JS.Rltb _ _); [|assumption].
    destruct (JS.Rltb _ _); [assumption|].
    cbn [largerCollisions]. constructor; [repeat split | assumption].
Qed.

Lemma scan_lengths (objs : list Mesh) :
  (List.length (collisions (scan ps objs playerSize))
   + List.length (largerCollisions (scan ps objs playerSize))
   + List.length (barrierCollisions (scan ps objs playerSize))
   <= List.length objs)%nat.
Proof.
  induction objs as [|a objs IH]; [simpl; lia|]. cbn [scan].
  destruct (isBarrier (userData a)).
  - destruct (checkBarrierCollision ps a playerSize); simpl; lia.
  - destruct (JS.Rltb _ _); [|simpl; lia].
    destruct (JS.Rltb _ _); simpl; lia.
Qed.

Lemma scan_nothing (objs : list Mesh) :
  (forall o, In o objs ->
     if isBarrier (userData o) then checkBarrierCollision ps o playerSize = false
     else ~ overlaps ps playerSize o) ->
  scan ps objs playerSize = mkScan [] [] [].
Proof.
  induction objs as [|a objs IH]; intros H; [reflexivity|]. cbn [scan].
  rewrite IH by (intros o Ho; apply H; now right).
  specialize (H a (or_introl eq_refl)).
  destruct (isBarrier (userData a)); [now rewrite H|].
  unfold overlaps in H.
  replace (JS.Rltb _ _) with false; [reflexivity|].
  symmetry. apply Rltb_false. lra.
Qed.

End ScanFacts.

Section ResponseFacts.

Import Physics.

Lemma handleLargerObject_frame (r : R) (p : PlayerSphere) (c : Collision) :
  THREE.y (p_position (handleLargerObject r p c)) = THREE.y (p_position p)
  /\ p_radius (handleLargerObject r p c) = p_radius p
  /\ THREE.y (p_velocity p) <= THREE.y (p_velocity (handleLargerObject r p c)).
Proof.
  unfold handleLargerObject. cbv zeta.
  destruct (JS.Rltb 0 _); [|repeat split; lra].
  cbn [p_position p_radius p_velocity THREE.y]. split; [reflexivity|].
  split; [reflexivity|].
  destruct (JS.Rltb 5 _) eqn:E; cbn [andb]; [|lra].
  destruct (JS.Rltb 2 _); [|lra].
  apply Rltb_true in E. lra.
Qed.

Lemma handleBarrier_frame (playerPos : Vector3) (r : R) (p : PlayerSphere) (b : Mesh) :
  THREE.y (p_position (handleBarrier playerPos r p b)) = THREE.y (p_position p)
  /\ p_radius (handleBarrier playerPos r p b) = p_radius p
  /\ THREE.y (p_velocity (handleBarrier playerPos r p b)) = THREE.y (p_velocity p).
Proof.
  unfold handleBarrier. cbv zeta.
  destruct (worldClosestPoint playerPos b); [|repeat split].
  destruct (JS.Rltb 0 _); [|repeat split].
  cbn [p_position p_radius p_velocity THREE.y]. split; [reflexivity|].
  split; [reflexivity|].
  destruct (JS.Rltb _ 0); reflexivity.
Qed.

Lemma larger_fold_frame (r : R) (cs : list Collision) : forall p : PlayerSphere,
  THREE.y (p_position (fold_left (handleLargerObject r) cs p)) = THREE.y (p_position p)
  /\ p_radius (fold_left (handleLargerObject r) cs p) = p_radius p
  /\ THREE.y (p_velocity p) <= THREE.y (p_velocity (fold_left (handleLargerObject r) cs p)).
Proof.
  induction cs as [|c cs IH]; intros p; simpl; [repeat split; lra|].
  destruct (IH (handleLargerObject r p c)) as (H1 & H2 & H3).
  destruct (handleLargerObject_frame r p c) as (G1 & G2 & G3).
  repeat split; [congruence | congruence | lra].
Qed.

Lemma barrier_fold_frame (playerPos : Vector3) (r : R) (bs : list Mesh) :
  forall p : PlayerSphere,
  THREE.y (p_position (fold_left (handleBarrier playerPos r) bs p)) = THREE.y (p_position p)
  /\ p_radius (fold_left (handleBarrier playerPos r) bs p) = p_radius p
  /\ THREE.y (p_velocity (fold_left (handleBarrier playerPos r) bs p)) =
     THREE.y (p_velocity p).
Proof.
  induction bs as [|b bs IH]; intros p; simpl; [repeat split|].
  destruct (IH (handleBarrier playerPos r p b)) as (H1 & H2 & H3).
  destruct (handleBarrier_frame playerPos r p b) as (G1 & G2 & G3).
  repeat split; congruence.
Qed.

Lemma checkCollisions_steps (p : PlayerSphere) (objs : list Mesh) (playerSize : R) :
  snd (checkCollisions p objs playerSize) =
  handleBarrierCollisions
    (handleLargerObjectCollisions p (largerCollisions (scan p objs playerSize)) playerSize)
    (barrierCollisions (scan p objs playerSize)).
Proof.
  unfold checkCollisions. cbv zeta. cbn [snd].
  destruct (largerCollisions (scan p objs playerSize)) eqn:El;
    destruct (barrierCollisions (scan p objs playerSize)) eqn:Eb; reflexivity.
Qed.

End ResponseFacts.

(** X13. The collision scan keeps the order of the array.  Its three lists
    are the sub-lists of the scanned array, in array order and with the
    array's repetitions, of the overlapping smaller bodies, the overlapping
    bodies that are not smaller, and the barriers whose box the player
    touches; together they are no longer than the array, and every entry of
    the blocking list records the distance, collision radius and position of
    its body. *)
Theorem scan_in_array_order (ps : PlayerSphere) (objs : list Mesh) (playerSize : R) :
  let r := Physics.scan ps objs playerSize in
  let hit o := JS.Rltb (THREE.distanceTo (p_position ps) (position o))
                 (playerSize + Physics.effectiveCollisionRadius o) in
  Physics.collisions r =
    filter (fun o => negb (isBarrier (userData o)) && hit o
                     && JS.Rltb (size (userData o)) playerSize) objs
  /\ map Physics.object (Physics.largerCollisions r) =
    filter (fun o => negb (isBarrier (userData o)) && hit o
                     && negb (JS.Rltb (size (userData o)) playerSize)) objs
  /\ Physics.barrierCollisions r =
    filter (fun o => isBarrier (userData o)
                     && Physics.checkBarrierCollision ps o playerSize) objs
  /\ (List.length (Physics.collisions r) + List.length (Physics.largerCollisions r)
      + List.length (Physics.barrierCollisions r) <= List.length objs)%nat
  /\ Forall (fun c =>
        Physics.distance c =
          THREE.distanceTo (p_position ps) (position (Physics.object c))
        /\ Physics.objectRadius c = Physics.effectiveCollisionRadius (Physics.object c)
        /\ Physics.objectPosition c = position (Physics.object c))
       (Physics.largerCollisions r).
Proof.
  intros r hit. subst r hit.
  destruct (scan_filters ps playerSize objs) as (H1 & H2 & H3).
  split; [exact H1|]. split; [exact H2|]. split; [exact H3|].
  split; [apply scan_lengths | apply scan_records].
Qed.

(** X14. A player that touches nothing is left alone: when no body of the
    array overlaps the player and the player is inside the reach of no
    barrier, [checkCollisions] returns no body and the player as it was. *)
Theorem free_player_untouched (ps : PlayerSphere) (objs : list Mesh) (playerSize : R) :
  (forall o, In o objs ->
     if isBarrier (userData o)
     then Physics.checkBarrierCollision ps o playerSize = false
     else ~ overlaps ps playerSize o) ->
  Physics.checkCollisions ps objs playerSize = ([], ps).
Proof.
  intros H. unfold Physics.checkCollisions.
  now rewrite (scan_nothing ps playerSize objs H).
Qed.

Lemma free_player_untouched_witness :
  (forall o, In o [smallSphere] ->
     if isBarrier (userData o)
     then Physics.checkBarrierCollision (samplePlayer 1) o 1 = false
     else ~ overlaps (samplePlayer 1) 1 o)
  /\ Physics.checkCollisions (samplePlayer 1) [smallSphere] 1 = ([], samplePlayer 1).
Proof.
  assert (H : forall o, In o [smallSphere] ->
     if isBarrier (userData o)
     then Physics.checkBarrierCollision (samplePlayer 1) o 1 = false
     else ~ overlaps (samplePlayer 1) 1 o).
  { intros o [<-|[]].
    unfold overlaps, Physics.effectiveCollisionRadius, smallSphere, sampleMesh,
      sampleUserData, samplePlayer, THREE.distanceTo, THREE.length, THREE.lengthSq.
    cbn [userData isBarrier collisionRadius size position p_position
         THREE.subVectors THREE.x THREE.y THREE.z].
    apply Rle_not_lt. apply sqrt_lower; lra. }
  split; [exact H|].
  exact (free_player_untouched (samplePlayer 1) [smallSphere] 1 H).
Defined.

(** X15. The collision response moves the player on the ground plane only:
    whatever the scanned bodies are, [checkCollisions] leaves the height of
    the player's centre and the player's radius as they were, and the
    vertical velocity can only have grown (the bounce off a large body). *)
Theorem collision_response_is_horizontal (ps : PlayerSphere) (objs : list Mesh)
    (playerSize : R) :
  let ps' := snd (Physics.checkCollisions ps objs playerSize) in
  THREE.y (p_position ps') = THREE.y (p_position ps)
  /\ p_radius ps' = p_radius ps
  /\ THREE.y (p_velocity ps) <= THREE.y (p_velocity ps').
Proof.
  intros ps'. subst ps'. rewrite checkCollisions_steps.
  unfold Physics.handleBarrierCollisions, Physics.handleLargerObjectCollisions.
  cbv zeta.
  match goal with
  | |- context [fold_left (Physics.handleBarrier ?pp ?rr) ?bs ?p] =>
      destruct (barrier_fold_frame pp rr bs p) as (H1 & H2 & H3)
  end.
  destruct (larger_fold_frame playerSize
              (Physics.largerCollisions (Physics.scan ps objs playerSize)) ps)
    as (G1 & G2 & G3).
  repeat split; [congruence | congruence | lra].
Qed.

Section RevisionFacts.

Lemma distanceTo_self (p : Vector3) : THREE.distanceTo p p = 0.
Proof.
  unfold THREE.distanceTo, THREE.length, THREE.lengthSq, THREE.subVectors.
  cbn [THREE.x THREE.y THREE.z].
  match goal with |- sqrt ?e = 0 => replace e with 0 by ring end. apply sqrt_0.
Qed.

Lemma Rleb_negb_Rltb (a b : R) : JS.Rleb a b = negb (JS.Rltb b a).
Proof.
  destruct (JS.Rltb b a) eqn:E; simpl.
  - apply Rltb_true in E. apply Rleb_false. lra.
  - apply Rltb_false in E. now apply Rleb_true.
Qed.

Lemma rev0_is_rev1 (ps : PlayerSphere) (objs : list Mesh) (playerSize : R) :
  PhysicsRev0.checkCollisions ps objs playerSize =
  fst (PhysicsRev1.scan ps objs playerSize).
Proof.
  induction objs as [|a objs IH]; [reflexivity|].
  cbn [PhysicsRev0.checkCollisions PhysicsRev1.scan]. rewrite IH.
  destruct (PhysicsRev1.scan ps objs playerSize) as [cs ls]. cbn [fst].
  rewrite Rleb_negb_Rltb.
  destruct (JS.Rltb (size (userData a)) playerSize); cbn [negb];
    destruct (JS.Rltb _ _); reflexivity.
Qed.

Lemma rev2_is_rev1 (ps : PlayerSphere) (objs : list Mesh) (playerSize : R) :
  (forall o, In o objs ->
     isBarrier (userData o) = false
     /\ Physics.effectiveCollisionRadius o = PhysicsRev1.objectRadiusOf o) ->
  Physics.collisions (Physics.scan ps objs playerSize) =
  fst (PhysicsRev1.scan ps objs playerSize).
Proof.
  induction objs as [|a objs IH]; intros H; [reflexivity|].
  cbn [Physics.scan PhysicsRev1.scan].
  assert (IH' := IH (fun o Ho => H o (or_intror Ho))).
  destruct (H a (or_introl eq_refl)) as [Hb Hr]. rewrite Hb, Hr.
  destruct (PhysicsRev1.scan ps objs playerSize) as [cs ls]. cbn [fst] in IH'.
  destruct (JS.Rltb _ _); [|exact IH'].
  destruct (JS.Rltb _ _); cbn [Physics.collisions fst]; [now rewrite IH' | exact IH'].
Qed.

Lemma created_radius (o : Mesh) :
  collisionRadius (userData o) = None -> 0 <= size (userData o) ->
  PhysicsRev1.objectRadiusOf o <= Physics.effectiveCollisionRadius o.
Proof.
  intros Hc Hs. unfold PhysicsRev1.objectRadiusOf, Physics.effectiveCollisionRadius.
  rewrite Hc.
  destruct (String.eqb _ "box"); [lra|].
  destruct (String.eqb _ "cone"); [lra|].
  destruct (String.eqb _ "cylinder"); lra.
Qed.

Lemma round_radius (o : Mesh) :
  collisionRadius (userData o) = None ->
  String.eqb (type (userData o)) "box" = false ->
  String.eqb (type (userData o)) "cone" = false ->
  String.eqb (type (userData o)) "cylinder" = false ->
  Physics.effectiveCollisionRadius o = PhysicsRev1.objectRadiusOf o.
Proof.
  intros Hc Hb Hk Hy. unfold PhysicsRev1.objectRadiusOf, Physics.effectiveCollisionRadius.
  now rewrite Hc, Hb, Hk, Hy.
Qed.

Lemma rev0_included (ps : PlayerSphere) (objs : list Mesh) (playerSize : R) :
  (forall o, In o objs ->
     isBarrier (userData o) = false /\ collisionRadius (userData o) = None
     /\ 0 <= size (userData o)) ->
  incl (PhysicsRev0.checkCollisions ps objs playerSize)
       (Physics.collisions (Physics.scan ps objs playerSize)).
Proof.
  intros H o Ho. rewrite rev0_is_rev1 in Ho.
  apply scanRev1_collisions in Ho as (Hin & Hov & Hsz).
  destruct (H o Hin) as (Hb & Hc & Hs).
  apply scan_collisions. split; [exact Hin|]. split; [exact Hb|]. split; [|exact Hsz].
  unfold overlapsRev1 in Hov. unfold overlaps.
  pose proof (created_radius o Hc Hs). lra.
Qed.

End RevisionFacts.

(** X16. What the revisions of the collision scan absorb.  The first
    revision, which skips a body that is not smaller than the player before
    it measures the distance, returns the list the second revision returns as
    its absorbable bodies.  The current revision takes the size of a body as
    its collision radius where the older ones take half the size for a box, a
    cone or a cylinder: on bodies as [_createObject] makes them (no barrier
    flag, no collision radius of their own, a size that is not negative) it
    absorbs every body the older revisions absorb, and exactly those when no
    body is a box, a cone or a cylinder. *)
Theorem revisions_agree (ps : PlayerSphere) (objs : list Mesh) (playerSize : R) :
  PhysicsRev0.checkCollisions ps objs playerSize =
    fst (fst (PhysicsRev1.checkCollisions ps objs playerSize))
  /\ ((forall o, In o objs ->
         isBarrier (userData o) = false /\ collisionRadius (userData o) = None
         /\ 0 <= size (userData o)) ->
      incl (PhysicsRev0.checkCollisions ps objs playerSize)
           (fst (Physics.checkCollisions ps objs playerSize)))
  /\ ((forall o, In o objs ->
         isBarrier (userData o) = false /\ collisionRadius (userData o) = None
         /\ String.eqb (type (userData o)) "box" = false
         /\ String.eqb (type (userData o)) "cone" = false
         /\ String.eqb (type (userData o)) "cylinder" = false) ->
      fst (Physics.checkCollisions ps objs playerSize) =
      PhysicsRev0.checkCollisions ps objs playerSize).
Proof.
  split; [|split].
  - rewrite rev0_is_rev1. unfold PhysicsRev1.checkCollisions.
    destruct (PhysicsRev1.scan ps objs playerSize) as [cs ls]. cbn [fst].
    destruct ls; [reflexivity|].
    now destruct (PhysicsRev1.handleLargerObjectCollisions _ _ _ _).
  - intros H. exact (rev0_included ps objs playerSize H).
  - intros H. rewrite rev0_is_rev1.
    assert (H' : forall o, In o objs ->
              isBarrier (userData o) = false
              /\ Physics.effectiveCollisionRadius o = PhysicsRev1.objectRadiusOf o).
    { intros o Ho. destruct (H o Ho) as (Hb & Hc & Hx & Hk & Hy).
      split; [exact Hb | now apply round_radius]. }
    rewrite <- (rev2_is_rev1 ps objs playerSize H'). reflexivity.
Qed.

Lemma closeBox_rev0 :
  PhysicsRev0.checkCollisions (samplePlayer 1) [closeBox] 1 = [closeBox].
Proof.
  cbn [PhysicsRev0.checkCollisions].
  replace (JS.Rleb 1 (size (userData closeBox))) with false
    by (symmetry; apply Rleb_false; simpl; lra).
  replace (JS.Rltb _ _) with true; [reflexivity|].
  symmetry. apply Rltb_true.
  unfold closeBox, sampleMesh, samplePlayer. cbn [p_position position].
  rewrite distanceTo_self. unfold PhysicsRev1.objectRadiusOf. simpl. lra.
Qed.

Lemma revisions_agree_witness :
  (forall o, In o [closeBox] ->
     isBarrier (userData o) = false /\ collisionRadius (userData o) = None
     /\ 0 <= size (userData o))
  /\ PhysicsRev0.checkCollisions (samplePlayer 1) [closeBox] 1 = [closeBox]
  /\ In closeBox (fst (Physics.checkCollisions (samplePlayer 1) [closeBox] 1)).
Proof.
  assert (H : forall o, In o [closeBox] ->
     isBarrier (userData o) = false /\ collisionRadius (userData o) = None
     /\ 0 <= size (userData o)).
  { intros o [<-|[]]. repeat split. simpl. lra. }
  split; [exact H|]. split; [exact closeBox_rev0|].
  apply (proj1 (proj2 (revisions_agree (samplePlayer 1) [closeBox] 1)) H).
  rewrite closeBox_rev0. now left.
Defined.

Section PushFacts.

Import Physics.

Lemma sqrt_upper (a b : R) : 0 <= a -> b <= a * a -> sqrt b <= a.
Proof.
  intros Ha Hb. rewrite <- (sqrt_square a Ha).
  destruct (Rle_dec 0 b) as [H0|H0].
  - now apply sqrt_le_1_alt.
  - rewrite sqrt_neg_0 by lra. apply sqrt_pos.
Qed.

Lemma horizontal_triangle (a b c : Vector3) :
  horizontalDistance a c <= horizontalDistance a b + horizontalDistance b c.
Proof.
  unfold horizontalDistance.
  set (p := THREE.x a - THREE.x b). set (q := THREE.z a - THREE.z b).
  set (r := THREE.x b - THREE.x c). set (s := THREE.z b - THREE.z c).
  replace (THREE.x a - THREE.x c) with (p + r) by (unfold p, r; ring).
  replace (THREE.z a - THREE.z c) with (q + s) by (unfold q, s; ring).
  assert (HA0 : 0 <= p ^ 2 + q ^ 2) by nra.
  assert (HB0 : 0 <= r ^ 2 + s ^ 2) by nra.
  pose proof (sqrt_pos (p ^ 2 + q ^ 2)) as HA.
  pose proof (sqrt_pos (r ^ 2 + s ^ 2)) as HB.
  pose proof (sqrt_sqrt _ HA0) as HAA.
  pose proof (sqrt_sqrt _ HB0) as HBB.
  set (A := sqrt (p ^ 2 + q ^ 2)) in *. set (B := sqrt (r ^ 2 + s ^ 2)) in *.
  assert (Hcs : p * r + q * s <= A * B).
  { destruct (Rle_dec (p * r + q * s) (A * B)) as [H|H]; [exact H|].
    exfalso.
    assert (H1 : A * B < p * r + q * s) by lra.
    assert (H2 : 0 <= A * B) by (now apply Rmult_le_pos).
    assert (H3 : (A * B) * (A * B) < (p * r + q * s) * (p * r + q * s)) by nra.
    assert (H4 : (A * B) * (A * B) = (p ^ 2 + q ^ 2) * (r ^ 2 + s ^ 2)).
    { rewrite <- HAA, <- HBB. ring. }
    pose proof (Rle_0_sqr (p * s - q * r)) as H5. unfold Rsqr in H5.
    nra. }
  apply sqrt_upper; [lra|]. nra.
Qed.

Lemma horizontalDistance_self (a : Vector3) : horizontalDistance a a = 0.
Proof.
  unfold horizontalDistance.
  match goal with |- sqrt ?e = 0 => replace e with 0 by ring end. apply sqrt_0.
Qed.

Lemma normalize_horizontal_bound (v : Vector3) :
  THREE.x (THREE.normalize v) * THREE.x (THREE.normalize v)
  + THREE.z (THREE.normalize v) * THREE.z (THREE.normalize v) <= 1.
Proof.
  unfold THREE.normalize, THREE.multiplyScalar, JS.or_default.
  cbn [THREE.x THREE.z].
  assert (Hsq : 0 <= THREE.lengthSq v).
  { unfold THREE.lengthSq. nra. }
  pose proof (sqrt_pos (THREE.lengthSq v)) as HL.
  pose proof (sqrt_sqrt _ Hsq) as HLL. fold (THREE.length v) in HL, HLL.
  destruct (JS.Reqb (THREE.length v) 0) eqn:E.
  - apply Reqb_true in E. rewrite E in HLL. unfold THREE.lengthSq in HLL.
    assert (THREE.x v = 0) by nra. assert (THREE.z v = 0) by nra.
    replace (THREE.x v) with 0. replace (THREE.z v) with 0. lra.
  - apply Reqb_false in E.
    assert (Hpos : 0 < THREE.length v) by lra.
    set (L := THREE.length v) in *.
    replace (THREE.x v * (1 / L) * (THREE.x v * (1 / L))
             + THREE.z v * (1 / L) * (THREE.z v * (1 / L)))
      with ((THREE.x v * THREE.x v + THREE.z v * THREE.z v) / (L * L))
      by (field; lra).
    apply (Rmult_le_reg_r (L * L)); [nra|].
    unfold Rdiv. rewrite Rmult_assoc, Rinv_l by nra.
    unfold THREE.lengthSq in HLL. nra.
Qed.

Lemma handleLargerObject_shift (r : R) (p : PlayerSphere) (c : Collision) :
  horizontalDistance (p_position p) (p_position (handleLargerObject r p c)) <= 0.2.
Proof.
  unfold handleLargerObject. cbv zeta.
  destruct (JS.Rltb 0 _) eqn:E; [|rewrite horizontalDistance_self; lra].
  apply Rltb_true in E. cbn [p_position].
  set (n := THREE.normalize _).
  set (k := Rmin _ 0.2).
  assert (Hk : 0 <= k <= 0.2).
  { unfold k, Rmin. destruct (Rle_dec _ _); lra. }
  pose proof (normalize_horizontal_bound
                (THREE.subVectors (p_position p) (objectPosition c))) as Hn.
  fold n in Hn.
  unfold horizontalDistance. cbn [THREE.x THREE.z].
  apply sqrt_upper; [lra|].
  replace ((THREE.x (p_position p) - (THREE.x (p_position p) + THREE.x n * k)) ^ 2
           + (THREE.z (p_position p) - (THREE.z (p_position p) + THREE.z n * k)) ^ 2)
    with ((THREE.x n * THREE.x n + THREE.z n * THREE.z n) * (k * k)) by ring.
  assert (0 <= THREE.x n * THREE.x n + THREE.z n * THREE.z n) by nra.
  assert (k * k <= 0.2 * 0.2) by nra.
  nra.
Qed.

Lemma larger_fold_shift (r : R) (cs : list Collision) : forall p : PlayerSphere,
  horizontalDistance (p_position p) (p_position (fold_left (handleLargerObject r) cs p))
  <= 0.2 * INR (List.length cs).
Proof.
  induction cs as [|c cs IH]; intros p.
  - simpl. rewrite horizontalDistance_self. lra.
  - cbn [fold_left]. rewrite length_cons, S_INR.
    pose proof (IH (handleLargerObject r p c)) as H1.
    pose proof (handleLargerObject_shift r p c) as H2.
    pose proof (horizontal_triangle (p_position p)
                  (p_position (handleLargerObject r p c))
                  (p_position (fold_left (handleLargerObject r) cs
                                 (handleLargerObject r p c)))) as H3.
    lra.
Qed.

End PushFacts.

(** X17. The push-out by blocking bodies is bounded.  One blocking body moves
    the player's centre by at most 0.2 on the ground plane, so the response
    to a list of blocking bodies moves it by at most 0.2 times the length of
    the list, however deep the overlaps are. *)
Theorem blocking_push_is_bounded (ps : PlayerSphere)
    (largerCollisions : list Physics.Collision) (playerRadius : R) :
  horizontalDistance (p_position ps)
    (p_position (Physics.handleLargerObjectCollisions ps largerCollisions playerRadius))
  <= 0.2 * INR (List.length largerCollisions)
  /\ forall c, horizontalDistance (p_position ps)
                 (p_position (Physics.handleLargerObject playerRadius ps c)) <= 0.2.
Proof.
  split.
  - unfold Physics.handleLargerObjectCollisions. apply larger_fold_shift.
  - intros c. apply handleLargerObject_shift.
Qed.

Section BarrierFacts.

Import Physics.

Lemma clamp_inside (a x : R) : - a <= x <= a -> Rmax (- a) (Rmin a x) = x.
Proof.
  intros [H1 H2]. rewrite Rmin_right by lra. now rewrite Rmax_right by lra.
Qed.

Lemma normalize_self (p : Vector3) :
  THREE.normalize (THREE.subVectors p p) = THREE.zero.
Proof.
  unfold THREE.normalize, THREE.multiplyScalar, THREE.subVectors, THREE.zero.
  cbn [THREE.x THREE.y THREE.z]. f_equal; ring.
Qed.

Lemma unit_horizontal (d : Vector3) :
  THREE.y d = 0 -> THREE.x d <> 0 \/ THREE.z d <> 0 ->
  0 < THREE.length d
  /\ THREE.x (THREE.normalize d) * THREE.x (THREE.normalize d)
     + THREE.z (THREE.normalize d) * THREE.z (THREE.normalize d) = 1
  /\ THREE.y (THREE.normalize d) = 0
  /\ THREE.x d = THREE.length d * THREE.x (THREE.normalize d)
  /\ THREE.z d = THREE.length d * THREE.z (THREE.normalize d).
Proof.
  intros Hy Hxz. pose proof (length_pos d Hxz) as HL.
  destruct (normalize_components d HL) as [Hx Hz].
  assert (Hsq : 0 <= THREE.lengthSq d) by (unfold THREE.lengthSq; nra).
  pose proof (sqrt_sqrt _ Hsq) as HLL. fold (THREE.length d) in HLL.
  unfold THREE.lengthSq in HLL. rewrite Hy in HLL.
  split; [exact HL|]. rewrite Hx, Hz.
  set (L := THREE.length d) in *.
  split; [|split; [|split]].
  - replace (THREE.x d * / L * (THREE.x d * / L) + THREE.z d * / L * (THREE.z d * / L))
      with ((THREE.x d * THREE.x d + THREE.z d * THREE.z d) * / (L * L))
      by (field; lra).
    replace (THREE.x d * THREE.x d + THREE.z d * THREE.z d) with (L * L) by lra.
    apply Rinv_r. nra.
  - unfold THREE.normalize, THREE.multiplyScalar. cbn [THREE.y]. rewrite Hy. ring.
  - field. lra.
  - field. lra.
Qed.

(** The response to a barrier whose box the player penetrates. *)
Lemma handleBarrier_hit (playerPos : Vector3) (p : PlayerSphere) (barrier : Mesh)
    (width height depth : R) :
  geometry barrier = THREE.BoxGeometry width height depth ->
  let closest := closestBoxPoint barrier width height depth playerPos in
  let n := THREE.normalize (THREE.subVectors playerPos closest) in
  let penetration := p_radius p - THREE.distanceTo playerPos closest in
  let vn := THREE.x (p_velocity p) * THREE.x n + THREE.z (p_velocity p) * THREE.z n in
  0 < penetration ->
  handleBarrier playerPos (p_radius p) p barrier =
  mkPlayerSphere
    (mkVector3 (THREE.x (p_position p) + THREE.x n * (penetration * 1.01))
               (THREE.y (p_position p))
               (THREE.z (p_position p) + THREE.z n * (penetration * 1.01)))
    (if JS.Rltb vn 0
     then mkVector3 ((THREE.x (p_velocity p) - 2 * vn * THREE.x n) * 0.7)
                    (THREE.y (p_velocity p))
                    ((THREE.z (p_velocity p) - 2 * vn * THREE.z n) * 0.7)
     else p_velocity p)
    (p_radius p).
Proof.
  intros Hg closest n penetration vn Hpen.
  assert (Hdot : THREE.dot (mkVector3 (THREE.x (p_velocity p)) 0 (THREE.z (p_velocity p))) n
                 = vn)
    by (unfold THREE.dot, vn; simpl; lra).
  unfold handleBarrier. rewrite (worldClosestPoint_box _ _ _ _ _ Hg).
  fold closest. fold n. fold penetration.
  replace (JS.Rltb 0 penetration) with true by (symmetry; now apply Rltb_true).
  rewrite Hdot. f_equal.
  destruct (JS.Rltb vn 0); [|reflexivity].
  unfold THREE.subVectors, THREE.multiplyScalar. cbn [THREE.x THREE.y THREE.z].
  f_equal; lra.
Qed.

End BarrierFacts.

(** X18. A player whose centre is inside a barrier is detected and not
    moved.  When the barrier is a box whose world matrix and inverse matrix
    undo each other at the player's centre, and the centre lies within the
    box, [checkBarrierCollision] reports the hit for every positive radius,
    but the collision normal is the zero vector and the response leaves
    position and velocity as they are. *)
Theorem barrier_centre_inside (ps : PlayerSphere) (barrier : Mesh)
    (width height depth : R) :
  geometry barrier = THREE.BoxGeometry width height depth ->
  let q := THREE.applyMatrix4 (p_position ps) (THREE.invert (matrixWorld barrier)) in
  THREE.applyMatrix4 q (matrixWorld barrier) = p_position ps ->
  - (width / 2) <= THREE.x q <= width / 2 ->
  - (height / 2) <= THREE.y q <= height / 2 ->
  - (depth / 2) <= THREE.z q <= depth / 2 ->
  0 < p_radius ps ->
  Physics.checkBarrierCollision ps barrier (p_radius ps) = true
  /\ Physics.handleBarrierCollisions ps [barrier] = ps.
Proof.
  intros Hg q Hinv Hx Hy Hz Hr.
  assert (Hc : closestBoxPoint barrier width height depth (p_position ps) = p_position ps).
  { unfold closestBoxPoint, clampToBox. fold q.
    rewrite !clamp_inside by assumption.
    destruct q as [qx qy qz]. exact Hinv. }
  split.
  - unfold Physics.checkBarrierCollision.
    rewrite (worldClosestPoint_box _ _ _ _ _ Hg), Hc, distanceTo_self.
    now apply Rltb_true.
  - unfold Physics.handleBarrierCollisions. cbn [fold_left].
    assert (Hpen : 0 < p_radius ps
                       - THREE.distanceTo (p_position ps)
                           (closestBoxPoint barrier width height depth (p_position ps)))
      by (rewrite Hc, distanceTo_self; lra).
    rewrite (handleBarrier_hit (p_position ps) ps barrier width height depth Hg Hpen).
    rewrite Hc, normalize_self. cbn [THREE.zero THREE.x THREE.z].
    replace (JS.Rltb _ 0) with false by (symmetry; apply Rltb_false; lra).
    destruct ps as [[px py pz] v r]. cbn [p_position p_velocity p_radius THREE.x
      THREE.y THREE.z]. f_equal. f_equal; ring.
Qed.

Lemma barrier_centre_inside_witness :
  geometry tinyBarrier = THREE.BoxGeometry 2 2 2
  /\ 0 < p_radius (playerAt THREE.zero)
  /\ Physics.checkBarrierCollision (playerAt THREE.zero) tinyBarrier
       (p_radius (playerAt THREE.zero)) = true
  /\ Physics.handleBarrierCollisions (playerAt THREE.zero) [tinyBarrier] =
     playerAt THREE.zero.
Proof.
  assert (Hg : geometry tinyBarrier = THREE.BoxGeometry 2 2 2) by reflexivity.
  assert (Hr : 0 < p_radius (playerAt THREE.zero)) by (simpl; lra).
  assert (Hx : - (2 / 2) <= 0 <= 2 / 2) by lra.
  split; [exact Hg|]. split; [exact Hr|].
  exact (barrier_centre_inside (playerAt THREE.zero) tinyBarrier 2 2 2 Hg eq_refl
           Hx Hx Hx Hr).
Defined.

(** X19. The bounce off a barrier wall.  When the collision normal is
    horizontal (the closest point of the box is level with the player's
    centre and is not the centre itself) and the player penetrates the box
    while moving into it, the response reverses the normal component of the
    horizontal velocity and scales it by 0.7, the horizontal speed becomes
    0.7 times what it was, and the centre ends at distance radius + 1% of
    the penetration depth from the closest point. *)
Theorem barrier_bounce (ps : PlayerSphere) (barrier : Mesh) (width height depth : R) :
  geometry barrier = THREE.BoxGeometry width height depth ->
  let closest := closestBoxPoint barrier width height depth (p_position ps) in
  let n := THREE.normalize (THREE.subVectors (p_position ps) closest) in
  let penetration := p_radius ps - THREE.distanceTo (p_position ps) closest in
  let v := p_velocity ps in
  let vn := THREE.x v * THREE.x n + THREE.z v * THREE.z n in
  let ps' := Physics.handleBarrierCollisions ps [barrier] in
  0 < penetration ->
  THREE.y (p_position ps) = THREE.y closest ->
  THREE.x (p_position ps) <> THREE.x closest \/ THREE.z (p_position ps) <> THREE.z closest ->
  vn < 0 ->
  THREE.x (p_velocity ps') * THREE.x n + THREE.z (p_velocity ps') * THREE.z n = - 0.7 * vn
  /\ THREE.length (mkVector3 (THREE.x (p_velocity ps')) 0 (THREE.z (p_velocity ps'))) =
     0.7 * THREE.length (mkVector3 (THREE.x v) 0 (THREE.z v))
  /\ THREE.distanceTo (p_position ps') closest = p_radius ps + 0.01 * penetration.
Proof.
  intros Hg closest n penetration v vn ps' Hpen Hlevel Hoff Hneg.
  assert (Hy : THREE.y (THREE.subVectors (p_position ps) closest) = 0)
    by (unfold THREE.subVectors; cbn [THREE.y]; lra).
  assert (Hxz : THREE.x (THREE.subVectors (p_position ps) closest) <> 0
                \/ THREE.z (THREE.subVectors (p_position ps) closest) <> 0)
    by (unfold THREE.subVectors; cbn [THREE.x THREE.z]; destruct Hoff; [left|right]; lra).
  destruct (unit_horizontal _ Hy Hxz) as (HL & Hunit & Hny & Hdx & Hdz).
  fold n in Hunit, Hny, Hdx, Hdz.
  fold (THREE.distanceTo (p_position ps) closest) in HL, Hdx, Hdz.
  unfold THREE.subVectors in Hdx, Hdz. cbn [THREE.x THREE.z] in Hdx, Hdz.
  subst ps'. unfold Physics.handleBarrierCollisions. cbn [fold_left].
  rewrite (handleBarrier_hit (p_position ps) ps barrier width height depth Hg Hpen).
  fold closest. fold n. fold penetration. fold v. fold vn.
  replace (JS.Rltb vn 0) with true by (symmetry; now apply Rltb_true).
  cbn [p_position p_velocity THREE.x THREE.y THREE.z].
  set (nx := THREE.x n) in *. set (nz := THREE.z n) in *.
  set (vx := THREE.x v) in *. set (vz := THREE.z v) in *.
  split; [|split].
  - unfold vn in *. nra.
  - unfold THREE.length, THREE.lengthSq. cbn [THREE.x THREE.y THREE.z].
    replace ((vx - 2 * vn * nx) * 0.7 * ((vx - 2 * vn * nx) * 0.7) + 0 * 0
             + (vz - 2 * vn * nz) * 0.7 * ((vz - 2 * vn * nz) * 0.7))
      with ((0.7 * 0.7) * (vx * vx + 0 * 0 + vz * vz)
            + 0.7 * 0.7 * 4 * vn * vn * (nx * nx + nz * nz - 1))
      by (unfold vn; ring).
    rewrite Hunit.
    replace (0.7 * 0.7 * (vx * vx + 0 * 0 + vz * vz) + 0.7 * 0.7 * 4 * vn * vn * (1 - 1))
      with (0.7 * 0.7 * (vx * vx + 0 * 0 + vz * vz)) by ring.
    rewrite sqrt_mult_alt by lra. now rewrite sqrt_square by lra.
  - unfold THREE.distanceTo at 1. unfold THREE.length, THREE.lengthSq, THREE.subVectors.
    cbn [THREE.x THREE.y THREE.z].
    set (L := THREE.distanceTo (p_position ps) closest) in *.
    assert (HpL : penetration = p_radius ps - L) by reflexivity.
    replace (p_radius ps + 0.01 * penetration) with (L + penetration * 1.01) by lra.
    match goal with |- sqrt ?e = _ =>
      replace e with ((L + penetration * 1.01) * (L + penetration * 1.01))
    end.
    + apply sqrt_square. nra.
    + replace (THREE.x (p_position ps) + nx * (penetration * 1.01) - THREE.x closest)
        with ((L + penetration * 1.01) * nx) by lra.
      replace (THREE.z (p_position ps) + nz * (penetration * 1.01) - THREE.z closest)
        with ((L + penetration * 1.01) * nz) by lra.
      replace (THREE.y (p_position ps) - THREE.y closest) with 0 by lra.
      replace ((L + penetration * 1.01) * nx * ((L + penetration * 1.01) * nx) + 0 * 0
               + (L + penetration * 1.01) * nz * ((L + penetration * 1.01) * nz))
        with ((L + penetration * 1.01) * (L + penetration * 1.01)
              * (nx * nx + nz * nz)) by ring.
      rewrite Hunit. ring.
Qed.

Lemma sample_normal :
  THREE.normalize (THREE.subVectors (mkVector3 1.5 0 0) (mkVector3 1 0 0)) =
  mkVector3 1 0 0.
Proof.
  unfold THREE.normalize, THREE.length, THREE.lengthSq, JS.or_default.
  cbn [THREE.subVectors THREE.multiplyScalar THREE.x THREE.y THREE.z].
  replace ((1.5 - 1) * (1.5 - 1) + (0 - 0) * (0 - 0) + (0 - 0) * (0 - 0))
    with (0.5 * 0.5) by lra.
  rewrite sqrt_square by lra.
  replace (JS.Reqb 0.5 0) with false by (symmetry; apply Reqb_false; lra).
  unfold THREE.multiplyScalar, THREE.subVectors. cbn [THREE.x THREE.y THREE.z].
  f_equal; lra.
Qed.

Lemma barrier_bounce_witness :
  geometry tinyBarrier = THREE.BoxGeometry 2 2 2
  /\ 0 < p_radius incomingPlayer
        - THREE.distanceTo (p_position incomingPlayer)
            (closestBoxPoint tinyBarrier 2 2 2 (p_position incomingPlayer))
  /\ THREE.distanceTo
       (p_position (Physics.handleBarrierCollisions incomingPlayer [tinyBarrier]))
       (closestBoxPoint tinyBarrier 2 2 2 (p_position incomingPlayer)) =
     p_radius incomingPlayer
     + 0.01 * (p_radius incomingPlayer
               - THREE.distanceTo (p_position incomingPlayer)
                   (closestBoxPoint tinyBarrier 2 2 2 (p_position incomingPlayer))).
Proof.
  assert (H1 : geometry tinyBarrier = THREE.BoxGeometry 2 2 2) by reflexivity.
  assert (H2 : 0 < p_radius incomingPlayer
        - THREE.distanceTo (p_position incomingPlayer)
            (closestBoxPoint tinyBarrier 2 2 2 (p_position incomingPlayer))).
  { cbn [incomingPlayer p_position p_radius]. rewrite sample_closest, sample_gap. lra. }
  assert (H3 : THREE.y (p_position incomingPlayer) =
               THREE.y (closestBoxPoint tinyBarrier 2 2 2 (p_position incomingPlayer))).
  { cbn [incomingPlayer p_position]. rewrite sample_closest. reflexivity. }
  assert (H4 : THREE.x (p_position incomingPlayer) <>
               THREE.x (closestBoxPoint tinyBarrier 2 2 2 (p_position incomingPlayer))
               \/ THREE.z (p_position incomingPlayer) <>
                  THREE.z (closestBoxPoint tinyBarrier 2 2 2 (p_position incomingPlayer))).
  { left. cbn [incomingPlayer p_position]. rewrite sample_closest.
    cbn [THREE.x]. lra. }
  assert (H5 : THREE.x (p_velocity incomingPlayer)
               * THREE.x (THREE.normalize
                            (THREE.subVectors (p_position incomingPlayer)
                               (closestBoxPoint tinyBarrier 2 2 2
                                  (p_position incomingPlayer))))
               + THREE.z (p_velocity incomingPlayer)
                 * THREE.z (THREE.normalize
                              (THREE.subVectors (p_position incomingPlayer)
                                 (closestBoxPoint tinyBarrier 2 2 2
                                    (p_position incomingPlayer)))) < 0).
  { cbn [incomingPlayer p_position p_velocity]. rewrite sample_closest, sample_normal.
    cbn [THREE.x THREE.z]. lra. }
  split; [exact H1|]. split; [exact H2|].
  exact (proj2 (proj2 (barrier_bounce incomingPlayer tinyBarrier 2 2 2 H1 H2 H3 H4 H5))).
Defined.

(** X20. Rolling on the ground.  A player whose centre is not above its
    radius is put on the ground by the first physics step and stays there:
    after any positive number of steps its centre is at height radius, its
    vertical velocity is zero, and its horizontal velocity is the initial
    one times 0.95 per step. *)
Theorem rolling_on_ground (ps : PlayerSphere) (delta : R) (n : nat) :
  THREE.y (p_position ps) <= p_radius ps ->
  let ps' := settle (S n) delta ps in
  THREE.y (p_position ps') = p_radius ps
  /\ p_radius ps' = p_radius ps
  /\ p_velocity ps' =
     mkVector3 (THREE.x (p_velocity ps) * 0.95 ^ S n) 0
               (THREE.z (p_velocity ps) * 0.95 ^ S n).
Proof.
  intros Hy. cbv zeta. induction n as [|n IH].
  - unfold settle. cbn [Nat.iter nat_rect]. unfold Physics.applyPhysics.
    replace (JS.Rltb _ _) with false by (symmetry; now apply Rltb_false).
    cbn [p_position p_velocity p_radius THREE.x THREE.y THREE.z].
    unfold Physics.friction.
    split; [ring|]. split; [reflexivity|]. f_equal; ring.
  - destruct IH as (H1 & H2 & H3).
    change (settle (S (S n)) delta ps)
      with (Physics.applyPhysics (settle (S n) delta ps) delta).
    unfold Physics.applyPhysics.
    replace (JS.Rltb _ _) with false by (symmetry; apply Rltb_false; lra).
    cbn [p_position p_velocity p_radius THREE.x THREE.y THREE.z].
    rewrite H2, H3. cbn [THREE.x THREE.z]. unfold Physics.friction.
    split; [ring|]. split; [reflexivity|]. f_equal; simpl; ring.
Qed.

Lemma rolling_on_ground_witness :
  THREE.y (p_position incomingPlayer) <= p_radius incomingPlayer
  /\ p_velocity (settle 2 1 incomingPlayer) =
     mkVector3 (THREE.x (p_velocity incomingPlayer) * 0.95 ^ 2) 0
               (THREE.z (p_velocity incomingPlayer) * 0.95 ^ 2).
Proof.
  assert (H : THREE.y (p_position incomingPlayer) <= p_radius incomingPlayer)
    by (simpl; lra).
  split; [exact H|].
  exact (proj2 (proj2 (rolling_on_ground incomingPlayer 1 1 H))).
Defined.

Section CameraFacts.

Import CameraController.

Lemma updateCameraForSize_invalid (config : GameConfig) (c : State) (r : R) :
  updateCameraForSize config c r = updateCameraForSize config c (displayedSize r).
Proof.
  unfold displayedSize. destruct (JS.Rleb r 0) eqn:E; [|reflexivity].
  unfold updateCameraForSize. rewrite E. cbn [JS.isNaN orb].
  now replace (JS.Rleb 1 0) with false by (symmetry; apply Rleb_false; lra).
Qed.

Lemma clamp_range (lo hi x : R) : lo <= hi -> lo <= Rmax lo (Rmin hi x) <= hi.
Proof.
  intros H. unfold Rmax, Rmin.
  destruct (Rle_dec hi x); destruct (Rle_dec lo _); lra.
Qed.

Lemma orbit_radius (d a : R) :
  sqrt ((d * sin a) ^ 2 + (d * cos a) ^ 2) = Rabs d.
Proof.
  replace ((d * sin a) ^ 2 + (d * cos a) ^ 2)
    with (Rsqr d * (Rsqr (sin a) + Rsqr (cos a))) by (unfold Rsqr; ring).
  rewrite sin2_cos2, Rmult_1_r. apply sqrt_Rsqr_abs.
Qed.

End CameraFacts.

(** X21. The camera after a framing step.  For every size, valid or not,
    [updateCameraForSize] leaves the field of view between 60 and 100
    degrees, the height at half the distance and the rotation angle as it
    was; a size that is zero or negative is framed like size 1; and after
    [update] the camera is on the circle around the player whose radius is
    the absolute value of the distance, raised by the height. *)
Theorem camera_after_framing (config : GameConfig) (c : CameraController.State) (r : R)
    (ps : PlayerSphere) :
  let c' := CameraController.updateCameraForSize config c r in
  let c'' := CameraController.update config c ps in
  60 <= CameraController.fov c' <= 100
  /\ CameraController.height c' = CameraController.distance c' * 0.5
  /\ CameraController.rotationAngle c' = CameraController.rotationAngle c
  /\ c' = CameraController.updateCameraForSize config c (displayedSize r)
  /\ horizontalDistance (CameraController.cameraPosition c'') (p_position ps) =
     Rabs (CameraController.distance c'')
  /\ THREE.y (CameraController.cameraPosition c'') =
     THREE.y (p_position ps) + CameraController.height c''.
Proof.
  cbv zeta. split; [|split; [|split; [|split; [|split]]]].
  - unfold CameraController.updateCameraForSize, CameraController.updateCameraPosition.
    cbn [CameraController.fov]. apply clamp_range. lra.
  - reflexivity.
  - reflexivity.
  - apply updateCameraForSize_invalid.
  - unfold CameraController.update. cbv zeta.
    set (c1 := CameraController.updateCameraForSize config c (p_radius ps)).
    unfold CameraController.updateCameraPosition.
    cbn [CameraController.cameraPosition CameraController.distance].
    unfold horizontalDistance. cbn [THREE.x THREE.z].
    match goal with
    | |- sqrt ((_ + ?d * sin ?a - _) ^ 2 + (_ + ?d * cos ?a - _) ^ 2) = _ =>
        replace (sqrt ((THREE.x (p_position ps) + d * sin a - THREE.x (p_position ps)) ^ 2
                       + (THREE.z (p_position ps) + d * cos a
                          - THREE.z (p_position ps)) ^ 2))
          with (sqrt ((d * sin a) ^ 2 + (d * cos a) ^ 2)) by (f_equal; ring);
        apply orbit_radius
    end.
  - reflexivity.
Qed.

Section ThresholdCamera.

Import CameraControllerRev1.

Lemma findSettings_cases (a : R) :
  let t := findSettings (rev sizeThresholds) a (mkThreshold 0 20 10) in
  (a < 5 /\ t = mkThreshold 0 20 10)
  \/ (5 <= a < 10 /\ t = mkThreshold 5 25 12)
  \/ (10 <= a < 20 /\ t = mkThreshold 10 35 15)
  \/ (20 <= a < 40 /\ t = mkThreshold 20 50 25)
  \/ (40 <= a /\ t = mkThreshold 40 70 40).
Proof.
  cbv zeta. unfold sizeThresholds. cbn [rev app findSettings t_size].
  destruct (JS.Rleb 40 a) eqn:E40;
    [apply Rleb_true in E40; right; right; right; right; now split|].
  destruct (JS.Rleb 20 a) eqn:E20;
    [apply Rleb_true in E20; apply Rleb_false in E40;
     right; right; right; left; split; [lra | reflexivity]|].
  destruct (JS.Rleb 10 a) eqn:E10;
    [apply Rleb_true in E10; apply Rleb_false in E20;
     right; right; left; split; [lra | reflexivity]|].
  destruct (JS.Rleb 5 a) eqn:E5;
    [apply Rleb_true in E5; apply Rleb_false in E10;
     right; left; split; [lra | reflexivity]|].
  apply Rleb_false in E5. left. now split.
Qed.

Lemma displayedSize_order (r r' : R) :
  r <= r' -> displayedSize r <= displayedSize r' \/ displayedSize r < 5.
Proof.
  intros H. unfold displayedSize.
  destruct (JS.Rleb r 0) eqn:E; [right; lra|].
  destruct (JS.Rleb r' 0) eqn:E'; [|now left].
  apply Rleb_false in E. apply Rleb_true in E'. lra.
Qed.

Lemma updateCameraForSize_settings (c : CameraController.State) (r : R) :
  CameraController.distance (updateCameraForSize c r) =
    t_distance (findSettings (rev sizeThresholds) (displayedSize r) (mkThreshold 0 20 10))
  /\ CameraController.height (updateCameraForSize c r) =
    t_height (findSettings (rev sizeThresholds) (displayedSize r) (mkThreshold 0 20 10)).
Proof. split; reflexivity. Qed.

End ThresholdCamera.

(** X22. The earlier camera steps outwards.  In the revision that frames the
    player from a table of size thresholds, distance and height depend on the
    size alone, not on the camera's previous state; a larger size never gives
    a smaller distance or height; and the distance stays within 20 and 70,
    the height within 10 and 40. *)
Theorem threshold_camera_monotone (c c0 : CameraController.State) (r r' : R) :
  r <= r' ->
  CameraController.distance (CameraControllerRev1.updateCameraForSize c r) <=
  CameraController.distance (CameraControllerRev1.updateCameraForSize c0 r')
  /\ CameraController.height (CameraControllerRev1.updateCameraForSize c r) <=
     CameraController.height (CameraControllerRev1.updateCameraForSize c0 r')
  /\ 20 <= CameraController.distance (CameraControllerRev1.updateCameraForSize c r) <= 70
  /\ 10 <= CameraController.height (CameraControllerRev1.updateCameraForSize c r) <= 40.
Proof.
  intros Hle.
  destruct (updateCameraForSize_settings c r) as [-> ->].
  destruct (updateCameraForSize_settings c0 r') as [-> ->].
  pose proof (displayedSize_order r r' Hle) as Hord.
  pose proof (findSettings_cases (displayedSize r)) as Ha.
  pose proof (findSettings_cases (displayedSize r')) as Hb.
  cbv zeta in Ha, Hb.
  destruct Ha as [[Ha ->]|[[Ha ->]|[[Ha ->]|[[Ha ->]|[Ha ->]]]]];
    destruct Hb as [[Hb ->]|[[Hb ->]|[[Hb ->]|[[Hb ->]|[Hb ->]]]]];
    cbn [CameraControllerRev1.t_distance CameraControllerRev1.t_height];
    repeat split; lra.
Qed.

Lemma threshold_camera_monotone_witness :
  7 <= 25
  /\ CameraController.distance (CameraControllerRev1.updateCameraForSize freshCamera 7) <=
     CameraController.distance (CameraControllerRev1.updateCameraForSize freshCamera 25).
Proof.
  assert (H : 7 <= 25) by lra.
  split; [exact H|].
  exact (proj1 (threshold_camera_monotone freshCamera freshCamera 7 25 H)).
Defined.

(** X23. The minimap indicator stays on the minimap.  For a map of positive
    size and a player within half the map size of the origin on both axes,
    the pixel offsets [updateMinimap] computes lie between 0 and 150, and a
    player at the origin is shown at the centre (75, 75). *)
Theorem minimap_within_bounds (playerPosition : Vector3) (mapSize : R) :
  0 < mapSize ->
  - (mapSize / 2) <= THREE.x playerPosition <= mapSize / 2 ->
  - (mapSize / 2) <= THREE.z playerPosition <= mapSize / 2 ->
  0 <= fst (HUDController.updateMinimap playerPosition mapSize) <= 150
  /\ 0 <= snd (HUDController.updateMinimap playerPosition mapSize) <= 150
  /\ HUDController.updateMinimap THREE.zero mapSize = (75, 75).
Proof.
  intros Hm Hx Hz. unfold HUDController.updateMinimap. cbv zeta. cbn [fst snd].
  assert (Hk : 0 < / mapSize) by (now apply Rinv_0_lt_compat).
  assert (Hkm : mapSize * / mapSize = 1) by (apply Rinv_r; lra).
  unfold Rdiv in *. set (k := / mapSize) in *.
  assert (Hnx : 0 <= (THREE.x playerPosition + mapSize * / 2) * k <= 1).
  { split; [apply Rmult_le_pos; lra|].
    rewrite <- Hkm. apply Rmult_le_compat_r; lra. }
  assert (Hnz : 0 <= (THREE.z playerPosition + mapSize * / 2) * k <= 1).
  { split; [apply Rmult_le_pos; lra|].
    rewrite <- Hkm. apply Rmult_le_compat_r; lra. }
  split; [lra|]. split; [lra|].
  cbn [THREE.zero THREE.x THREE.z]. f_equal; nra.
Qed.

Lemma minimap_within_bounds_witness :
  0 < 1000
  /\ - (1000 / 2) <= THREE.x (mkVector3 100 1 (-200)) <= 1000 / 2
  /\ - (1000 / 2) <= THREE.z (mkVector3 100 1 (-200)) <= 1000 / 2
  /\ 0 <= fst (HUDController.updateMinimap (mkVector3 100 1 (-200)) 1000) <= 150.
Proof.
  assert (H : 0 < 1000) by lra.
  assert (Hx : - (1000 / 2) <= THREE.x (mkVector3 100 1 (-200)) <= 1000 / 2)
    by (simpl; lra).
  assert (Hz : - (1000 / 2) <= THREE.z (mkVector3 100 1 (-200)) <= 1000 / 2)
    by (simpl; lra).
  split; [exact H|]. split; [exact Hx|]. split; [exact Hz|].
  exact (proj1 (minimap_within_bounds (mkVector3 100 1 (-200)) 1000 H Hx Hz)).
Defined.

Section InputFacts.

Import InputHandler.

Lemma forward_unit (a : R) :
  THREE.normalize (mkVector3 (- sin a) 0 (- cos a)) = mkVector3 (- sin a) 0 (- cos a).
Proof.
  unfold THREE.normalize, THREE.length, THREE.lengthSq, JS.or_default.
  cbn [THREE.x THREE.y THREE.z].
  replace (- sin a * - sin a + 0 * 0 + - cos a * - cos a)
    with (Rsqr (sin a) + Rsqr (cos a)) by (unfold Rsqr; ring).
  rewrite sin2_cos2, sqrt_1.
  replace (JS.Reqb 1 0) with false by (symmetry; apply Reqb_false; lra).
  unfold THREE.multiplyScalar. cbn [THREE.x THREE.y THREE.z]. f_equal; field.
Qed.

Lemma camera_update_depends (config : GameConfig) (c1 c2 : CameraController.State)
    (p : PlayerSphere) :
  CameraController.rotationAngle c1 = CameraController.rotationAngle c2 ->
  CameraController.fov c1 = CameraController.fov c2 ->
  CameraController.update config c1 p = CameraController.update config c2 p.
Proof.
  intros Ha Hf.
  unfold CameraController.update, CameraController.updateCameraForSize,
    CameraController.updateCameraPosition. cbv zeta.
  cbn [CameraController.distance CameraController.height CameraController.rotationAngle
       CameraController.fov CameraController.cameraPosition].
  now rewrite Ha, Hf.
Qed.

Lemma rotateCamera_fields (c : CameraController.State) (a : R) :
  CameraController.rotationAngle (CameraController.rotateCamera c a) =
    CameraController.rotationAngle c + a
  /\ CameraController.fov (CameraController.rotateCamera c a) = CameraController.fov c
  /\ CameraController.distance (CameraController.rotateCamera c a) =
     CameraController.distance c
  /\ CameraController.height (CameraController.rotateCamera c a) =
     CameraController.height c.
Proof. repeat split. Qed.

End InputFacts.

(** X24. Opposite keys cancel.  With up and down held together the player
    moves as with neither; with left and right held together the camera
    keeps its angle, distance, height and field of view, and the camera the
    frame ends with is the one it would end with had neither been held. *)
Theorem opposite_keys_cancel (config : GameConfig) (l r u d : bool)
    (ps : PlayerSphere) (cam : CameraController.State) (delta : R) :
  fst (InputHandler.update config (InputHandler.mkControls true true l r) ps cam delta) =
  fst (InputHandler.update config (InputHandler.mkControls false false l r) ps cam delta)
  /\ let cam' :=
       snd (InputHandler.update config (InputHandler.mkControls u d true true)
              ps cam delta) in
     CameraController.rotationAngle cam' = CameraController.rotationAngle cam
     /\ CameraController.distance cam' = CameraController.distance cam
     /\ CameraController.height cam' = CameraController.height cam
     /\ CameraController.fov cam' = CameraController.fov cam
     /\ forall p, CameraController.update config cam' p =
                  CameraController.update config cam p.
Proof.
  split.
  - unfold InputHandler.update. cbv zeta.
    cbn [InputHandler.up InputHandler.down].
    destruct (JS.Rltb 0.01 _ || JS.Rltb 0.01 _); cbn [fst];
      f_equal; f_equal; f_equal; ring.
  - cbv zeta.
    assert (Hcam : snd (InputHandler.update config (InputHandler.mkControls u d true true)
                          ps cam delta) =
                   CameraController.rotateCamera
                     (CameraController.rotateCamera cam (InputHandler.rotationSpeed * delta))
                     (- InputHandler.rotationSpeed * delta)).
    { unfold InputHandler.update. cbv zeta.
      cbn [InputHandler.up InputHandler.down InputHandler.left InputHandler.right].
      destruct u, d; destruct (JS.Rltb 0.01 _ || JS.Rltb 0.01 _); reflexivity. }
    rewrite Hcam.
    destruct (rotateCamera_fields
                (CameraController.rotateCamera cam (InputHandler.rotationSpeed * delta))
                (- InputHandler.rotationSpeed * delta)) as (Ha & Hf & Hd & Hh).
    destruct (rotateCamera_fields cam (InputHandler.rotationSpeed * delta))
      as (Ha0 & Hf0 & Hd0 & Hh0).
    assert (Hangle : CameraController.rotationAngle
                       (CameraController.rotateCamera
                          (CameraController.rotateCamera cam
                             (InputHandler.rotationSpeed * delta))
                          (- InputHandler.rotationSpeed * delta)) =
                     CameraController.rotationAngle cam)
      by (rewrite Ha, Ha0; ring).
    split; [exact Hangle|]. split; [congruence|]. split; [congruence|].
    split; [congruence|].
    intros p. apply camera_update_depends; [exact Hangle | congruence].
Qed.

(** X25. Up moves the player straight away from the camera.  With only the
    up key held and no horizontal velocity above the 0.01 dead zone, the new
    horizontal velocity is BALL_SPEED times delta in the direction
    (-sin a, -cos a), a the camera angle, opposite to the camera's offset
    (sin a, cos a) from the player; its length is |BALL_SPEED delta|; and the
    centre moves by that velocity itself, not by velocity times delta. *)
Theorem up_moves_away_from_camera (config : GameConfig) (l r : bool)
    (ps : PlayerSphere) (cam : CameraController.State) (delta : R) :
  Rabs (THREE.x (p_velocity ps)) <= 0.01 ->
  Rabs (THREE.z (p_velocity ps)) <= 0.01 ->
  let ps' :=
    fst (InputHandler.update config (InputHandler.mkControls true false l r)
           ps cam delta) in
  let a := CameraController.rotationAngle cam in
  THREE.x (p_velocity ps') = - sin a * (BALL_SPEED config * delta)
  /\ THREE.z (p_velocity ps') = - cos a * (BALL_SPEED config * delta)
  /\ THREE.length (mkVector3 (THREE.x (p_velocity ps')) 0 (THREE.z (p_velocity ps'))) =
     Rabs (BALL_SPEED config * delta)
  /\ THREE.x (p_position ps') = THREE.x (p_position ps) + THREE.x (p_velocity ps')
  /\ THREE.z (p_position ps') = THREE.z (p_position ps) + THREE.z (p_velocity ps').
Proof.
  intros Hx Hz. cbv zeta.
  assert (Hps : fst (InputHandler.update config (InputHandler.mkControls true false l r)
                       ps cam delta) =
                InputHandler._applyPhysics
                  (mkPlayerSphere (p_position ps)
                     (mkVector3
                        (- sin (CameraController.rotationAngle cam)
                         * (BALL_SPEED config * delta))
                        (THREE.y (p_velocity ps))
                        (- cos (CameraController.rotationAngle cam)
                         * (BALL_SPEED config * delta)))
                     (p_radius ps)) delta).
  { unfold InputHandler.update. cbv zeta.
    cbn [InputHandler.up InputHandler.down]. rewrite forward_unit.
    replace (JS.Rltb 0.01 (Rabs (THREE.x (p_velocity ps)))) with false
      by (symmetry; now apply Rltb_false).
    replace (JS.Rltb 0.01 (Rabs (THREE.z (p_velocity ps)))) with false
      by (symmetry; now apply Rltb_false).
    cbn [orb fst THREE.x THREE.z]. f_equal. f_equal. f_equal; ring. }
  rewrite Hps. unfold InputHandler._applyPhysics. cbv zeta.
  cbn [p_position p_velocity p_radius].
  set (a := CameraController.rotationAngle cam).
  set (k := BALL_SPEED config * delta).
  destruct (JS.Rltb (p_radius ps) (THREE.y (p_position ps)));
    cbn [p_position p_velocity THREE.x THREE.y THREE.z];
    (split; [reflexivity|]; split; [reflexivity|];
     split; [|split; reflexivity]);
    unfold THREE.length, THREE.lengthSq; cbn [THREE.x THREE.y THREE.z];
    replace (- sin a * k * (- sin a * k) + 0 * 0 + - cos a * k * (- cos a * k))
      with (Rsqr k * (Rsqr (sin a) + Rsqr (cos a))) by (unfold Rsqr; ring);
    rewrite sin2_cos2, Rmult_1_r; apply sqrt_Rsqr_abs.
Qed.

Lemma up_moves_away_from_camera_witness :
  Rabs (THREE.x (p_velocity (samplePlayer 1))) <= 0.01
  /\ Rabs (THREE.z (p_velocity (samplePlayer 1))) <= 0.01
  /\ THREE.x (p_velocity
       (fst (InputHandler.update GAME_CONFIG (InputHandler.mkControls true false false false)
               (samplePlayer 1) freshCamera 1))) =
     - sin (CameraController.rotationAngle freshCamera) * (BALL_SPEED GAME_CONFIG * 1).
Proof.
  assert (H1 : Rabs (THREE.x (p_velocity (samplePlayer 1))) <= 0.01)
    by (simpl; rewrite Rabs_R0; lra).
  assert (H2 : Rabs (THREE.z (p_velocity (samplePlayer 1))) <= 0.01)
    by (simpl; rewrite Rabs_R0; lra).
  split; [exact H1|]. split; [exact H2|].
  exact (proj1 (up_moves_away_from_camera GAME_CONFIG false false (samplePlayer 1)
                  freshCamera 1 H1 H2)).
Defined.

(** ** The game loop and the population *)

Section AbsorptionFacts.

Import GameController.

Variable config : GameConfig.

Lemma positive_is_valid (g : State) (o : Mesh) :
  0 < sphereSize g ->
  invalid (absorbedSize g o) = false /\ 0 < sphereSize (absorb config g o).
Proof.
  intros Hr. destruct (checkedVolume_pos (objectVolume o)) as (v & Hv & Hpos).
  pose proof (cubeSum_pos _ _ Hr Hpos) as Hc.
  split.
  - unfold absorbedSize. rewrite Hv, invalid_newSize.
    now apply negb_false_iff, Rltb_true.
  - pose proof (absorb_mono config g o). lra.
Qed.

Lemma absorb_all_counted (bodies : list Mesh) : forall g : State,
  0 < sphereSize g ->
  itemsAbsorbed (fold_left (absorb config) bodies g) =
    (itemsAbsorbed g + List.length bodies)%nat
  /\ 0 < sphereSize (fold_left (absorb config) bodies g)
  /\ ObjectManager.objects (objectManager (fold_left (absorb config) bodies g)) =
     fold_left (fun l x => ObjectManager.removeFirst (uuid x) l) bodies
       (ObjectManager.objects (objectManager g)).
Proof.
  induction bodies as [|o rest IH]; intros g Hr; cbn [fold_left List.length].
  - split; [lia|]. now split.
  - destruct (positive_is_valid g o Hr) as [Hv Hpos].
    destruct (absorb_success config g o Hv) as [Hobjs Hcount].
    destruct (IH (absorb config g o) Hpos) as (H1 & H2 & H3).
    rewrite H1, H3, Hcount, Hobjs. split; [lia|]. now split.
Qed.

Lemma removeFirst_gone (u : nat) (l : list Mesh) :
  NoDup (map uuid l) -> ~ In u (map uuid (ObjectManager.removeFirst u l)).
Proof.
  induction l as [|a l IH]; simpl; [tauto|]. intros Hnd.
  inversion Hnd as [|? ? Hnotin Hrest]; subst.
  destruct (Nat.eqb_spec (uuid a) u) as [<-|Hne]; [exact Hnotin|].
  simpl. intros [H|H]; [contradiction | now apply IH].
Qed.

Lemma removeFirst_absent_kept (u v : nat) (l : list Mesh) :
  ~ In u (map uuid l) -> ~ In u (map uuid (ObjectManager.removeFirst v l)).
Proof.
  intros Hn Hin. apply Hn. apply in_map_iff in Hin as (b & Hb & Hin).
  apply in_map_iff. exists b. split; [assumption|].
  eapply removeFirst_subset; eassumption.
Qed.

Lemma removeAll_gone (bodies : list Mesh) : forall l : list Mesh,
  NoDup (map uuid l) ->
  forall o, In o bodies ->
    ~ In (uuid o)
        (map uuid (fold_left (fun l x => ObjectManager.removeFirst (uuid x) l) bodies l)).
Proof.
  induction bodies as [|b rest IH]; intros l Hnd o Hin; [destruct Hin|].
  cbn [fold_left]. destruct Hin as [->|Hin].
  - apply (removeAll_keeps (fun l => ~ In (uuid o) (map uuid l))).
    + intros u l'. apply removeFirst_absent_kept.
    + now apply removeFirst_gone.
  - apply IH; [now apply NoDup_removeFirst | assumption].
Qed.

Lemma absorb_manager (g : State) (o : Mesh) :
  objectManager (absorb config g o) = objectManager g
  \/ objectManager (absorb config g o) =
     snd (ObjectManager.removeObject o (objectManager g)).
Proof.
  unfold absorb. destruct (JS.isNaN _ || JS.le _ _) eqn:E; [now left|].
  right. cbn [objectManager]. unfold growSphere. rewrite E.
  now destruct (newSizeFor _ _).
Qed.

Lemma absorb_player (g : State) (o : Mesh) :
  invalid (absorbedSize g o) = false ->
  let p := playerSphere g in
  let p' := playerSphere (absorb config g o) in
  p_radius p' = sphereSize (absorb config g o)
  /\ sphereSize (absorb config g o) <= THREE.y (p_position p')
  /\ THREE.y (p_position p) <= THREE.y (p_position p')
  /\ THREE.x (p_position p') = THREE.x (p_position p)
  /\ THREE.z (p_position p') = THREE.z (p_position p)
  /\ p_velocity p' = p_velocity p.
Proof.
  intros Hv. cbv zeta. unfold absorbedSize, invalid in Hv.
  unfold absorb. rewrite Hv. cbn [playerSphere sphereSize].
  unfold growSphere. rewrite Hv.
  destruct (newSizeFor _ _) as [|s]; [discriminate|].
  cbn [playerSphere sphereSize p_radius p_position p_velocity].
  split; [reflexivity|].
  destruct (JS.Rltb (THREE.y (p_position (playerSphere g))) s) eqn:E;
    cbn [THREE.x THREE.y THREE.z].
  - apply Rltb_true in E. repeat split; lra.
  - apply Rltb_false in E. repeat split; lra.
Qed.

End AbsorptionFacts.

(** X26. With a positive radius no absorption is skipped.  When the player's
    radius is positive, every body handed to the absorption loop passes both
    safety checks: the counter of absorbed items grows by the length of the
    list, the radius stays positive, each body is taken out of the
    population by identity, and, the identities of the population being
    distinct, no absorbed body's identity is left in it. *)
Theorem every_hit_is_counted (config : GameConfig) (g : GameController.State)
    (collisions : list Mesh) :
  0 < GameController.sphereSize g ->
  let g' := fold_left (GameController.absorb config) collisions g in
  GameController.itemsAbsorbed g' =
    (GameController.itemsAbsorbed g + List.length collisions)%nat
  /\ 0 < GameController.sphereSize g'
  /\ ObjectManager.objects (GameController.objectManager g') =
     fold_left (fun l x => ObjectManager.removeFirst (uuid x) l) collisions
       (ObjectManager.objects (GameController.objectManager g))
  /\ (NoDup (map uuid (ObjectManager.objects (GameController.objectManager g))) ->
      forall o, In o collisions ->
        ~ In (uuid o)
            (map uuid (ObjectManager.objects (GameController.objectManager g')))).
Proof.
  intros Hr g'. subst g'.
  destruct (absorb_all_counted config collisions g Hr) as (H1 & H2 & H3).
  split; [exact H1|]. split; [exact H2|]. split; [exact H3|].
  intros Hnd o Hin. rewrite H3. now apply removeAll_gone.
Qed.

Lemma every_hit_is_counted_witness :
  0 < GameController.sphereSize (sampleGame 1 [smallSphere; unitCube])
  /\ GameController.itemsAbsorbed
       (fold_left (GameController.absorb GAME_CONFIG) [smallSphere]
          (sampleGame 1 [smallSphere; unitCube])) = 1%nat.
Proof.
  assert (H : 0 < GameController.sphereSize (sampleGame 1 [smallSphere; unitCube]))
    by (simpl; lra).
  split; [exact H|].
  exact (proj1 (every_hit_is_counted GAME_CONFIG (sampleGame 1 [smallSphere; unitCube])
                  [smallSphere] H)).
Defined.

(** X27. Growth keeps the player on the ground.  After an absorption that is
    not skipped the player mesh has the new radius, its centre is at least
    that radius above the ground plane and no lower than before, and its
    horizontal position and its velocity are what they were. *)
Theorem growth_lifts_player (config : GameConfig) (g : GameController.State) (o : Mesh) :
  invalid (absorbedSize g o) = false ->
  let p := GameController.playerSphere g in
  let g' := GameController.absorb config g o in
  let p' := GameController.playerSphere g' in
  p_radius p' = GameController.sphereSize g'
  /\ GameController.sphereSize g' <= THREE.y (p_position p')
  /\ THREE.y (p_position p) <= THREE.y (p_position p')
  /\ THREE.x (p_position p') = THREE.x (p_position p)
  /\ THREE.z (p_position p') = THREE.z (p_position p)
  /\ p_velocity p' = p_velocity p.
Proof. intros Hv. exact (absorb_player config g o Hv). Qed.

Lemma growth_lifts_player_witness :
  invalid (absorbedSize (sampleGame 1 [smallSphere]) smallSphere) = false
  /\ p_radius (GameController.playerSphere
                 (GameController.absorb GAME_CONFIG (sampleGame 1 [smallSphere])
                    smallSphere)) =
     GameController.sphereSize
       (GameController.absorb GAME_CONFIG (sampleGame 1 [smallSphere]) smallSphere).
Proof.
  assert (H : invalid (absorbedSize (sampleGame 1 [smallSphere]) smallSphere) = false).
  { apply (positive_is_valid GAME_CONFIG). simpl. lra. }
  split; [exact H|].
  exact (proj1 (growth_lifts_player GAME_CONFIG (sampleGame 1 [smallSphere])
                  smallSphere H)).
Defined.

Section SessionInvariants.

Import GameController.

Variable config : GameConfig.
Variable random : nat -> R.
Variable I : ObjectManager.State -> Prop.
Hypothesis I_kept : kept config random I.
Hypothesis I_removal : forall o s, I s -> I (snd (ObjectManager.removeObject o s)).

Lemma absorb_keeps (g : State) (o : Mesh) :
  I (objectManager g) -> I (objectManager (absorb config g o)).
Proof.
  intros H. destruct (absorb_manager config g o) as [-> | ->];
    [assumption | now apply I_removal].
Qed.

Lemma absorb_all_keeps (bodies : list Mesh) : forall g : State,
  I (objectManager g) -> I (objectManager (fold_left (absorb config) bodies g)).
Proof.
  induction bodies as [|o rest IH]; intros g H; simpl; [assumption|].
  apply IH. now apply absorb_keeps.
Qed.

Lemma handleCollisions_keeps (g : State) (bodies : list Mesh) :
  I (objectManager g) -> I (objectManager (_handleCollisions config random g bodies)).
Proof.
  intros H. unfold _handleCollisions. cbn [objectManager].
  apply (checkAndSpawnObjects_keeps config random I); [exact I_kept|].
  now apply absorb_all_keeps.
Qed.

Lemma gameLoop_keeps (g : State) (delta : R) (keys : InputHandler.Controls) :
  I (objectManager g) -> I (objectManager (_gameLoop config random g delta keys)).
Proof.
  intros H. unfold _gameLoop. destruct (isRunning g); cbn [negb]; [|assumption].
  destruct (InputHandler.update config keys (playerSphere g) (cameraController g) delta)
    as [ps1 cam1].
  destruct (Physics.checkCollisions ps1 (ObjectManager.objects (objectManager g))
              (sphereSize g)) as [cs ps2].
  cbn [objectManager].
  destruct cs as [|c cs]; [assumption|].
  now apply handleCollisions_keeps.
Qed.

Lemma session_keeps (frames : list (R * InputHandler.Controls)) : forall g : State,
  I (objectManager g) -> I (objectManager (session config random g frames)).
Proof.
  induction frames as [|[delta keys] rest IH]; intros g H; simpl; [assumption|].
  apply IH. now apply gameLoop_keeps.
Qed.

End SessionInvariants.

Section RemovalKeeps.

Lemma removeObject_state (o : Mesh) (s : ObjectManager.State) :
  snd (ObjectManager.removeObject o s) =
  ObjectManager.mkState (ObjectManager.removeFirst (uuid o) (ObjectManager.objects s))
    (ObjectManager.scene_playerSphere s) (ObjectManager.randomCalls s)
    (ObjectManager.nextUuid s).
Proof. reflexivity. Qed.

Lemma removal_keeps_spacing (o : Mesh) (s : ObjectManager.State) :
  wellSpaced (ObjectManager.objects s) ->
  wellSpaced (ObjectManager.objects (snd (ObjectManager.removeObject o s))).
Proof. intros H. rewrite removeObject_state. now apply FOP_removeFirst. Qed.

Lemma removal_keeps_identities (o : Mesh) (s : ObjectManager.State) :
  freshIdentities s -> freshIdentities (snd (ObjectManager.removeObject o s)).
Proof.
  intros [Hnd Hlt]. rewrite removeObject_state. split; cbn [ObjectManager.objects
    ObjectManager.nextUuid].
  - now apply NoDup_removeFirst.
  - intros a Ha. apply Hlt. eapply removeFirst_subset; eassumption.
Qed.

Lemma removal_keeps_cap (bound : Z) (o : Mesh) (s : ObjectManager.State) :
  (population s <= bound)%Z ->
  (population (snd (ObjectManager.removeObject o s)) <= bound)%Z.
Proof.
  intros H. rewrite removeObject_state. unfold population in *.
  cbn [ObjectManager.objects].
  pose proof (removeFirst_length (uuid o) (ObjectManager.objects s)). lia.
Qed.

End RemovalKeeps.

Section SpawnSucceeds.

Import ObjectManager.

Variable config : GameConfig.
Variable random : nat -> R.
Hypothesis random_range : forall n, 0 <= random n < 1.

Lemma pickRandom_some {A} (arr : list A) (s : State) :
  arr <> [] -> exists a, fst (pickRandom random arr s) = Some a /\ In a arr.
Proof.
  intros Hne. unfold pickRandom, bind, ret. cbn [Math_random fst snd].
  apply index_in_range. apply pick_in_range; [apply random_range|].
  destruct arr; [contradiction | simpl; lia].
Qed.

(** A spawn below the ceiling returns a body as soon as the allocator finds
    a position for every definition and every size the definition allows;
    the body is the mesh made at the position found. *)
Lemma spawn_succeeds (playerSize : R) (s : State) :
  (population s < MAX_OBJECTS_COUNT config)%Z ->
  (forall def sz s', In def (objectDefinitions config) -> sameWorld s s' ->
     Rmin (fst (sizeRange def)) (Rmin (snd (sizeRange def)) (MAX_OBJECT_SIZE config))
       <= sz <=
     Rmax (fst (sizeRange def)) (Rmin (snd (sizeRange def)) (MAX_OBJECT_SIZE config)) ->
     fst (_findNonOverlappingPosition config random sz (geometryType def) playerSize s')
     <> None) ->
  match fst (spawnRandomObject config random playerSize s) with
  | None => False
  | Some o =>
      exists def sz s' pos,
        In def (objectDefinitions config) /\ sameWorld s s'
        /\ Rmin (fst (sizeRange def))
                (Rmin (snd (sizeRange def)) (MAX_OBJECT_SIZE config)) <= sz
           <= Rmax (fst (sizeRange def))
                (Rmin (snd (sizeRange def)) (MAX_OBJECT_SIZE config))
        /\ fst (_findNonOverlappingPosition config random sz (geometryType def)
                  playerSize s') = Some pos
        /\ o = meshOf (nextUuid s) (geometryType def) sz pos
  end.
Proof.
  intros Hcap Hfind. unfold spawnRandomObject.
  rewrite bind_eq. cbn [get_objects fst snd].
  replace (_ >=? _)%Z with false
    by (symmetry; unfold population in Hcap; rewrite Z.geb_leb; now apply Z.leb_gt).
  rewrite bind_eq.
  pose proof (Math_random_same random s) as W1.
  set (s1 := snd (Math_random random s)) in *.
  generalize (fst (Math_random random s)). intros rv.
  rewrite bind_eq.
  assert (Hpk : exists pk : option ObjectDefinition * State,
            sameWorld s (snd pk)
            /\ (forall d, fst pk = Some d -> In d (objectDefinitions config))
            /\ (if JS.Rltb rv 0.6
                then pickRandom random
                       (filter (fun obj => JS.Rleb (snd (sizeRange obj)) 15 &&
                                           includes (def_id obj) "small")
                          (objectDefinitions config))
                else if JS.Rltb rv 0.9
                then pickRandom random
                       (filter (fun obj =>
                          (JS.Rltb 15 (snd (sizeRange obj)) &&
                           JS.Rleb (snd (sizeRange obj)) 30) ||
                          (includes (def_id obj) "medium" || String.eqb (def_id obj) "cone"
                           || String.eqb (def_id obj) "cylinder"))
                          (objectDefinitions config))
                else pickRandom random
                       (filter (fun obj =>
                          JS.Rltb 30 (snd (sizeRange obj)) || includes (def_id obj) "large"
                          || includes (def_id obj) "huge")
                          (objectDefinitions config))) s1 = pk).
  { destruct (JS.Rltb rv 0.6); [|destruct (JS.Rltb rv 0.9)];
      (eexists; split; [|split; [|reflexivity]];
       [eapply sameWorld_trans; [exact W1 | apply pickRandom_same]
       | intros d Hd; apply pickRandom_same in Hd; apply filter_In in Hd; tauto]). }
  destruct Hpk as (pk & W2 & Hdef & ->). clear W1 s1 rv.
  destruct pk as [picked s2]. cbn [fst snd] in *.
  rewrite bind_eq.
  assert (Hod : exists def s3,
            sameWorld s s3 /\ In def (objectDefinitions config)
            /\ match picked with
               | Some d => ret (Some d)
               | None => pickRandom random (objectDefinitions config)
               end s2 = (Some def, s3)).
  { destruct picked as [d|].
    - exists d, s2. split; [exact W2|]. split; [now apply Hdef | reflexivity].
    - destruct (pickRandom_some (objectDefinitions config) s2) as (a & Ha & Hin);
        [discriminate|].
      exists a, (snd (pickRandom random (objectDefinitions config) s2)).
      split; [eapply sameWorld_trans; [exact W2 | apply pickRandom_same]|].
      split; [exact Hin|]. rewrite <- Ha. apply surjective_pairing. }
  destruct Hod as (def & s3 & W3 & Hin & ->). cbn [fst snd].
  clear W2 Hdef picked s2.
  rewrite bind_eq.
  set (minSize := fst (sizeRange def)) in *.
  set (maxSize := Rmin (snd (sizeRange def)) (MAX_OBJECT_SIZE config)) in *.
  assert (Hsz : exists szs : R * State,
            sameWorld s (snd szs)
            /\ (exists f, 0 <= f < 1 /\ fst szs = minSize + f * (maxSize - minSize))
            /\ (if existsb (fun d => String.eqb (def_id d) (def_id def))
                     (filter (fun obj => JS.Rleb (snd (sizeRange obj)) 15 &&
                                         includes (def_id obj) "small")
                        (objectDefinitions config))
                then u <- Math_random random ;;
                     ret (minSize + sqrt u * (maxSize - minSize))
                else u <- Math_random random ;;
                     ret (randomInRange minSize maxSize u)) s3 = szs).
  { destruct (existsb _ _); (eexists; split; [|split; [|reflexivity]]).
    - eapply sameWorld_trans; [exact W3 | repeat split].
    - exists (sqrt (random (randomCalls s3))).
      split; [apply sqrt_unit, random_range | reflexivity].
    - eapply sameWorld_trans; [exact W3 | repeat split].
    - exists (random (randomCalls s3)). split; [apply random_range | reflexivity]. }
  destruct Hsz as ([sz s4] & W4 & (f & Hf & Hsz) & ->). cbn [fst snd] in *.
  clear W3 s3.
  rewrite bind_eq.
  assert (Hrange : Rmin minSize maxSize <= sz <= Rmax minSize maxSize)
    by (rewrite Hsz; now apply between_ends).
  pose proof (Hfind def sz s4 Hin W4 Hrange) as Hsome.
  pose proof (find_same config random sz (geometryType def) playerSize s4) as [W5 _].
  destruct (_findNonOverlappingPosition config random sz (geometryType def) playerSize s4)
    as [[pos|] s5] eqn:Efind; cbn [fst snd] in *; [|contradiction].
  unfold bind. cbn [Math_random]. rewrite createObject_run.
  cbn [get_objects set_objects ret fst snd objects scene_playerSphere nextUuid randomCalls].
  exists def, sz, s4, pos. split; [exact Hin|]. split; [exact W4|].
  split; [exact Hrange|]. split; [now rewrite Efind|].
  destruct (sameWorld_trans _ _ _ W4 W5) as (_ & _ & ->). reflexivity.
Qed.

Lemma spawnLoop_S (fuel : nat) (playerSize : R) (n m a b : Z) (s : State) :
  spawnLoop config random (S fuel) playerSize n m a b s =
  if ((a <? n) && (b <? m))%Z
  then
    let r := spawnRandomObject config random playerSize s in
    let b' := (b + 1)%Z in
    let a' := match fst r with Some _ => (a + 1)%Z | None => a end in
    if ((b' >=? 10) && (a' =? 0))%Z then (tt, snd r)
    else spawnLoop config random fuel playerSize n m a' b' (snd r)
  else (tt, s).
Proof.
  cbn [spawnLoop]. destruct (_ && _)%bool; [|reflexivity].
  rewrite bind_eq. cbv zeta. now destruct (_ && _)%bool.
Qed.

(** A body the cull step never takes stays in the population, the
    identities being distinct. *)
Lemma member_kept (o : Mesh) :
  (forall playerSize, cullable config playerSize o = false) ->
  kept config random (fun st => freshIdentities st /\ In o (objects st)).
Proof.
  intros Hnc. destruct (identities_kept config random) as [Hspawn Hcull]. split.
  - intros playerSize st [Hid Hin]. split; [now apply Hspawn|].
    pose proof (spawnRandomObject_spec config random playerSize st) as H.
    cbv zeta in H. destruct H as [_ H].
    destruct (fst (spawnRandomObject config random playerSize st)) as [b|].
    + destruct H as (_ & -> & _). apply in_or_app. now left.
    + destruct H as [-> _]. exact Hin.
  - intros playerSize st [Hid Hin]. split; [now apply Hcull|].
    apply cull_keeps; [now apply fresh_identified | exact Hin | apply Hnc].
Qed.

End SpawnSucceeds.

Section BusyFrame.

Import ObjectManager.

Lemma alwaysHalf_range (n : nat) : 0 <= alwaysHalf n < 1.
Proof. unfold alwaysHalf. lra. Qed.

Lemma candidate_half (maxCoord : R) (c k : nat) :
  candidate alwaysHalf maxCoord c k = THREE.zero.
Proof. unfold candidate, alwaysHalf, randomInRange, THREE.zero. f_equal; lra. Qed.

Lemma sample_size_range (def : ObjectDefinition) :
  In def (objectDefinitions GAME_CONFIG) ->
  0.5 <= Rmin (fst (sizeRange def))
           (Rmin (snd (sizeRange def)) (MAX_OBJECT_SIZE GAME_CONFIG))
  /\ Rmax (fst (sizeRange def))
          (Rmin (snd (sizeRange def)) (MAX_OBJECT_SIZE GAME_CONFIG)) <= 30.
Proof.
  unfold objectDefinitions. cbn [GAME_CONFIG MAX_OBJECT_SIZE In].
  intros H.
  repeat (destruct H as [<-|H];
          [cbn [sizeRange fst snd]; unfold Rmin, Rmax;
           repeat (destruct (Rle_dec _ _)); split; lra|]).
  destruct H.
Qed.

Lemma effectiveRadiusOf_le (ty : string) (sz : R) :
  0 <= sz -> 0 <= effectiveRadiusOf ty sz <= sz.
Proof.
  intros H. unfold effectiveRadiusOf.
  destruct (String.eqb ty "box"); [lra|].
  destruct (_ || _)%bool; lra.
Qed.

(** With every draw 1/2 each candidate is the origin: a spawn succeeds when
    no body is within 30.5 plus its radius of the origin and the scene has no
    object named 'playerSphere'. *)
Lemma spawn_at_origin (playerSize : R) (s : State) :
  (population s < 1500)%Z -> scene_playerSphere s = None ->
  (forall o, In o (objects s) ->
     30.5 + allocatorRadius o <= horizontalDistance THREE.zero (position o)) ->
  match fst (spawnRandomObject GAME_CONFIG alwaysHalf playerSize s) with
  | None => False
  | Some o =>
      exists ty sz, 0.5 <= sz <= 30
        /\ o = meshOf (nextUuid s) ty sz THREE.zero
  end.
Proof.
  intros Hcap Hnone Hfar.
  assert (Hfind : forall def sz s', In def (objectDefinitions GAME_CONFIG) ->
            sameWorld s s' ->
            Rmin (fst (sizeRange def))
              (Rmin (snd (sizeRange def)) (MAX_OBJECT_SIZE GAME_CONFIG)) <= sz
            <= Rmax (fst (sizeRange def))
                 (Rmin (snd (sizeRange def)) (MAX_OBJECT_SIZE GAME_CONFIG)) ->
            _findNonOverlappingPosition GAME_CONFIG alwaysHalf sz (geometryType def)
              playerSize s' = (Some THREE.zero, advance s' 2)).
  { intros def sz s' Hin W Hrange.
    destruct (sample_size_range def Hin) as [Hlo Hhi].
    unfold _findNonOverlappingPosition, MAX_ATTEMPTS.
    rewrite findAttempts_S. cbv zeta. rewrite candidate_half.
    replace (accepts _ _ _ _) with true; [reflexivity|].
    symmetry. rewrite (accepts_sameWorld s s' _ _ _ W). apply accepts_true. split.
    - intros pp Hpp. rewrite Hnone in Hpp. discriminate.
    - intros o Ho. specialize (Hfar o Ho). unfold allocatorRadius in Hfar.
      pose proof (effectiveRadiusOf_le (geometryType def) sz ltac:(lra)). lra. }
  pose proof (spawn_succeeds GAME_CONFIG alwaysHalf alwaysHalf_range playerSize s Hcap)
    as H.
  assert (Hsome : forall def sz s', In def (objectDefinitions GAME_CONFIG) ->
            sameWorld s s' ->
            Rmin (fst (sizeRange def))
              (Rmin (snd (sizeRange def)) (MAX_OBJECT_SIZE GAME_CONFIG)) <= sz
            <= Rmax (fst (sizeRange def))
                 (Rmin (snd (sizeRange def)) (MAX_OBJECT_SIZE GAME_CONFIG)) ->
            fst (_findNonOverlappingPosition GAME_CONFIG alwaysHalf sz (geometryType def)
                   playerSize s') <> None).
  { intros def sz s' Hin W Hrange. rewrite (Hfind def sz s' Hin W Hrange).
    discriminate. }
  specialize (H Hsome).
  destruct (fst (spawnRandomObject GAME_CONFIG alwaysHalf playerSize s)) as [o|];
    [|exact H].
  destruct H as (def & sz & s' & pos & Hin & W & Hrange & Hpos & ->).
  rewrite (Hfind def sz s' Hin W Hrange) in Hpos. injection Hpos as <-.
  destruct (sample_size_range def Hin) as [Hlo Hhi].
  exists (geometryType def), sz. split; [lra | reflexivity].
Qed.

(** A body made at the origin with a size up to 30 is never culled. *)
Lemma origin_body_stays (u : nat) (ty : string) (sz playerSize : R) :
  0.5 <= sz <= 30 ->
  cullable GAME_CONFIG playerSize (meshOf u ty sz THREE.zero) = false.
Proof.
  intros Hsz. destruct (cullable GAME_CONFIG playerSize _) eqn:E; [|reflexivity].
  exfalso. apply cullable_true in E as (_ & _ & Hfar).
  destruct (meshOf_fields u ty sz THREE.zero) as (_ & _ & _ & _ & Hx & Hz).
  destruct (meshOf_height u ty sz THREE.zero) as (Hy & _).
  unfold THREE.lengthSq in Hfar. rewrite Hx, Hy, Hz in Hfar.
  cbn [THREE.zero THREE.x THREE.z GAME_CONFIG PLAYABLE_AREA] in Hfar.
  destruct (String.eqb ty "box"); nra.
Qed.

End BusyFrame.

Lemma spawn_result_witness :
  (forall n, 0 <= alwaysHalf n < 1)
  /\ exists o,
       fst (ObjectManager.spawnRandomObject GAME_CONFIG alwaysHalf 6
              (ObjectManager.mkState [farSphere; westSphere] None 0 10)) = Some o
       /\ ObjectManager.objects
            (snd (ObjectManager.spawnRandomObject GAME_CONFIG alwaysHalf 6
                    (ObjectManager.mkState [farSphere; westSphere] None 0 10))) =
          [farSphere; westSphere] ++ [o]
       /\ uuid o = 10%nat
       /\ Forall (fun a => spaced a o) [farSphere; westSphere].
Proof.
  assert (H : forall n, 0 <= alwaysHalf n < 1) by exact alwaysHalf_range.
  split; [exact H|].
  pose proof (spawn_result GAME_CONFIG alwaysHalf 6
                (ObjectManager.mkState [farSphere; westSphere] None 0 10) H) as Hr.
  cbv zeta in Hr.
  assert (Hs : match fst (ObjectManager.spawnRandomObject GAME_CONFIG alwaysHalf 6
                            (ObjectManager.mkState [farSphere; westSphere] None 0 10))
               with None => False | Some _ => True end).
  { pose proof (spawn_at_origin 6
                  (ObjectManager.mkState [farSphere; westSphere] None 0 10)) as Hs.
    destruct (fst (ObjectManager.spawnRandomObject GAME_CONFIG alwaysHalf 6
                     (ObjectManager.mkState [farSphere; westSphere] None 0 10)));
      [exact I|].
    apply Hs.
    - cbn. lia.
    - reflexivity.
    - intros a [<-|[<-|[]]]; unfold allocatorRadius, horizontalDistance,
        ObjectManager.effectiveRadiusOf; simpl; apply sqrt_lower; lra. }
  destruct (fst (ObjectManager.spawnRandomObject GAME_CONFIG alwaysHalf 6
                   (ObjectManager.mkState [farSphere; westSphere] None 0 10)))
    as [o|]; [|destruct Hs].
  exists o. destruct Hr as (Ho & Hu & _ & _ & _ & Hsp & _).
  split; [reflexivity|]. split; [exact Ho|]. split; [exact Hu|]. exact Hsp.
Defined.

Section BusyGame.

Import GameController.

Lemma idle_update (config : GameConfig) (r delta : R) (cam : CameraController.State) :
  InputHandler.update config noKeys (samplePlayer r) cam delta = (samplePlayer r, cam).
Proof.
  unfold InputHandler.update, noKeys, samplePlayer. cbv zeta.
  cbn [InputHandler.up InputHandler.down InputHandler.left InputHandler.right
       p_position p_velocity p_radius THREE.zero THREE.x THREE.y THREE.z].
  rewrite Rabs_R0.
  replace (JS.Rltb 0.01 0) with false by (symmetry; apply Rltb_false; lra).
  cbn [orb]. unfold InputHandler._applyPhysics.
  cbn [p_position p_velocity p_radius THREE.x THREE.y THREE.z].
  replace (JS.Rltb r r) with false by (symmetry; apply Rltb_false; lra).
  cbn [THREE.x THREE.y THREE.z]. unfold THREE.zero.
  f_equal. f_equal. f_equal; lra.
Qed.

Lemma busy_scan :
  Physics.checkCollisions (samplePlayer 6) [nearSphere; farSphere; westSphere] 6 =
  ([nearSphere], samplePlayer 6).
Proof.
  unfold Physics.checkCollisions. cbn [Physics.scan].
  unfold nearSphere, farSphere, westSphere, sampleMesh, sampleUserData, samplePlayer,
    Physics.effectiveCollisionRadius, THREE.distanceTo, THREE.length, THREE.lengthSq.
  cbn [userData isBarrier collisionRadius size position p_position
       THREE.subVectors THREE.x THREE.y THREE.z].
  replace (JS.Rltb (sqrt ((0 - -450) * (0 - -450) + (6 - 5.5) * (6 - 5.5)
                          + (0 - 0) * (0 - 0))) (6 + 6)) with false
    by (symmetry; apply Rltb_false; apply sqrt_lower; lra).
  replace (JS.Rltb (sqrt ((0 - 450) * (0 - 450) + (6 - 0) * (6 - 0)
                          + (0 - 0) * (0 - 0))) (6 + 0.5)) with false
    by (symmetry; apply Rltb_false; apply sqrt_lower; lra).
  replace (JS.Rltb (sqrt ((0 - 0) * (0 - 0) + (6 - 0) * (6 - 0)
                          + (0 - 0) * (0 - 0))) (6 + 0.5)) with true
    by (symmetry; apply Rltb_true;
        replace ((0 - 0) * (0 - 0) + (6 - 0) * (6 - 0) + (0 - 0) * (0 - 0))
          with (6 * 6) by lra;
        rewrite sqrt_square; lra).
  replace (JS.Rltb 0.5 6) with true by (symmetry; apply Rltb_true; lra).
  reflexivity.
Qed.

Variable config : GameConfig.
Variable random : nat -> R.

(** A frame of a running game whose scan returns bodies: they are absorbed
    and the maintenance step follows. *)
Lemma gameLoop_absorbing (g : State) (delta : R) (keys : InputHandler.Controls)
    (c : Mesh) (cs : list Mesh) (ps2 : PlayerSphere) :
  isRunning g = true ->
  Physics.checkCollisions
    (fst (InputHandler.update config keys (playerSphere g) (cameraController g) delta))
    (ObjectManager.objects (objectManager g)) (sphereSize g) = (c :: cs, ps2) ->
  exists g1,
    objectManager g1 = objectManager g /\ sphereSize g1 = sphereSize g
    /\ itemsAbsorbed g1 = itemsAbsorbed g
    /\ objectManager (_gameLoop config random g delta keys) =
       snd (ObjectManager.checkAndSpawnObjects config random
              (sphereSize (fold_left (absorb config) (c :: cs) g1))
              (objectManager (fold_left (absorb config) (c :: cs) g1)))
    /\ itemsAbsorbed (_gameLoop config random g delta keys) =
       itemsAbsorbed (fold_left (absorb config) (c :: cs) g1).
Proof.
  intros Hrun Hscan. unfold _gameLoop. rewrite Hrun. cbn [negb].
  destruct (InputHandler.update config keys (playerSphere g) (cameraController g) delta)
    as [ps1 cam1]. cbn [fst] in Hscan. rewrite Hscan.
  eexists. split; [|split; [|split; [|split]]];
    [| | |unfold _handleCollisions; cbn [objectManager]; reflexivity
     |unfold _handleCollisions; cbn [itemsAbsorbed]; reflexivity]; reflexivity.
Qed.

End BusyGame.

Section BusyMaintenance.

Import ObjectManager.

(** The bodies are [farSphere], [westSphere] or bodies made since the
    identity 10 was the next one. *)
Lemma newcomers_kept (config : GameConfig) (random : nat -> R) :
  kept config random
    (fun st => (10 <= nextUuid st)%nat
               /\ forall a, In a (objects st) ->
                    a = farSphere \/ a = westSphere \/ (10 <= uuid a)%nat).
Proof.
  split.
  - intros playerSize st [Hn Hall].
    pose proof (spawnRandomObject_spec config random playerSize st) as H.
    cbv zeta in H. destruct H as [_ H].
    destruct (fst (spawnRandomObject config random playerSize st)) as [b|].
    + destruct H as (_ & -> & -> & def & sz & pos & f & k & _ & -> & _).
      split; [lia|]. intros a Ha. apply in_app_iff in Ha as [Ha|[<-|[]]].
      * now apply Hall.
      * right. right.
        destruct (meshOf_fields (nextUuid st) (geometryType def) sz pos) as (-> & _).
        exact Hn.
    + destruct H as [-> ->]. now split.
  - intros playerSize st [Hn Hall]. rewrite cull_state. cbn [objects nextUuid].
    split; [exact Hn|]. intros a Ha. apply Hall. revert Ha.
    apply (removeAll_keeps (fun l => In a l -> In a (objects st))); [|tauto].
    intros u l Hl Hin. apply Hl. eapply removeFirst_subset; eassumption.
Qed.

Lemma westSphere_stays (playerSize : R) :
  cullable GAME_CONFIG playerSize westSphere = false.
Proof.
  destruct (cullable GAME_CONFIG playerSize westSphere) eqn:E; [|reflexivity].
  exfalso. apply cullable_true in E as (_ & H & _). simpl in H. lra.
Qed.

Lemma farSphere_goes (playerSize : R) :
  6 <= playerSize -> cullable GAME_CONFIG playerSize farSphere = true.
Proof.
  intros H. apply cullable_true. unfold THREE.lengthSq. simpl. repeat split; lra.
Qed.

Lemma busy_spawnLoop (playerSize : R) (fuel : nat) (n m : Z) :
  (0 < n)%Z -> (0 < m)%Z ->
  let s2 := snd (spawnLoop GAME_CONFIG alwaysHalf (S fuel) playerSize n m 0 0
                   (mkState [farSphere; westSphere] None 0 10)) in
  freshIdentities s2
  /\ In westSphere (objects s2)
  /\ (forall a, In a (objects s2) ->
        a = farSphere \/ a = westSphere \/ (10 <= uuid a)%nat)
  /\ exists o, uuid o = 10%nat /\ In o (objects s2)
               /\ forall ps, cullable GAME_CONFIG ps o = false.
Proof.
  intros Hn Hm. cbv zeta.
  set (s0 := mkState [farSphere; westSphere] None 0 10).
  assert (Hid0 : freshIdentities s0).
  { split; cbn [s0 objects nextUuid].
    - simpl. repeat constructor; simpl; intuition discriminate.
    - intros a [<-|[<-|[]]]; simpl; lia. }
  assert (Hnew0 : (10 <= nextUuid s0)%nat
                  /\ forall a, In a (objects s0) ->
                       a = farSphere \/ a = westSphere \/ (10 <= uuid a)%nat).
  { split; [cbn; lia|]. intros a [<-|[<-|[]]]; tauto. }
  rewrite spawnLoop_S.
  replace ((0 <? n)%Z && (0 <? m)%Z) with true
    by (symmetry; apply andb_true_intro; split; now apply Z.ltb_lt).
  cbv zeta.
  pose proof (spawn_at_origin playerSize s0) as Hspawn.
  pose proof (spawnRandomObject_spec GAME_CONFIG alwaysHalf playerSize s0) as Hspec.
  cbv zeta in Hspec. destruct Hspec as [_ Hspec].
  pose proof (proj1 (identities_kept GAME_CONFIG alwaysHalf) playerSize s0 Hid0) as Hid1.
  pose proof (proj1 (newcomers_kept GAME_CONFIG alwaysHalf) playerSize s0 Hnew0) as Hnew1.
  destruct (fst (spawnRandomObject GAME_CONFIG alwaysHalf playerSize s0)) as [o|].
  - destruct Hspawn as (ty & sz & Hsz & ->).
    + cbn. lia.
    + reflexivity.
    + intros a [<-|[<-|[]]]; unfold allocatorRadius, horizontalDistance,
        effectiveRadiusOf; simpl; apply sqrt_lower; lra.
    + destruct Hspec as (_ & Hobjs & _).
      replace ((0 + 1 >=? 10)%Z && (0 + 1 =? 0)%Z) with false by reflexivity.
      set (s1 := snd (spawnRandomObject GAME_CONFIG alwaysHalf playerSize s0)) in *.
      set (o := meshOf (nextUuid s0) ty sz THREE.zero) in *.
      assert (Hstay : forall ps, cullable GAME_CONFIG ps o = false)
        by (intros ps; now apply origin_body_stays).
      assert (Ho1 : freshIdentities s1 /\ In o (objects s1)).
      { split; [exact Hid1|]. rewrite Hobjs. apply in_or_app. right. now left. }
      assert (Hw1 : freshIdentities s1 /\ In westSphere (objects s1)).
      { split; [exact Hid1|]. rewrite Hobjs. apply in_or_app. left. simpl. tauto. }
      pose proof (spawnLoop_keeps GAME_CONFIG alwaysHalf _ playerSize n m
                    (member_kept GAME_CONFIG alwaysHalf o Hstay)
                    fuel (0 + 1)%Z (0 + 1)%Z s1 Ho1) as [Hid2 Ho2].
      pose proof (spawnLoop_keeps GAME_CONFIG alwaysHalf _ playerSize n m
                    (member_kept GAME_CONFIG alwaysHalf westSphere westSphere_stays)
                    fuel (0 + 1)%Z (0 + 1)%Z s1 Hw1) as [_ Hw2].
      pose proof (spawnLoop_keeps GAME_CONFIG alwaysHalf _ playerSize n m
                    (newcomers_kept GAME_CONFIG alwaysHalf)
                    fuel (0 + 1)%Z (0 + 1)%Z s1 Hnew1) as [_ Hnew2].
      split; [exact Hid2|]. split; [exact Hw2|]. split; [exact Hnew2|].
      exists o. split; [|split; [exact Ho2 | exact Hstay]].
      unfold o. now destruct (meshOf_fields (nextUuid s0) ty sz THREE.zero) as (-> & _).
  - exfalso. apply Hspawn.
    + cbn. lia.
    + reflexivity.
    + intros a [<-|[<-|[]]]; unfold allocatorRadius, horizontalDistance,
        effectiveRadiusOf; simpl; apply sqrt_lower; lra.
Qed.

(** The maintenance step of the busy frame: [farSphere] is culled,
    [westSphere] stays, [nearSphere] does not come back and a body with the
    identity 10 has been spawned. *)
Lemma busy_maintenance (playerSize : R) :
  6 <= playerSize ->
  let om := snd (checkAndSpawnObjects GAME_CONFIG alwaysHalf playerSize
                   (mkState [farSphere; westSphere] None 0 10)) in
  ~ In farSphere (objects om) /\ ~ In nearSphere (objects om)
  /\ In westSphere (objects om)
  /\ exists o, uuid o = 10%nat /\ In o (objects om).
Proof.
  intros Hsz. cbv zeta. unfold checkAndSpawnObjects.
  cbn [GAME_CONFIG RESPAWN_OBJECTS negb].
  rewrite bind_eq. cbn [get_objects fst snd]. rewrite bind_eq.
  match goal with
  | |- context [spawnLoop _ _ ?f _ ?n ?m 0 0 _] =>
      assert (Hf : f = S (Nat.pred f)) by reflexivity;
      assert (Hn : (0 < n)%Z) by reflexivity;
      assert (Hm : (0 < m)%Z) by reflexivity;
      rewrite Hf;
      destruct (busy_spawnLoop playerSize (Nat.pred f) n m Hn Hm)
        as (Hid & Hw & Hnew & o & Hu & Ho & Hstay);
      set (s2 := snd (spawnLoop GAME_CONFIG alwaysHalf (S (Nat.pred f)) playerSize
                        n m 0 0 (mkState [farSphere; westSphere] None 0 10))) in *
  end.
  rewrite cull_state. cbn [objects].
  rewrite (removeAll_filter _ _ (proj1 Hid)).
  split; [|split; [|split]].
  - intros Hin. apply filter_In in Hin as [_ Hc].
    rewrite (farSphere_goes playerSize Hsz) in Hc. discriminate.
  - intros Hin. apply filter_In in Hin as [Hin _].
    destruct (Hnew _ Hin) as [E|[E|E]].
    + apply (f_equal uuid) in E. discriminate.
    + apply (f_equal uuid) in E. discriminate.
    + simpl in E. lia.
  - apply filter_In. split; [exact Hw|]. now rewrite westSphere_stays.
  - exists o. split; [exact Hu|]. apply filter_In. split; [exact Ho|].
    now rewrite Hstay.
Qed.

End BusyMaintenance.

Section BusyFrameFacts.

Import GameController.

Lemma far_apart (a b : Vector3) (d : R) :
  0 <= d -> d * d <= (THREE.x a - THREE.x b) ^ 2 + (THREE.z a - THREE.z b) ^ 2 ->
  d <= horizontalDistance a b.
Proof. intros H0 H. unfold horizontalDistance. now apply sqrt_lower. Qed.

Lemma busy_wellSpaced : wellSpaced [nearSphere; farSphere; westSphere].
Proof.
  assert (H1 : spaced nearSphere farSphere)
    by (unfold spaced, allocatorRadius, ObjectManager.effectiveRadiusOf;
        simpl; apply far_apart; simpl; lra).
  assert (H2 : spaced nearSphere westSphere)
    by (unfold spaced, allocatorRadius, ObjectManager.effectiveRadiusOf;
        simpl; apply far_apart; simpl; lra).
  assert (H3 : spaced farSphere westSphere)
    by (unfold spaced, allocatorRadius, ObjectManager.effectiveRadiusOf;
        simpl; apply far_apart; simpl; lra).
  unfold wellSpaced.
  apply FOP_cons; [apply Forall_cons; [exact H1 | apply Forall_cons; [exact H2|]];
                   apply Forall_nil|].
  apply FOP_cons; [apply Forall_cons; [exact H3 | apply Forall_nil]|].
  apply FOP_cons; [apply Forall_nil | apply FOP_nil].
Qed.

Lemma busy_freshIdentities : freshIdentities (objectManager busyGame).
Proof.
  split; cbn [busyGame objectManager ObjectManager.objects ObjectManager.nextUuid].
  - simpl. repeat constructor; simpl; intuition discriminate.
  - intros a [<-|[<-|[<-|[]]]]; simpl; lia.
Qed.

(** The first frame of the busy game: [nearSphere] is absorbed and counted,
    [farSphere] is culled, [westSphere] stays and a body with the identity
    10 is spawned. *)
Lemma busy_frame (delta : R) :
  let g' := _gameLoop GAME_CONFIG alwaysHalf busyGame delta noKeys in
  itemsAbsorbed g' = 1%nat
  /\ ~ In farSphere (ObjectManager.objects (objectManager g'))
  /\ ~ In nearSphere (ObjectManager.objects (objectManager g'))
  /\ In westSphere (ObjectManager.objects (objectManager g'))
  /\ exists o, uuid o = 10%nat /\ In o (ObjectManager.objects (objectManager g')).
Proof.
  cbv zeta.
  assert (Hscan : Physics.checkCollisions
            (fst (InputHandler.update GAME_CONFIG noKeys (playerSphere busyGame)
                    (cameraController busyGame) delta))
            (ObjectManager.objects (objectManager busyGame)) (sphereSize busyGame) =
          ([nearSphere], samplePlayer 6)).
  { cbn [busyGame playerSphere cameraController objectManager sphereSize
         ObjectManager.objects].
    rewrite idle_update. cbn [fst]. exact busy_scan. }
  destruct (gameLoop_absorbing GAME_CONFIG alwaysHalf busyGame delta noKeys
              nearSphere [] (samplePlayer 6) eq_refl Hscan)
    as (g1 & Hom & Hsz & Hit & Hom' & Hit').
  assert (Hpos : 0 < sphereSize g1) by (rewrite Hsz; simpl; lra).
  destruct (absorb_all_counted GAME_CONFIG [nearSphere] g1 Hpos) as (Hc1 & _ & Hc3).
  pose proof (absorb_all_mono GAME_CONFIG [nearSphere] g1) as Hmono.
  rewrite Hsz in Hmono. cbn [busyGame sphereSize] in Hmono.
  rewrite Hom in Hc3.
  cbn [busyGame objectManager ObjectManager.objects fold_left] in Hc3.
  assert (Hstate : objectManager (fold_left (absorb GAME_CONFIG) [nearSphere] g1) =
                   ObjectManager.mkState [farSphere; westSphere] None 0 10).
  { cbn [fold_left] in *.
    destruct (absorb_manager GAME_CONFIG g1 nearSphere) as [E|E].
    - exfalso. rewrite E, Hom in Hc3. apply (f_equal (@List.length Mesh)) in Hc3.
      discriminate.
    - rewrite E, Hom. reflexivity. }
  rewrite Hit', Hc1, Hit, Hom', Hstate. split; [reflexivity|].
  now apply busy_maintenance.
Qed.

End BusyFrameFacts.

(** X28. The population invariants hold over a whole session.  Whatever the
    frames and the inputs are, a population whose bodies keep the allocator's
    clearance from one another and have distinct identities below the next
    one is still such a population after the session, and the number of
    bodies never exceeds the larger of MAX_OBJECTS_COUNT and the number at
    the start. *)
Theorem session_keeps_population (config : GameConfig) (random : nat -> R)
    (g : GameController.State) (frames : list (R * InputHandler.Controls)) :
  wellSpaced (ObjectManager.objects (GameController.objectManager g)) ->
  freshIdentities (GameController.objectManager g) ->
  let g' := GameController.session config random g frames in
  wellSpaced (ObjectManager.objects (GameController.objectManager g'))
  /\ freshIdentities (GameController.objectManager g')
  /\ (population (GameController.objectManager g') <=
      Z.max (population (GameController.objectManager g)) (MAX_OBJECTS_COUNT config))%Z.
Proof.
  intros Hs Hi g'. subst g'. split; [|split].
  - apply (session_keeps config random
             (fun s => wellSpaced (ObjectManager.objects s))).
    + apply spacing_kept.
    + intros o s. apply removal_keeps_spacing.
    + exact Hs.
  - apply (session_keeps config random freshIdentities).
    + apply identities_kept.
    + intros o s. apply removal_keeps_identities.
    + exact Hi.
  - apply (session_keeps config random
             (fun s => (population s <=
                        Z.max (population (GameController.objectManager g))
                              (MAX_OBJECTS_COUNT config))%Z)).
    + apply cap_kept. lia.
    + intros o s. apply removal_keeps_cap.
    + lia.
Qed.

Lemma session_keeps_population_witness :
  wellSpaced (ObjectManager.objects (GameController.objectManager busyGame))
  /\ freshIdentities (GameController.objectManager busyGame)
  /\ (GameController.itemsAbsorbed
        (GameController.session GAME_CONFIG alwaysHalf busyGame [(1 / 60, noKeys)]) = 1%nat
      /\ ~ In farSphere
            (ObjectManager.objects
               (GameController.objectManager
                  (GameController.session GAME_CONFIG alwaysHalf busyGame
                     [(1 / 60, noKeys)])))
      /\ (exists o, uuid o = 10%nat
            /\ In o (ObjectManager.objects
                       (GameController.objectManager
                          (GameController.session GAME_CONFIG alwaysHalf busyGame
                             [(1 / 60, noKeys)])))))
  /\ wellSpaced
       (ObjectManager.objects
          (GameController.objectManager
             (GameController.session GAME_CONFIG alwaysHalf busyGame
                [(1 / 60, noKeys);
                 (1 / 60, InputHandler.mkControls true false false false)])))
  /\ freshIdentities
       (GameController.objectManager
          (GameController.session GAME_CONFIG alwaysHalf busyGame
             [(1 / 60, noKeys);
              (1 / 60, InputHandler.mkControls true false false false)])).
Proof.
  assert (H1 : wellSpaced (ObjectManager.objects (GameController.objectManager busyGame)))
    by exact busy_wellSpaced.
  assert (H2 : freshIdentities (GameController.objectManager busyGame))
    by exact busy_freshIdentities.
  split; [exact H1|]. split; [exact H2|]. split.
  - destruct (busy_frame (1 / 60)) as (Hi & Hf & _ & _ & Ho).
    cbn [GameController.session]. split; [exact Hi|]. split; [exact Hf | exact Ho].
  - pose proof (session_keeps_population GAME_CONFIG alwaysHalf busyGame
                  [(1 / 60, noKeys);
                   (1 / 60, InputHandler.mkControls true false false false)] H1 H2)
      as H.
    cbv zeta in H. split; [exact (proj1 H) | exact (proj1 (proj2 H))].
Defined.

Section RespawnTarget.

Import ObjectManager.

Variable config : GameConfig.
Variable random : nat -> R.

Lemma spawn_population (playerSize : R) (s : State) :
  population (snd (spawnRandomObject config random playerSize s)) =
  match fst (spawnRandomObject config random playerSize s) with
  | Some _ => (population s + 1)%Z
  | None => population s
  end.
Proof.
  pose proof (spawnRandomObject_spec config random playerSize s) as H.
  cbv zeta in H. destruct H as [_ H]. unfold population.
  destruct (fst (spawnRandomObject config random playerSize s)) as [o|].
  - destruct H as (_ & -> & _). rewrite length_app. simpl. lia.
  - destruct H as [-> _]. reflexivity.
Qed.

Lemma cull_population (playerSize : R) (s : State) :
  (population (snd (_cullTinyObjects config playerSize s)) <= population s)%Z.
Proof.
  rewrite cull_state. unfold population. cbn [objects].
  assert (H : (List.length (fold_left (fun l x => removeFirst (uuid x) l)
                  (filter (cullable config playerSize) (objects s)) (objects s))
               <= List.length (objects s))%nat).
  { apply (removeAll_keeps (fun l => (List.length l <= List.length (objects s))%nat));
      [|lia].
    intros u l Hl. pose proof (removeFirst_length u l). lia. }
  lia.
Qed.

Lemma spawnLoop_count (playerSize : R) (n m : Z) : forall fuel a b s,
  (population (snd (spawnLoop config random fuel playerSize n m a b s))
   <= population s + Z.max 0 (n - a))%Z.
Proof.
  induction fuel as [|fuel IH]; intros a b s; cbn [spawnLoop].
  - cbn [ret snd]. lia.
  - destruct ((a <? n)%Z && (b <? m)%Z) eqn:E; [|cbn [ret snd]; lia].
    apply andb_prop in E as [Ea _]. apply Z.ltb_lt in Ea.
    rewrite bind_eq.
    pose proof (spawn_population playerSize s) as Hp.
    destruct (fst (spawnRandomObject config random playerSize s)) as [o|].
    + destruct (_ && _)%bool; [cbn [ret snd]; lia|].
      specialize (IH (a + 1)%Z (b + 1)%Z
                     (snd (spawnRandomObject config random playerSize s))). lia.
    + destruct (_ && _)%bool; [cbn [ret snd]; lia|].
      specialize (IH a (b + 1)%Z
                     (snd (spawnRandomObject config random playerSize s))). lia.
Qed.

Lemma initialLoop_count (playerSize : R) (n m : Z) : forall fuel a b s,
  (population (snd (initialLoop config random fuel playerSize n m a b s))
   <= population s + Z.max 0 (n - a))%Z.
Proof.
  induction fuel as [|fuel IH]; intros a b s; cbn [initialLoop].
  - cbn [ret snd]. lia.
  - destruct ((a <? n)%Z && (b <? m)%Z) eqn:E; [|cbn [ret snd]; lia].
    apply andb_prop in E as [Ea _]. apply Z.ltb_lt in Ea.
    rewrite bind_eq.
    pose proof (spawn_population playerSize s) as Hp.
    destruct (fst (spawnRandomObject config random playerSize s)) as [o|].
    + destruct (_ && _)%bool; [cbn [ret snd]; lia|].
      specialize (IH (a + 1)%Z (b + 1)%Z
                     (snd (spawnRandomObject config random playerSize s))). lia.
    + destruct (_ && _)%bool; [cbn [ret snd]; lia|].
      specialize (IH a (b + 1)%Z
                     (snd (spawnRandomObject config random playerSize s))). lia.
Qed.

End RespawnTarget.

(** X29. Respawning stops at the target.  The maintenance step never leaves
    more bodies than the larger of the number it found and the target
    min(MAX_OBJECTS_COUNT, INITIAL_OBJECTS_COUNT), and the initial spawn adds
    at most INITIAL_OBJECTS_COUNT bodies to the population. *)
Theorem respawn_stops_at_target (config : GameConfig) (random : nat -> R)
    (playerSize : R) (s : ObjectManager.State) :
  (population (snd (ObjectManager.checkAndSpawnObjects config random playerSize s))
   <= Z.max (population s)
        (Z.min (MAX_OBJECTS_COUNT config) (INITIAL_OBJECTS_COUNT config)))%Z
  /\ (population (snd (ObjectManager.spawnInitialObjects config random playerSize s))
      <= population s + Z.max 0 (INITIAL_OBJECTS_COUNT config))%Z.
Proof.
  split.
  - unfold ObjectManager.checkAndSpawnObjects.
    destruct (negb (RESPAWN_OBJECTS config)); [cbn [ObjectManager.ret snd]; lia|].
    rewrite bind_eq. cbn [ObjectManager.get_objects fst snd]. rewrite bind_eq.
    match goal with
    | |- (population (snd (ObjectManager._cullTinyObjects _ _ (snd ?c))) <= _)%Z =>
        pose proof (cull_population config playerSize (snd c)) as Hc
    end.
    match type of Hc with
    | (_ <= population (snd (ObjectManager.spawnLoop _ _ ?f _ ?n ?m ?a ?b _)))%Z =>
        pose proof (spawnLoop_count config random playerSize n m f a b s) as Hl
    end.
    unfold population in *. lia.
  - unfold ObjectManager.spawnInitialObjects. cbv zeta.
    match goal with
    | |- (population (snd (ObjectManager.initialLoop _ _ ?f _ ?n ?m ?a ?b _)) <= _)%Z =>
        pose proof (initialLoop_count config random playerSize n m f a b s) as Hl
    end.
    lia.
Qed.
